(** * The prism-in-browser HTTP adapter (prism.ts): model and verified properties

    The adapter turns a Fetch [Request] into the request model of the Prism
    mock engine and turns the engine's result back into a Fetch [Response].
    This file embeds the functions of the adapter as Rocq functions and
    proves the properties its specification states about them.

    Conventions of the embedding:
    - a JavaScript string is a [string] of 8-bit characters;
      [String.length] is [.length];
    - a JavaScript value is a [value]; its numbers are the integers;
    - a [throw] is the [Throw] outcome of a [Result], and a promise is
      modelled by its settlement: [Return] when it fulfils, [Throw] when
      it rejects;
    - a plain object used as a dictionary is a [gmap] of its own
      properties keyed by strings or, where the enumeration order matters,
      an association list;
    - an object that is shared between requests lives in a store and is
      named by its location;
    - the Fetch [Headers] class is a map keyed by lower-cased names;
      [set] and [append] strip the white space around a value and throw a
      [TypeError] for a name or a value that is not one, and [get] answers
      [null] for an absent name, as the Fetch standard says;
    - [new Response] and [Response.json] throw for a status outside 200 to
      599 and for a body under a null-body status, as the Fetch standard
      says; what differs between the hosts of the Fetch API is a parameter
      ([Host]);
    - the calls of the logger are modelled beside the results, by the list
      of the entries they write. *)

From Stdlib Require Import ZArith String Ascii List Lia Bool.
From Stdlib Require Import DecimalString DecimalZ DecimalPos DecimalFacts.
From stdpp Require Import base option gmap strings list fin_maps.

Set Warnings "-register-all".
Open Scope string_scope.
Open Scope Z_scope.

(** ** JavaScript values *)

Inductive value : Type :=
| VUndefined
| VNull
| VBool (b : bool)
| VNum (n : Z)
| VStr (s : string)
| VArr (xs : list value)
| VObj (ps : list (string * value)).

(** [typeof v] *)
Definition typeof (v : value) : string :=
  match v with
  | VUndefined => "undefined"
  | VNull => "object"
  | VBool _ => "boolean"
  | VNum _ => "number"
  | VStr _ => "string"
  | VArr _ => "object"
  | VObj _ => "object"
  end.

(** [!!v] *)
Definition truthy (v : value) : bool :=
  match v with
  | VUndefined | VNull => false
  | VBool b => b
  | VNum n => negb (n =? 0)
  | VStr s => negb (String.eqb s "")
  | VArr _ | VObj _ => true
  end.

(** [!!s] for [s : string | undefined] *)
Definition truthy_str (s : option string) : bool :=
  match s with
  | None => false
  | Some s => negb (String.eqb s "")
  end.

(** ** Errors and results *)

(** One entry of the [sl-violations] header and of the [validation] member
    of a VIOLATIONS problem (type [ValidationError] of the source). *)
Record ValidationError := mkValidationError {
  location : list string;
  severity : string;
  code : option (string + Z);
  message : option string
}.

(** The [additional] dictionary of a failure: the two members the adapter
    reads or writes. *)
Record Additional := mkAdditional {
  add_headers : option (list (string * string));
  add_validation : option (list ValidationError)
}.

(** What io-ts reports for one field of the preferences. *)
Inductive DecodeFailure :=
| NotAString
| NotANumber (s : string)
| NotABoolean (s : string).

(** The [detail] of a failure: a literal text, or the text [D.draw] renders
    for the listed property failures. *)
Inductive Detail :=
| DetailText (s : string)
| DetailDraw (errs : list (string * DecodeFailure)).

(** A JavaScript [Error] with the optional members the adapter uses. *)
Record JsError := mkJsError {
  err_name : string;
  err_message : string;
  err_status : option Z;
  err_detail : option Detail;
  err_additional : option Additional
}.

(** [new Error(msg)] *)
Definition new_Error (msg : string) : JsError :=
  {| err_name := "Error"; err_message := msg; err_status := None;
     err_detail := None; err_additional := None |}.

Inductive Result (A : Type) : Type :=
| Return (a : A)
| Throw (e : JsError).
Arguments Return {A} a.
Arguments Throw {A} e.

Definition bindR {A B} (r : Result A) (k : A -> Result B) : Result B :=
  match r with
  | Return a => k a
  | Throw e => Throw e
  end.

Notation "'let!' x ':=' r 'in' k" := (bindR r (fun x => k))
  (at level 10, x name, r at level 100, k at level 200).

(** ** Media types

    The tests of the serializers and of the request body call [typeIs] of
    the [type-is] package, a dependency that is not under src. *)

Definition is_upper (c : ascii) : bool :=
  let n := nat_of_ascii c in (65 <=? n)%nat && (n <=? 90)%nat.
Definition is_lower (c : ascii) : bool :=
  let n := nat_of_ascii c in (97 <=? n)%nat && (n <=? 122)%nat.
Definition is_digit (c : ascii) : bool :=
  let n := nat_of_ascii c in (48 <=? n)%nat && (n <=? 57)%nat.

Definition to_lower (c : ascii) : ascii :=
  if is_upper c then ascii_of_nat (nat_of_ascii c + 32) else c.

Fixpoint toLowerCase (s : string) : string :=
  match s with
  | EmptyString => EmptyString
  | String c r => String (to_lower c) (toLowerCase r)
  end.

(** the text before the first occurrence of [d] *)
Fixpoint before (d : ascii) (s : string) : string :=
  match s with
  | EmptyString => EmptyString
  | String c r => if Ascii.eqb c d then EmptyString else String c (before d r)
  end.

(** [s.split(d)] *)
Fixpoint split_on (d : ascii) (s : string) : list string :=
  match s with
  | EmptyString => [EmptyString]
  | String c r =>
      if Ascii.eqb c d then EmptyString :: split_on d r
      else match split_on d r with
           | [] => [String c EmptyString]
           | p :: ps => String c p :: ps
           end
  end.

Fixpoint drop_spaces (s : string) : string :=
  match s with
  | String " " r => drop_spaces r
  | _ => s
  end.

Fixpoint rev_string (s : string) : string :=
  match s with
  | EmptyString => EmptyString
  | String c r => rev_string r +:+ String c EmptyString
  end.

Definition trim_spaces (s : string) : string :=
  rev_string (drop_spaces (rev_string (drop_spaces s))).

Definition is_type_char (c : ascii) : bool :=
  is_lower c || is_upper c || is_digit c ||
  existsb (Ascii.eqb c) ["!"; "#"; "$"; "&"; "^"; "_"; "-"]%char.

Definition is_subtype_char (c : ascii) : bool :=
  is_type_char c || existsb (Ascii.eqb c) ["."; "+"]%char.

Fixpoint all_chars (p : ascii -> bool) (s : string) : bool :=
  match s with
  | EmptyString => true
  | String c r => p c && all_chars p r
  end.

(** a name of 1 to 127 characters that starts with a letter or a digit *)
Definition is_name (p : ascii -> bool) (s : string) : bool :=
  match s with
  | EmptyString => false
  | String c r =>
      (is_lower c || is_upper c || is_digit c) && all_chars p r
      && (String.length r <=? 126)%nat
  end.

(** Modelled from the spec: the families of content types (JSON, XML,
    text) are decided on the media type of the value, which [type-is]
    computes by dropping the parameters and folding the case; [None] when
    the value is absent, empty or not of the form type/subtype. *)
Definition normalizeType (v : option string) : option (string * string) :=
  match v with
  | None => None
  | Some s =>
      match split_on "/" (toLowerCase (trim_spaces (before ";" s))) with
      | [t; st] =>
          if is_name is_type_char t && is_name is_subtype_char st
          then Some (t, st) else None
      | _ => None
      end
  end.

Fixpoint drop_string (n : nat) (s : string) : string :=
  match n, s with
  | O, _ => s
  | S n, String _ r => drop_string n r
  | S _, EmptyString => EmptyString
  end.

(** [actual] ends with [suffix] *)
Definition ends_with (suffix actual : string) : bool :=
  (String.length suffix <=? String.length actual)%nat &&
  String.eqb (drop_string (String.length actual - String.length suffix) actual)
             suffix.

(** Modelled from the spec: a family is a list of patterns; as in
    [mimeMatch(expected, actual)] of [type-is], [*] matches any type or
    subtype and [*+suffix] matches the subtypes that end with [+suffix]. *)
Definition mimeMatch (expected : string) (actual : string * string) : bool :=
  match split_on "/" expected with
  | [et; est] =>
      (String.eqb et "*" || String.eqb et (fst actual)) &&
      match est with
      | String "*" (String "+" suf) => ends_with (String "+" suf) (snd actual)
      | _ => String.eqb est "*" || String.eqb est (snd actual)
      end
  | _ => false
  end.

(** [!!typeIs(value, types)] *)
Definition typeIs (v : option string) (types : list string) : bool :=
  match normalizeType v with
  | None => false
  | Some actual => existsb (fun t => mimeMatch t actual) types
  end.


(** ** JSON: [JSON.stringify] and [JSON.parse] *)

(** the double quote character *)
Definition dquote : ascii := ascii_of_nat 34.

Definition hex_digit (n : nat) : ascii :=
  if (n <? 10)%nat then ascii_of_nat (48 + n) else ascii_of_nat (87 + n).

(** [QuoteJSONString], one character: the two-character escapes, [\u00xx]
    for the other control characters, the character itself otherwise *)
Definition quote_char (c : ascii) : string :=
  let n := nat_of_ascii c in
  if (n =? 8)%nat then "\b"
  else if (n =? 9)%nat then "\t"
  else if (n =? 10)%nat then "\n"
  else if (n =? 12)%nat then "\f"
  else if (n =? 13)%nat then "\r"
  else if (n =? 34)%nat then String "\" (String dquote EmptyString)
  else if (n =? 92)%nat then "\\"
  else if (n <? 32)%nat then
    "\u00" +:+ String (hex_digit (n / 16)) (String (hex_digit (n mod 16)) "")
  else String c EmptyString.

Fixpoint quote_chars (s : string) : string :=
  match s with
  | EmptyString => EmptyString
  | String c r => quote_char c +:+ quote_chars r
  end.

Definition quote (s : string) : string :=
  String dquote (quote_chars s +:+ String dquote EmptyString).

(** the decimal numeral of an integral number *)
Definition number_to_string (n : Z) : string :=
  NilZero.string_of_int (Z.to_int n).

Fixpoint join (sep : string) (l : list string) : string :=
  match l with
  | [] => EmptyString
  | [x] => x
  | x :: r => x +:+ sep +:+ join sep r
  end.

(** [JSON.stringify(v)]; [None] is the result [undefined].  In an array
    [undefined] is written [null]; in an object a member whose value is
    [undefined] is left out. *)
Fixpoint JSON_stringify (v : value) : option string :=
  match v with
  | VUndefined => None
  | VNull => Some "null"
  | VBool true => Some "true"
  | VBool false => Some "false"
  | VNum n => Some (number_to_string n)
  | VStr s => Some (quote s)
  | VArr xs =>
      Some ("[" +:+ join ","
              ((fix elems (l : list value) : list string :=
                  match l with
                  | [] => []
                  | x :: r => default "null" (JSON_stringify x) :: elems r
                  end) xs) +:+ "]")
  | VObj ps =>
      Some ("{" +:+ join ","
              ((fix members (l : list (string * value)) : list string :=
                  match l with
                  | [] => []
                  | (k, x) :: r =>
                      match JSON_stringify x with
                      | Some s => (quote k +:+ ":" +:+ s) :: members r
                      | None => members r
                      end
                  end) ps) +:+ "}")
  end.

Definition is_ws (c : ascii) : bool :=
  let n := nat_of_ascii c in
  (n =? 32)%nat || (n =? 9)%nat || (n =? 10)%nat || (n =? 13)%nat.

Fixpoint skip_ws (s : string) : string :=
  match s with
  | String c r => if is_ws c then skip_ws r else s
  | EmptyString => s
  end.

(** [Some r] when [s] is [p] followed by [r] *)
Fixpoint strip_prefix (p s : string) : option string :=
  match p, s with
  | EmptyString, _ => Some s
  | String a p', String b s' => if Ascii.eqb a b then strip_prefix p' s' else None
  | String _ _, EmptyString => None
  end.

Definition hex_value (c : ascii) : option nat :=
  let n := nat_of_ascii c in
  if is_digit c then Some (n - 48)%nat
  else if (97 <=? n)%nat && (n <=? 102)%nat then Some (n - 87)%nat
  else if (65 <=? n)%nat && (n <=? 70)%nat then Some (n - 55)%nat
  else None.

(** the character a two-character escape stands for *)
Definition unescape (e : ascii) : option ascii :=
  if Ascii.eqb e dquote then Some dquote
  else if Ascii.eqb e "\" then Some "\"%char
  else if Ascii.eqb e "/" then Some "/"%char
  else if Ascii.eqb e "b" then Some (ascii_of_nat 8)
  else if Ascii.eqb e "f" then Some (ascii_of_nat 12)
  else if Ascii.eqb e "n" then Some (ascii_of_nat 10)
  else if Ascii.eqb e "r" then Some (ascii_of_nat 13)
  else if Ascii.eqb e "t" then Some (ascii_of_nat 9)
  else None.

Definition cons_char (c : ascii) (r : option (string * string))
  : option (string * string) :=
  match r with
  | Some (s, rest) => Some (String c s, rest)
  | None => None
  end.

(** the characters of a string literal after its opening quote, and the
    text after its closing quote; a [\u] escape above [ÿ] has no
    character in the model *)
Fixpoint parse_chars (s : string) : option (string * string) :=
  match s with
  | EmptyString => None
  | String c r =>
      if Ascii.eqb c dquote then Some (EmptyString, r)
      else if Ascii.eqb c "\" then
        match r with
        | EmptyString => None
        | String e r1 =>
            if Ascii.eqb e "u" then
              match r1 with
              | String h1 (String h2 (String h3 (String h4 r2))) =>
                  match hex_value h1, hex_value h2, hex_value h3, hex_value h4 with
                  | Some 0%nat, Some 0%nat, Some a, Some b =>
                      cons_char (ascii_of_nat (16 * a + b)) (parse_chars r2)
                  | _, _, _, _ => None
                  end
              | _ => None
              end
            else
              match unescape e with
              | Some c' => cons_char c' (parse_chars r1)
              | None => None
              end
        end
      else if (nat_of_ascii c <? 32)%nat then None
      else cons_char c (parse_chars r)
  end.

Fixpoint span_digits (s : string) : string * string :=
  match s with
  | EmptyString => (EmptyString, EmptyString)
  | String c r =>
      if is_digit c
      then let (d, rest) := span_digits r in (String c d, rest)
      else (EmptyString, s)
  end.

(** a numeral without sign: no leading zero; a fraction or an exponent has
    no integral number in the model *)
Definition parse_digits (s : string) : option (Z * string) :=
  let (ds, rest) := span_digits s in
  let integral :=
    match rest with
    | String c _ => negb (existsb (Ascii.eqb c) ["."; "e"; "E"]%char)
    | EmptyString => true
    end in
  match ds with
  | EmptyString => None
  | String c (String _ _ as more) =>
      if Ascii.eqb c "0" || negb integral then None
      else match NilEmpty.uint_of_string ds with
           | Some d => Some (Z.of_uint d, rest)
           | None => None
           end
  | _ =>
      if negb integral then None
      else match NilEmpty.uint_of_string ds with
           | Some d => Some (Z.of_uint d, rest)
           | None => None
           end
  end.

(** [Number.MAX_SAFE_INTEGER] *)
Definition MAX_SAFE_INTEGER : Z := 9007199254740991.

(** A numeral that stands for an integer of the model.  The numeral [-0]
    stands for the negative zero and a numeral above the safe integers is
    rounded by the host: the model has no number for either. *)
Definition parse_number (s : string) : option (Z * string) :=
  match s with
  | String c r =>
      if Ascii.eqb c "-" then
        match parse_digits r with
        | Some (n, rest) =>
            if (n =? 0) || (MAX_SAFE_INTEGER <? n) then None
            else Some (- n, rest)
        | None => None
        end
      else
        match parse_digits s with
        | Some (n, rest) =>
            if MAX_SAFE_INTEGER <? n then None else Some (n, rest)
        | None => None
        end
  | EmptyString => None
  end.

(** [o[k] = v] on the properties of an object: replace in place, or append *)
Fixpoint assoc_set {A} (k : string) (v : A) (ps : list (string * A))
  : list (string * A) :=
  match ps with
  | [] => [(k, v)]
  | (k', v') :: r =>
      if String.eqb k k' then (k, v) :: r else (k', v') :: assoc_set k v r
  end.

(** One JSON value at the head of [s], after white space, and the text that
    follows it.  [fuel] bounds the nesting and the number of elements. *)
Fixpoint parse_value (fuel : nat) (s : string) : option (value * string) :=
  match fuel with
  | O => None
  | S fuel =>
      let s := skip_ws s in
      match strip_prefix "null" s, strip_prefix "true" s, strip_prefix "false" s with
      | Some r, _, _ => Some (VNull, r)
      | _, Some r, _ => Some (VBool true, r)
      | _, _, Some r => Some (VBool false, r)
      | None, None, None =>
          match s with
          | EmptyString => None
          | String c r =>
              if Ascii.eqb c dquote then
                match parse_chars r with
                | Some (str, rest) => Some (VStr str, rest)
                | None => None
                end
              else if Ascii.eqb c "[" then
                match strip_prefix "]" (skip_ws r) with
                | Some rest => Some (VArr [], rest)
                | None =>
                    match parse_elements fuel r with
                    | Some (xs, rest) => Some (VArr xs, rest)
                    | None => None
                    end
                end
              else if Ascii.eqb c "{" then
                match strip_prefix "}" (skip_ws r) with
                | Some rest => Some (VObj [], rest)
                | None =>
                    match parse_members fuel r with
                    | Some (ms, rest) =>
                        Some (VObj (fold_left (fun o m => assoc_set (fst m) (snd m) o)
                                              ms []), rest)
                    | None => None
                    end
                end
              else
                match parse_number s with
                | Some (n, rest) => Some (VNum n, rest)
                | None => None
                end
          end
      end
  end
with parse_elements (fuel : nat) (s : string) : option (list value * string) :=
  match fuel with
  | O => None
  | S fuel =>
      match parse_value fuel s with
      | None => None
      | Some (v, r) =>
          match strip_prefix "," (skip_ws r), strip_prefix "]" (skip_ws r) with
          | Some r', _ =>
              match parse_elements fuel r' with
              | Some (vs, rest) => Some (v :: vs, rest)
              | None => None
              end
          | None, Some rest => Some ([v], rest)
          | None, None => None
          end
      end
  end
with parse_members (fuel : nat) (s : string)
  : option (list (string * value) * string) :=
  match fuel with
  | O => None
  | S fuel =>
      match skip_ws s with
      | EmptyString => None
      | String c r =>
          if Ascii.eqb c dquote then
            match parse_chars r with
            | None => None
            | Some (k, r1) =>
                match strip_prefix ":" (skip_ws r1) with
                | None => None
                | Some r2 =>
                    match parse_value fuel r2 with
                    | None => None
                    | Some (v, r3) =>
                        match strip_prefix "," (skip_ws r3),
                              strip_prefix "}" (skip_ws r3) with
                        | Some r4, _ =>
                            match parse_members fuel r4 with
                            | Some (ms, rest) => Some ((k, v) :: ms, rest)
                            | None => None
                            end
                        | None, Some rest => Some ([(k, v)], rest)
                        | None, None => None
                        end
                    end
                end
            end
          else None
      end
  end.

(** The value [JSON.parse(s)] returns, for the texts whose value is a
    value of the model.  [None] for every other text: one that is not
    JSON, and one whose value the model has no term for (a numeral with a
    fraction or an exponent, a numeral beyond the safe integers, the
    numeral [-0], a [\u] escape above [00ff]). *)
Definition JSON_parse (s : string) : option value :=
  match parse_value (S (String.length s)) s with
  | Some (v, rest) =>
      match skip_ws rest with
      | EmptyString => Some v
      | String _ _ => None
      end
  | None => None
  end.

(** *** The grammar of JSON

    Whether a text is JSON at all, for every numeral and every escape of
    the grammar (ECMA-404): a pushdown recognizer that reads the text
    character by character.  [JSON.parse] throws a [SyntaxError] exactly
    on the texts it refuses. *)

Inductive Context := InArray | InObject.

Inductive Lexer :=
| ExpectValue                       (* a value starts here *)
| ExpectValueOrClose                (* after [[]: a value, or the bracket *)
| ExpectKeyOrClose                  (* after [{]: a name, or the brace *)
| ExpectKey                         (* after [,] in an object *)
| ExpectColon                       (* after a name *)
| AfterValue                        (* after a value *)
| InString (key : bool)             (* in a string literal; a name? *)
| InEscape (key : bool)             (* after a backslash *)
| InUnicode (key : bool) (n : nat)  (* [S n] hexadecimal digits to come *)
| InLiteral (rest : string)         (* the rest of null, true or false *)
| NumMinus | NumZero | NumInt | NumPoint | NumFrac
| NumE | NumESign | NumExp.

Definition is_hex (c : ascii) : bool :=
  match hex_value c with
  | Some _ => true
  | None => false
  end.

Definition is_e (c : ascii) : bool := Ascii.eqb c "e" || Ascii.eqb c "E".

(** after a value: white space, a comma or the end of the array or object *)
Definition after_value (stack : list Context) (c : ascii)
  : option (Lexer * list Context) :=
  if is_ws c then Some (AfterValue, stack)
  else if Ascii.eqb c "," then
    match stack with
    | InArray :: _ => Some (ExpectValue, stack)
    | InObject :: _ => Some (ExpectKey, stack)
    | [] => None
    end
  else if Ascii.eqb c "]" then
    match stack with
    | InArray :: r => Some (AfterValue, r)
    | _ => None
    end
  else if Ascii.eqb c "}" then
    match stack with
    | InObject :: r => Some (AfterValue, r)
    | _ => None
    end
  else None.

(** the first character of a value *)
Definition start_value (stack : list Context) (c : ascii)
  : option (Lexer * list Context) :=
  if Ascii.eqb c dquote then Some (InString false, stack)
  else if Ascii.eqb c "[" then Some (ExpectValueOrClose, InArray :: stack)
  else if Ascii.eqb c "{" then Some (ExpectKeyOrClose, InObject :: stack)
  else if Ascii.eqb c "-" then Some (NumMinus, stack)
  else if Ascii.eqb c "0" then Some (NumZero, stack)
  else if is_digit c then Some (NumInt, stack)
  else if Ascii.eqb c "n" then Some (InLiteral "ull", stack)
  else if Ascii.eqb c "t" then Some (InLiteral "rue", stack)
  else if Ascii.eqb c "f" then Some (InLiteral "alse", stack)
  else None.

Definition step (state : Lexer) (stack : list Context) (c : ascii)
  : option (Lexer * list Context) :=
  match state with
  | ExpectValue =>
      if is_ws c then Some (ExpectValue, stack) else start_value stack c
  | ExpectValueOrClose =>
      if is_ws c then Some (ExpectValueOrClose, stack)
      else if Ascii.eqb c "]" then
        match stack with
        | InArray :: r => Some (AfterValue, r)
        | _ => None
        end
      else start_value stack c
  | ExpectKeyOrClose =>
      if is_ws c then Some (ExpectKeyOrClose, stack)
      else if Ascii.eqb c "}" then
        match stack with
        | InObject :: r => Some (AfterValue, r)
        | _ => None
        end
      else if Ascii.eqb c dquote then Some (InString true, stack)
      else None
  | ExpectKey =>
      if is_ws c then Some (ExpectKey, stack)
      else if Ascii.eqb c dquote then Some (InString true, stack)
      else None
  | ExpectColon =>
      if is_ws c then Some (ExpectColon, stack)
      else if Ascii.eqb c ":" then Some (ExpectValue, stack)
      else None
  | AfterValue => after_value stack c
  | InString key =>
      if Ascii.eqb c dquote
      then Some (if key then ExpectColon else AfterValue, stack)
      else if Ascii.eqb c "\" then Some (InEscape key, stack)
      else if (nat_of_ascii c <? 32)%nat then None
      else Some (InString key, stack)
  | InEscape key =>
      if Ascii.eqb c "u" then Some (InUnicode key 3, stack)
      else match unescape c with
           | Some _ => Some (InString key, stack)
           | None => None
           end
  | InUnicode key n =>
      if is_hex c
      then Some (match n with
                 | O => InString key
                 | S m => InUnicode key m
                 end, stack)
      else None
  | InLiteral rest =>
      match rest with
      | String c' EmptyString =>
          if Ascii.eqb c c' then Some (AfterValue, stack) else None
      | String c' r =>
          if Ascii.eqb c c' then Some (InLiteral r, stack) else None
      | EmptyString => None
      end
  | NumMinus =>
      if Ascii.eqb c "0" then Some (NumZero, stack)
      else if is_digit c then Some (NumInt, stack)
      else None
  | NumZero =>
      if Ascii.eqb c "." then Some (NumPoint, stack)
      else if is_e c then Some (NumE, stack)
      else after_value stack c
  | NumInt =>
      if is_digit c then Some (NumInt, stack)
      else if Ascii.eqb c "." then Some (NumPoint, stack)
      else if is_e c then Some (NumE, stack)
      else after_value stack c
  | NumPoint => if is_digit c then Some (NumFrac, stack) else None
  | NumFrac =>
      if is_digit c then Some (NumFrac, stack)
      else if is_e c then Some (NumE, stack)
      else after_value stack c
  | NumE =>
      if Ascii.eqb c "+" || Ascii.eqb c "-" then Some (NumESign, stack)
      else if is_digit c then Some (NumExp, stack)
      else None
  | NumESign => if is_digit c then Some (NumExp, stack) else None
  | NumExp =>
      if is_digit c then Some (NumExp, stack) else after_value stack c
  end.

(** the text may end here: one value has been read *)
Definition final (state : Lexer) (stack : list Context) : bool :=
  match stack, state with
  | [], (AfterValue | NumZero | NumInt | NumFrac | NumExp) => true
  | _, _ => false
  end.

Fixpoint run (state : Lexer) (stack : list Context) (s : string) : bool :=
  match s with
  | EmptyString => final state stack
  | String c r =>
      match step state stack c with
      | Some (state', stack') => run state' stack' r
      | None => false
      end
  end.

(** [s] is a JSON text *)
Definition JSON_text (s : string) : bool := run ExpectValue [] s.

Fixpoint NoDupb (l : list string) : bool :=
  match l with
  | [] => true
  | x :: r => negb (existsb (String.eqb x) r) && NoDupb r
  end.

(** The JSON-safe values: no [undefined] anywhere, numbers that are safe
    integers, objects whose property names are pairwise distinct. *)
Fixpoint json_safe (v : value) : bool :=
  match v with
  | VUndefined => false
  | VNull | VBool _ | VStr _ => true
  | VNum n => (- MAX_SAFE_INTEGER <=? n) && (n <=? MAX_SAFE_INTEGER)
  | VArr xs => forallb json_safe xs
  | VObj ps =>
      NoDupb (map fst ps) &&
      (fix all (l : list (string * value)) : bool :=
         match l with
         | [] => true
         | (_, x) :: r => json_safe x && all r
         end) ps
  end.

(** ** Response serialization *)

(** What [serialize] returns: a JavaScript value (the payload, a string or
    [undefined]), or the string [xmlSerializer.build({ xml: data })] that
    fast-xml-parser builds for [data]. *)
Inductive Serialized :=
| SValue (v : value)
| SXml (data : value).

Record Serializer := mkSerializer {
  test : string -> bool;
  serializer : value -> Result Serialized
}.

Definition NO_COMPLEX_OBJECT_TEXT : JsError :=
  {| err_name := "https://stoplight.io/prism/errors#NO_COMPLEX_OBJECT_TEXT";
     err_message := "Cannot serialise complex objects as text";
     err_status := Some 500;
     err_detail := Some (DetailText "Cannot serialise complex objects as text");
     err_additional := None |}.

Definition serializers : list Serializer :=
  [ {| test := fun v => typeIs (Some v) ["application/json"; "application/*+json"];
       serializer := fun data =>
         Return (SValue (match JSON_stringify data with
                         | Some s => VStr s
                         | None => VUndefined
                         end)) |};
    {| test := fun v => typeIs (Some v) ["application/xml"; "application/*+xml"];
       serializer := fun data =>
         match data with
         | VStr _ => Return (SValue data)
         | _ => Return (SXml data)
         end |};
    {| test := fun v => typeIs (Some v) ["text/*"];
       serializer := fun data =>
         if existsb (String.eqb (typeof data)) ["string"; "undefined"]
         then Return (SValue data)
         else Throw NO_COMPLEX_OBJECT_TEXT |} ].

(** the text of [contentType] inside a template string *)
Definition template_of (contentType : option string) : string :=
  match contentType with
  | Some s => s
  | None => "undefined"
  end.

Definition serialize (payload : value) (contentType : option string)
  : Result Serialized :=
  if negb (truthy_str contentType) && negb (truthy payload)
  then Return (SValue VUndefined)
  else
    let serializer_found :=
      match contentType with
      | Some ct =>
          if truthy_str contentType
          then List.find (fun s => test s ct) serializers
          else None
      | None => None
      end in
    match serializer_found with
    | None =>
        match payload with
        | VStr _ => Return (SValue payload)
        | _ => Throw (new_Error ("Cannot find serializer for "
                                   +:+ template_of contentType))
        end
    | Some s => serializer s payload
    end.

(** ** Headers *)

(** the errors of the host; the text of their message is the host's *)
Definition host_error (name message : string) : JsError :=
  {| err_name := name; err_message := message; err_status := None;
     err_detail := None; err_additional := None |}.

Definition TypeError (message : string) : JsError :=
  host_error "TypeError" message.

Definition RangeError (message : string) : JsError :=
  host_error "RangeError" message.

(** a character of a token (RFC 9110), of which header names are made *)
Definition is_tchar (c : ascii) : bool :=
  is_lower c || is_upper c || is_digit c ||
  existsb (Ascii.eqb c)
    ["!"; "#"; "$"; "%"; "&"; "'"; "*"; "+"; "-"; "."; "^"; "_"; "`"; "|"; "~"]%char.

(** a header name: a token *)
Definition is_header_name (name : string) : bool :=
  negb (String.eqb name "") && all_chars is_tchar name.

(** HTTP white space: tab, line feed, carriage return, space *)
Definition is_http_whitespace (c : ascii) : bool := is_ws c.

Fixpoint drop_while (p : ascii -> bool) (s : string) : string :=
  match s with
  | String c r => if p c then drop_while p r else s
  | EmptyString => s
  end.

(** [s] without the characters at its end that satisfy [p] *)
Fixpoint drop_end (p : ascii -> bool) (s : string) : string :=
  match s with
  | EmptyString => EmptyString
  | String c r =>
      match drop_end p r with
      | EmptyString => if p c then EmptyString else String c EmptyString
      | r' => String c r'
      end
  end.

(** Fetch "normalize": the value without the HTTP white space before and
    after it *)
Definition normalize_value (v : string) : string :=
  drop_end is_http_whitespace (drop_while is_http_whitespace v).

(** a header value: no NUL, no line feed, no carriage return (a normalized
    value has no white space at its ends) *)
Definition is_header_value (v : string) : bool :=
  all_chars (fun c => negb (existsb (Nat.eqb (nat_of_ascii c)) [0; 10; 13]%nat)) v.

(** The Fetch [Headers] class: the map from the lower-cased names to the
    values.  What [set] and [append] do before they store a value: the
    value is normalized, and a name or a value that is not one is a
    [TypeError]. *)
Definition header_entry (name v : string) : Result (string * string) :=
  if is_header_name name && is_header_value (normalize_value v)
  then Return (toLowerCase name, normalize_value v)
  else Throw (TypeError "Invalid header").

(** [headers.set(name, v)]; the model returns the updated map *)
Definition Headers_set (h : gmap string string) (name v : string)
  : Result (gmap string string) :=
  let! entry := header_entry name v in
  Return (<[fst entry := snd entry]> h).

(** [headers.get(name)] for a name that is a token: the value, or [null] *)
Definition Headers_get (h : gmap string string) (name : string) : value :=
  match h !! toLowerCase name with
  | Some v => VStr v
  | None => VNull
  end.

(** [headers.append(name, v)]: a second value joins the first *)
Definition Headers_append (h : gmap string string) (name v : string)
  : Result (gmap string string) :=
  let! entry := header_entry name v in
  Return (match h !! fst entry with
          | Some old => <[fst entry := old +:+ ", " +:+ snd entry]> h
          | None => <[fst entry := snd entry]> h
          end).

(** the entries of [init] appended to [h], in order *)
Fixpoint Headers_fill (init : list (string * string)) (h : gmap string string)
  : Result (gmap string string) :=
  match init with
  | [] => Return h
  | (name, v) :: r =>
      let! h' := Headers_append h name v in
      Headers_fill r h'
  end.

(** [new Headers(init)] for a dictionary [init], entries in order *)
Definition new_Headers (init : list (string * string))
  : Result (gmap string string) :=
  Headers_fill init ∅.

(** [a === b] on primitive values *)
Definition strict_eq (a b : value) : bool :=
  match a, b with
  | VUndefined, VUndefined => true
  | VNull, VNull => true
  | VBool x, VBool y => Bool.eqb x y
  | VNum x, VNum y => x =? y
  | VStr x, VStr y => String.eqb x y
  | _, _ => false
  end.

(** [v ?? undefined] for [v : string | null] *)
Definition string_or_undefined (v : value) : option string :=
  match v with
  | VStr s => Some s
  | _ => None
  end.

(** ** Request body *)

(** A Fetch [Request].  Its URL is given by what [new URL(url, base)] makes
    of it: the path and the search parameters in the order of the query.
    [req_text] is what [request.text()] resolves to. *)
Record Request := mkRequest {
  req_pathname : string;
  req_searchParams : list (string * string);
  req_method : string;
  req_headers : gmap string string;
  req_text : string
}.

Definition SyntaxError : JsError :=
  {| err_name := "SyntaxError"; err_message := "Unexpected token in JSON";
     err_status := None; err_detail := None; err_additional := None |}.

(** The settlement of a promise whose value may lie outside the model:
    [None] when the host fulfils it with a value the model has no term
    for. *)
Definition Settled (A : Type) : Type := option (Result A).

(** [request.json()]: a text that is not JSON rejects with the
    [SyntaxError] of [JSON.parse] *)
Definition Request_json (request : Request) : Settled value :=
  if JSON_text (req_text request)
  then match JSON_parse (req_text request) with
       | Some v => Some (Return v)
       | None => None
       end
  else Some (Throw SyntaxError).

(** [request.text()] *)
Definition Request_text (request : Request) : Settled value :=
  Some (Return (VStr (req_text request))).

Definition parseRequestBody (request : Request) : Settled value :=
  if strict_eq (Headers_get (req_headers request) "content-length") (VStr "0")
     || (strict_eq (Headers_get (req_headers request) "transfer-encoding") VUndefined
         && strict_eq (Headers_get (req_headers request) "content-length") VUndefined)
  then Some (Return VNull)
  else if typeIs (string_or_undefined (Headers_get (req_headers request) "content-type"))
                 ["application/json"; "application/*+json"]
  then Request_json request
  else Request_text request.

(** ** Query parameters *)

(** A value of [IHttpNameValues]: one string, or the list of them. *)
Inductive NameValue :=
| One (s : string)
| Many (l : list string).

(** [URLSearchParams]: the name/value pairs in the order of the query *)
Definition URLSearchParams_keys (sp : list (string * string)) : list string :=
  map fst sp.

Definition URLSearchParams_getAll (sp : list (string * string)) (key : string)
  : list string :=
  map snd (List.filter (fun p => String.eqb (fst p) key) sp).

(** [values.length === 1 ? values[0] : values] *)
Definition scalar_or_list (values : list string) : NameValue :=
  match values with
  | [v] => One v
  | _ => Many values
  end.

(** [params[key] = v] on the object [params = {}]: every name but
    [__proto__] becomes (or stays) an own property.  For [__proto__] the
    assignment calls the setter of [Object.prototype], which makes no
    property: it ignores a string and takes an array as the new prototype
    of [params] (see [searchParamsPrototype]). *)
Definition assign_param (params : gmap string NameValue) (key : string)
  (v : NameValue) : gmap string NameValue :=
  if String.eqb key "__proto__" then params else <[key := v]> params.

(** the own properties of the object [searchParamsToNameValues] returns *)
Definition searchParamsToNameValues (searchParams : list (string * string))
  : gmap string NameValue :=
  fold_left
    (fun params key =>
       assign_param params key
         (scalar_or_list (URLSearchParams_getAll searchParams key)))
    (URLSearchParams_keys searchParams) ∅.

(** the prototype of that object: [None] for [Object.prototype], [Some l]
    for the array [l] an assignment to [__proto__] has put in its place *)
Definition searchParamsPrototype (searchParams : list (string * string))
  : option (list string) :=
  fold_left
    (fun proto key =>
       if String.eqb key "__proto__"
       then match scalar_or_list (URLSearchParams_getAll searchParams key) with
            | One _ => proto
            | Many l => Some l
            end
       else proto)
    (URLSearchParams_keys searchParams) None.

(** ** Violations *)

Inductive DiagnosticSeverity := Error | Warning | Information | Hint.

(** [DiagnosticSeverity[s]], the name of the enumeration member *)
Definition DiagnosticSeverity_name (s : DiagnosticSeverity) : string :=
  match s with
  | Error => "Error"
  | Warning => "Warning"
  | Information => "Information"
  | Hint => "Hint"
  end.

Record IPrismDiagnostic := mkDiagnostic {
  diag_path : option (list string);
  diag_severity : DiagnosticSeverity;
  diag_code : option (string + Z);
  diag_message : option string
}.

Definition createErrorObjectWithPrefix (locationPrefix : string)
  (detail : IPrismDiagnostic) : ValidationError :=
  {| location := [locationPrefix] ++ default [] (diag_path detail);
     severity := DiagnosticSeverity_name (diag_severity detail);
     code := diag_code detail;
     message := diag_message detail |}.

Definition option_value {A} (f : A -> value) (o : option A) : value :=
  match o with
  | Some a => f a
  | None => VUndefined
  end.

(** a [ValidationError] as the object [JSON.stringify] receives *)
Definition ValidationError_value (e : ValidationError) : value :=
  VObj [ ("location", VArr (map VStr (location e)));
         ("severity", VStr (severity e));
         ("code", option_value (fun c => match c with
                                         | inl s => VStr s
                                         | inr n => VNum n
                                         end) (code e));
         ("message", option_value VStr (message e)) ].

Definition MAX_SAFE_HEADER_LENGTH : nat := 8 * 1024 - 100.

(** [value.substring(0, n)] *)
Definition substring0 (n : nat) (s : string) : string := substring 0 n s.

(** The function updates [replyHeaders] in place; the model returns the
    updated map. *)
Definition addViolationHeader (replyHeaders : gmap string string)
  (validationErrors : list ValidationError) : Result (gmap string string) :=
  match validationErrors with
  | [] => Return replyHeaders
  | _ :: _ =>
      let value := default "" (JSON_stringify
                                 (VArr (map ValidationError_value validationErrors))) in
      let value :=
        if (MAX_SAFE_HEADER_LENGTH <? String.length value)%nat
        then "Too many violations! " +:+ substring0 MAX_SAFE_HEADER_LENGTH value
        else value in
      Headers_set replyHeaders "sl-violations" value
  end.

(** ** Problem details *)

Inductive Either (E A : Type) : Type :=
| Left (e : E)
| Right (a : A).
Arguments Left {E A} e.
Arguments Right {E A} a.

(** A problem template ([Omit<ProblemJson, 'detail'>] of
    [@stoplight/prism-http], a dependency that is not under src). *)
Record ProblemTemplate := mkTemplate {
  tpl_type : string;
  tpl_title : string;
  tpl_status : Z
}.

(** Modelled from the spec: a preference that does not decode is a 422
    error; the constant is imported from [@stoplight/prism-http]. *)
Definition UNPROCESSABLE_ENTITY : ProblemTemplate :=
  {| tpl_type := "UNPROCESSABLE_ENTITY"; tpl_title := "Invalid request";
     tpl_status := 422 |}.

(** Modelled from the spec: the failure of the strict mode; the constant is
    imported from [@stoplight/prism-http], where its status is 500. *)
Definition VIOLATIONS : ProblemTemplate :=
  {| tpl_type := "VIOLATIONS"; tpl_title := "Request/Response not valid";
     tpl_status := 500 |}.

(** Modelled from the spec: [ProblemJsonError.fromTemplate(template,
    detail, additional)] of [@stoplight/prism-http] makes the failure that
    carries the type, the title and the status of the template. *)
Definition fromTemplate (template : ProblemTemplate) (detail : Detail)
  (additional : option Additional) : JsError :=
  {| err_name := "https://stoplight.io/prism/errors#" +:+ tpl_type template;
     err_message := tpl_title template;
     err_status := Some (tpl_status template);
     err_detail := Some detail;
     err_additional := additional |}.

(** The body of a problem response; the members of [additional] are spread
    into it. *)
Record ProblemJson := mkProblemJson {
  pj_type : string;
  pj_title : string;
  pj_status : Z;
  pj_detail : Detail;
  pj_additional : option Additional
}.

(** [status || 500] *)
Definition status_or_500 (status : option Z) : Z :=
  match status with
  | Some s => if s =? 0 then 500 else s
  | None => 500
  end.

Definition startsWith (p s : string) : bool :=
  match strip_prefix p s with
  | Some _ => true
  | None => false
  end.

(** Modelled from the spec: [ProblemJsonError.toProblemJson(error)] of
    [@stoplight/prism-http], the problem-detail body of a failure, with the
    status of the failure or 500. *)
Definition toProblemJson (error : JsError) : ProblemJson :=
  {| pj_type := if negb (String.eqb (err_name error) "")
                   && startsWith "https" (err_name error)
                then err_name error
                else "https://stoplight.io/prism/errors#UNKNOWN";
     pj_title := err_message error;
     pj_status := status_or_500 (err_status error);
     pj_detail := match err_detail error with
                  | Some (DetailText "") | None => DetailText ""
                  | Some d => d
                  end;
     pj_additional := err_additional error |}.

(** ** Preferences *)

Definition BooleanFromString (s : string) : Either DecodeFailure bool :=
  if String.eqb s "true" then Right true
  else if String.eqb s "false" then Right false
  else Left (NotABoolean s).

(** [/^\d{3}$/.test(s)] *)
Definition three_digits (s : string) : bool :=
  match s with
  | String a (String b (String c EmptyString)) =>
      is_digit a && is_digit b && is_digit c
  | _ => false
  end.

(** the number a decimal digit stands for *)
Definition digit_value (c : ascii) : Z := Z.of_nat (nat_of_ascii c - 48).

Fixpoint parseInt_from (acc : Z) (s : string) : Z :=
  match s with
  | EmptyString => acc
  | String c r =>
      if is_digit c
      then parseInt_from (10 * acc + digit_value c) r
      else acc
  end.

(** [parseInt(s, 10)] for a string that starts with a decimal digit *)
Definition parseInt10 (s : string) : Z := parseInt_from 0 s.

Definition IntegerFromString (s : string) : Either DecodeFailure Z :=
  if three_digits s then Right (parseInt10 s) else Left (NotANumber s).

(** [pipe(D.string, next)] of io-ts: the value must be a string *)
Definition string_then {A} (next : string -> Either DecodeFailure A) (u : value)
  : Either DecodeFailure A :=
  match u with
  | VStr s => next s
  | _ => Left NotAString
  end.

(** [o[key]] on a dictionary *)
Definition prop (o : gmap string value) (key : string) : value :=
  default VUndefined (o !! key).

(** Modelled from the spec: absent fields stay absent.  One property of a
    [D.partial] of io-ts is not decoded when it is [undefined]. *)
Definition partial_property {A} (decode : value -> Either DecodeFailure A)
  (key : string) (i : gmap string value)
  : Either (list (string * DecodeFailure)) (option A) :=
  match prop i key with
  | VUndefined => Right None
  | u => match decode u with
         | Right a => Right (Some a)
         | Left e => Left [(key, e)]
         end
  end.

Record Parsed := mkParsed {
  parsed_code : option Z;
  parsed_dynamic : option bool;
  parsed_example : option string
}.

Definition failures {A} (r : Either (list (string * DecodeFailure)) A)
  : list (string * DecodeFailure) :=
  match r with
  | Left es => es
  | Right _ => []
  end.

(** [PreferencesDecoder.decode]: [D.partial] decodes every property and
    collects the failures. *)
Definition PreferencesDecoder (i : gmap string value)
  : Either (list (string * DecodeFailure)) Parsed :=
  let c := partial_property (string_then IntegerFromString) "code" i in
  let d := partial_property (string_then BooleanFromString) "dynamic" i in
  let e := partial_property (string_then (fun s => Right s)) "example" i in
  match c, d, e with
  | Right c', Right d', Right e' =>
      Right {| parsed_code := c'; parsed_dynamic := d'; parsed_example := e' |}
  | _, _, _ => Left (failures c ++ failures d ++ failures e)%list
  end.

Record RequestPreferences := mkPreferences {
  pref_code : option Z;
  pref_exampleKey : option string;
  pref_dynamic : option bool
}.

Definition NameValue_value (nv : NameValue) : value :=
  match nv with
  | One s => VStr s
  | Many l => VArr (map VStr l)
  end.

(** [query?.[key]] *)
Definition query_param (query : option (gmap string NameValue)) (key : string)
  : value :=
  match query with
  | Some q => option_value NameValue_value (q !! key)
  | None => VUndefined
  end.

Section Preferences.

(** The [parse-prefer-header] package: the tokens of a [Prefer] header as
    a dictionary. *)
Variable parsePreferHeader : string -> gmap string value.

(** the object the decoder receives *)
Definition preferences_of (headers : option (gmap string string))
  (query : option (gmap string NameValue)) : gmap string value :=
  match headers with
  | Some h =>
      if truthy_str (h !! "prefer")
      then parsePreferHeader (default "" (h !! "prefer"))
      else {[ "code" := query_param query "__code";
              "dynamic" := query_param query "__dynamic";
              "example" := query_param query "__example" ]}
  | None => {[ "code" := query_param query "__code";
               "dynamic" := query_param query "__dynamic";
               "example" := query_param query "__example" ]}
  end.

Definition getHttpConfigFromRequest (headers : option (gmap string string))
  (query : option (gmap string NameValue))
  : Either JsError RequestPreferences :=
  match PreferencesDecoder (preferences_of headers query) with
  | Left err => Left (fromTemplate UNPROCESSABLE_ENTITY (DetailDraw err) None)
  | Right parsed =>
      Right {| pref_code := parsed_code parsed;
               pref_exampleKey := parsed_example parsed;
               pref_dynamic := parsed_dynamic parsed |}
  end.

End Preferences.

(** ** Configuration objects and their merge

    The baseline configuration is one object shared by every request, and
    its [mock] member is a second object.  To tell a copy from an update in
    place, objects live in a store and are named by their location. *)

(** the members of an [IHttpOperationConfig] are primitive values *)
Inductive prim :=
| PUndefined
| PBool (b : bool)
| PNum (n : Z)
| PStr (s : string).

Definition prim_eq (a b : prim) : bool :=
  match a, b with
  | PUndefined, PUndefined => true
  | PBool x, PBool y => Bool.eqb x y
  | PNum x, PNum y => x =? y
  | PStr x, PStr y => String.eqb x y
  | _, _ => false
  end.

Record IHttpConfig := mkConfig {
  checkSecurity : bool;
  validateRequest : bool;
  validateResponse : bool;
  mock : positive;
  errors : bool;
  upstreamProxy : option string;
  isProxy : bool
}.

Inductive cell :=
| ConfigObject (c : IHttpConfig)
| Dictionary (d : gmap string prim).

(** A computation on the store that may get stuck (on a location that holds
    no object of the expected kind). *)
Definition Store (A : Type) : Type :=
  gmap positive cell -> option (A * gmap positive cell).

Definition ret {A} (a : A) : Store A := fun σ => Some (a, σ).

Definition bindS {A B} (m : Store A) (k : A -> Store B) : Store B :=
  fun σ => match m σ with
           | Some (a, σ') => k a σ'
           | None => None
           end.

Notation "'do' x '<-' m ';' k" := (bindS m (fun x => k))
  (at level 10, x name, m at level 100, k at level 200).

(** a new object at a location not in use *)
Definition alloc (c : cell) : Store positive :=
  fun σ => let l := fresh (dom σ) in Some (l, <[l := c]> σ).

Definition read_config (l : positive) : Store IHttpConfig :=
  fun σ => match σ !! l with
           | Some (ConfigObject c) => Some (c, σ)
           | _ => None
           end.

Definition read_dictionary (l : positive) : Store (gmap string prim) :=
  fun σ => match σ !! l with
           | Some (Dictionary d) => Some (d, σ)
           | _ => None
           end.

Definition write (l : positive) (c : cell) : Store unit :=
  fun σ => Some (tt, <[l := c]> σ).

(** lodash [assignMergeValue(object, key, value)]: a defined value
    replaces a different one; [undefined] only fills a missing key *)
Definition assignMergeValue (object : gmap string prim) (key : string)
  (v : prim) : gmap string prim :=
  match v with
  | PUndefined =>
      match object !! key with
      | None => <[key := v]> object
      | Some _ => object
      end
  | _ =>
      if prim_eq (default PUndefined (object !! key)) v then object
      else <[key := v]> object
  end.

(** lodash [_.merge(object, source)] on dictionaries of primitive values:
    [object] is updated in place *)
Definition lodash_merge (object source : positive) : Store unit :=
  do d <- read_dictionary object;
  do s <- read_dictionary source;
  write object
    (Dictionary (map_fold (fun key v acc => assignMergeValue acc key v) d s)).

(** lodash/fp [merge(a, b)] (the package wraps [_.merge] with a cloner):
    the first argument is cloned by a merge into a new empty object, and
    the second is merged into the clone *)
Definition merge (a b : positive) : Store positive :=
  do clone <- alloc (Dictionary ∅);
  do _ <- lodash_merge clone a;
  do _ <- lodash_merge clone b;
  ret clone.

(** the object [{ code, exampleKey, dynamic }] of the preferences *)
Definition preferences_object (p : RequestPreferences) : gmap string prim :=
  {[ "code" := match pref_code p with Some n => PNum n | None => PUndefined end;
     "exampleKey" := match pref_exampleKey p with
                     | Some s => PStr s
                     | None => PUndefined
                     end;
     "dynamic" := match pref_dynamic p with
                  | Some b => PBool b
                  | None => PUndefined
                  end ]}.

(** [{ ...config, mock: merge(config.mock, operationSpecificConfig) }] *)
Definition requestConfig (config : positive)
  (operationSpecificConfig : RequestPreferences) : Store positive :=
  do prefs <- alloc (Dictionary (preferences_object operationSpecificConfig));
  do c <- read_config config;
  do m <- merge (mock c) prefs;
  alloc (ConfigObject
           {| checkSecurity := checkSecurity c;
              validateRequest := validateRequest c;
              validateResponse := validateResponse c;
              mock := m;
              errors := errors c;
              upstreamProxy := upstreamProxy c;
              isProxy := isProxy c |}).

(** what a reader of the baseline sees: the configuration object and the
    object its [mock] member names *)
Definition observe (config : positive) (σ : gmap positive cell)
  : option (IHttpConfig * option cell) :=
  match σ !! config with
  | Some (ConfigObject c) => Some (c, σ !! mock c)
  | _ => None
  end.

(** ** The response *)

Record IHttpResponse := mkHttpResponse {
  statusCode : Z;
  out_headers : option (list (string * string));
  out_body : value
}.

Record IPrismOutput := mkPrismOutput {
  output : IHttpResponse;
  validations_input : list IPrismDiagnostic;
  validations_output : list IPrismDiagnostic
}.

Inductive ResponseBody :=
| BodyOf (s : Serialized)
| BodyJson (p : ProblemJson).

(** A Fetch [Response]. *)
Record Response := mkResponse {
  res_status : Z;
  res_headers : gmap string string;
  res_body : ResponseBody
}.

(** The host of the Fetch API.  A browser enforces the forbidden
    response-header names of the Fetch standard (Set-Cookie and
    Set-Cookie2): a response made by a script does not carry them.  Other
    hosts (Node) keep them. *)
Class Host := { forbids_response_headers : bool }.

(** the headers of [init.headers] that a new response takes *)
Definition response_header_list `{Host} (headers : gmap string string)
  : gmap string string :=
  if forbids_response_headers
  then delete "set-cookie2" (delete "set-cookie" headers)
  else headers.

(** the conversion of a number to the WebIDL type [unsigned short] *)
Definition unsigned_short (n : Z) : Z := n mod 65536.

(** the statuses of a response that has no body *)
Definition is_null_body_status (status : Z) : bool :=
  existsb (Z.eqb status) [101; 103; 204; 205; 304].

(** Fetch "initialize a response": the status must lie between 200 and
    599; a body ([body_type] is the content type it comes with) is
    refused under a null-body status, and brings its content type when the
    headers have none. *)
Definition initialize_response `{Host} (body : ResponseBody)
  (body_type : option string) (headers : gmap string string) (status : Z)
  : Result Response :=
  let status := unsigned_short status in
  if negb ((200 <=? status) && (status <=? 599))
  then Throw (RangeError "The status is outside the range 200 to 599")
  else
    let headers := response_header_list headers in
    match body_type with
    | None => Return {| res_status := status; res_headers := headers;
                        res_body := body |}
    | Some type =>
        if is_null_body_status status
        then Throw (TypeError "A response with a null body status has no body")
        else Return {| res_status := status;
                       res_headers :=
                         match headers !! "content-type" with
                         | Some _ => headers
                         | None => <["content-type" := type]> headers
                         end;
                       res_body := body |}
    end.

(** [undefined] and [null] are no body; [serialize] returns a string
    otherwise *)
Definition has_body (body : Serialized) : bool :=
  match body with
  | SValue VUndefined | SValue VNull => false
  | _ => true
  end.

(** [new Response(body, { headers, status })] *)
Definition new_Response `{Host} (body : Serialized) (headers : gmap string string)
  (status : Z) : Result Response :=
  initialize_response (BodyOf body)
    (if has_body body then Some "text/plain;charset=UTF-8" else None)
    headers status.

(** [Response.json(data, { status, headers })] *)
Definition Response_json `{Host} (data : ProblemJson) (headers : gmap string string)
  (status : Z) : Result Response :=
  initialize_response (BodyJson data) (Some "application/json") headers status.

Definition strict_message : string :=
  "Your request/response is not valid and the --errors flag is set, so Prism is generating this error for you.".

(** The callback of [TE.chainIOEitherK]: from the engine's output to the
    response, or to the failure of the strict mode.  A [Throw] is an
    exception that leaves the callback.  (The calls of the logger are in
    [synthesize_log].) *)
Definition synthesize `{Host} (config : IHttpConfig) (response : IPrismOutput)
  : Result (Either JsError Response) :=
  let! headers := new_Headers (default [] (out_headers (output response))) in
  let inputValidationErrors :=
    map (createErrorObjectWithPrefix "request") (validations_input response) in
  let outputValidationErrors :=
    map (createErrorObjectWithPrefix "response") (validations_output response) in
  let inputOutputValidationErrors :=
    (inputValidationErrors ++ outputValidationErrors)%list in
  let! headers :=
    if (0 <? length inputOutputValidationErrors)%nat
    then addViolationHeader headers inputOutputValidationErrors
    else Return headers in
  let errorViolations :=
    List.filter (fun v => String.eqb (severity v) (DiagnosticSeverity_name Error))
                outputValidationErrors in
  if (0 <? length inputOutputValidationErrors)%nat
     && errors config && (0 <? length errorViolations)%nat
  then Return (Left (fromTemplate VIOLATIONS (DetailText strict_message)
                       (Some {| add_headers := None;
                                add_validation := Some errorViolations |})))
  else
    let! body := serialize (out_body (output response))
                   (string_or_undefined (Headers_get headers "content-type")) in
    let! res := new_Response body headers (statusCode (output response)) in
    Return (Right res).

(** the headers a failure carries in [additional.headers] *)
Definition additional_headers (e : JsError) : list (string * string) :=
  match err_additional e with
  | Some a => default [] (add_headers a)
  | None => []
  end.

(** the entries of [l] set on [h], in order *)
Fixpoint Headers_set_all (l : list (string * string)) (h : gmap string string)
  : Result (gmap string string) :=
  match l with
  | [] => Return h
  | (name, v) :: r =>
      let! h' := Headers_set h name v in
      Headers_set_all r h'
  end.

(** the headers of the problem response of a failure *)
Definition errorResponse_headers (e : JsError) : Result (gmap string string) :=
  let! headers := Headers_set ∅ "content-type" "application/problem+json" in
  Headers_set_all (additional_headers e) headers.

(** The handler of [TE.orElse]: the problem response of a failure.  A
    [Throw] is an exception that leaves the handler. *)
Definition errorResponse `{Host} (e : JsError) : Result Response :=
  let! headers := errorResponse_headers e in
  Response_json (toProblemJson e) headers (status_or_500 (err_status e)).

(** The pipeline from the settlement of the engine's task on.  fp-ts
    catches nothing: [TE.orElse] handles the [Left] values only, and an
    exception thrown inside a callback rejects the promise that [fetch]
    returns. *)
Definition respond `{Host} (config : IHttpConfig)
  (engine : Result (Either JsError IPrismOutput)) : Result Response :=
  let! r := engine in
  match r with
  | Left e => errorResponse e
  | Right response =>
      let! s := synthesize config response in
      match s with
      | Left e => errorResponse e
      | Right res => Return res
      end
  end.

(** the diagnostics of severity [Error] and their entries *)
Definition is_error (d : IPrismDiagnostic) : bool :=
  match diag_severity d with
  | Error => true
  | _ => false
  end.

Definition errorViolations_of (response : IPrismOutput) : list ValidationError :=
  map (createErrorObjectWithPrefix "response")
      (List.filter is_error (validations_output response)).

(** the failure of the strict mode *)
Definition violations_failure (errorViolations : list ValidationError) : JsError :=
  fromTemplate VIOLATIONS (DetailText strict_message)
    (Some {| add_headers := None; add_validation := Some errorViolations |}).

(** the dictionary lodash/fp [merge] builds from the dictionaries [a], [b] *)
Definition merged (a b : gmap string prim) : gmap string prim :=
  map_fold (fun key v acc => assignMergeValue acc key v)
    (map_fold (fun key v acc => assignMergeValue acc key v) ∅ a) b.

Definition with_mock (c : IHttpConfig) (m : positive) : IHttpConfig :=
  {| checkSecurity := checkSecurity c;
     validateRequest := validateRequest c;
     validateResponse := validateResponse c;
     mock := m;
     errors := errors c;
     upstreamProxy := upstreamProxy c;
     isProxy := isProxy c |}.

(** ** The request handler *)

(** [url_query] holds the own properties of the query object and
    [url_query_prototype] its prototype (see [searchParamsPrototype]). *)
Record IHttpUrl := mkUrl {
  url_path : string;
  url_baseUrl : option string;
  url_query : gmap string NameValue;
  url_query_prototype : option (list string)
}.

(** the request the engine receives *)
Record IHttpRequest := mkHttpRequest {
  in_method : string;
  in_url : IHttpUrl;
  in_headers : gmap string string;
  in_body : value
}.

(** [searchParams.get(name)]: the first value, or [null] *)
Definition URLSearchParams_get (sp : list (string * string)) (name : string)
  : option string :=
  head (URLSearchParams_getAll sp name).

(** the normalized request of a transport request and its parsed body *)
Definition normalize (request : Request) (body : value) : IHttpRequest :=
  {| in_method := if truthy_str (Some (req_method request))
                  then toLowerCase (req_method request)
                  else "get";
     in_url :=
       {| url_path := req_pathname request;
          url_baseUrl :=
            match URLSearchParams_get (req_searchParams request) "__server" with
            | Some v => if truthy_str (Some v) then Some v else None
            | None => None
            end;
          url_query := searchParamsToNameValues (req_searchParams request);
          url_query_prototype :=
            searchParamsPrototype (req_searchParams request) |};
     in_headers := req_headers request;
     in_body := body |}.

Section Fetch.

Context `{Host}.

(** The [parse-prefer-header] package. *)
Variable parsePreferHeader : string -> gmap string value.

(** The engine, [prism.request(input, operations, requestConfig)] for the
    operations of the server: a task that settles with a failure or with
    an output.  It is given the location of the configuration object of
    the request; the instance holds the baseline object, so the engine is
    a computation on the store, which it may read and update. *)
Variable prism_request :
  IHttpRequest -> positive -> Store (Result (Either JsError IPrismOutput)).

(** [fetch] of [createServer], for the baseline configuration at the
    location [config].  The body is parsed before the pipeline starts: a
    rejection of [parseRequestBody] is a rejection of [fetch].  The
    callback of the pipeline reads [opts.config.errors] when it runs,
    after the engine. *)
Definition fetch (config : positive) (request : Request)
  : Store (Result Response) :=
  match parseRequestBody request with
  | None => fun _ => None
  | Some (Throw e) => ret (Throw e)
  | Some (Return body) =>
      let input := normalize request body in
      match getHttpConfigFromRequest parsePreferHeader
              (Some (in_headers input)) (Some (url_query (in_url input))) with
      | Left e => ret (errorResponse e)
      | Right operationSpecificConfig =>
          do merged_config <- requestConfig config operationSpecificConfig;
          do settled <- prism_request input merged_config;
          do baseline <- read_config config;
          ret (respond baseline settled)
      end
  end.

End Fetch.

(** ** Measures for the parser *)

(** a text that cannot continue a numeral *)
Definition number_end (rest : string) : bool :=
  match rest with
  | EmptyString => true
  | String c _ =>
      negb (is_digit c) && negb (existsb (Ascii.eqb c) ["."; "e"; "E"]%char)
  end.

(** the fuel [parse_value] needs to read the encoding of a value *)
Fixpoint fuel_needed (v : value) : nat :=
  match v with
  | VArr xs =>
      S ((fix elems (l : list value) : nat :=
            match l with
            | [] => O
            | x :: r => S (fuel_needed x + elems r)
            end) xs)
  | VObj ps =>
      S ((fix members (l : list (string * value)) : nat :=
            match l with
            | [] => O
            | (_, x) :: r => S (fuel_needed x + members r)
            end) ps)
  | _ => 1%nat
  end.

(** the encodings of the elements of an array *)
Fixpoint stringify_elems (l : list value) : list string :=
  match l with
  | [] => []
  | x :: r => default "null" (JSON_stringify x) :: stringify_elems r
  end.

(** the encodings of the members of an object *)
Fixpoint stringify_members (l : list (string * value)) : list string :=
  match l with
  | [] => []
  | (k, x) :: r =>
      match JSON_stringify x with
      | Some s => (quote k +:+ ":" +:+ s) :: stringify_members r
      | None => stringify_members r
      end
  end.

Fixpoint fuel_elems (l : list value) : nat :=
  match l with
  | [] => O
  | x :: r => S (fuel_needed x + fuel_elems r)
  end.

Fixpoint fuel_members (l : list (string * value)) : nat :=
  match l with
  | [] => O
  | (_, x) :: r => S (fuel_needed x + fuel_members r)
  end.

Fixpoint json_safe_members (l : list (string * value)) : bool :=
  match l with
  | [] => true
  | (_, x) :: r => json_safe x && json_safe_members r
  end.

(** a text that starts like the encoding of a value: no white space, no
    closing bracket *)
Definition starts_value (s : string) : bool :=
  match s with
  | EmptyString => false
  | String c _ => negb (is_ws c) && negb (Ascii.eqb c "]") && negb (Ascii.eqb c "}")
  end.

(** the encoding of [v], followed by any text that ends a numeral, is read
    back as [v] with enough fuel *)
Definition reads_back (v : value) : Prop :=
  json_safe v = true ->
  exists s,
    JSON_stringify v = Some s /\
    (fuel_needed v <= String.length s)%nat /\
    starts_value s = true /\
    forall fuel rest,
      (fuel_needed v <= fuel)%nat -> number_end rest = true ->
      parse_value fuel (s +:+ rest) = Some (v, rest).

(** ** The logger

    The calls of the logger are effects beside the result: they are
    modelled by the list of the entries a step writes, in order. *)










(** ** Measures for the header *)

Fixpoint last_char (s : string) : option ascii :=
  match s with
  | EmptyString => None
  | String c EmptyString => Some c
  | String _ r => last_char r
  end.

(** the value [addViolationHeader] hands to [replyHeaders.set] *)
Definition violations_value (validationErrors : list ValidationError) : string :=
  let value := default "" (JSON_stringify
                             (VArr (map ValidationError_value validationErrors))) in
  if (MAX_SAFE_HEADER_LENGTH <? String.length value)%nat
  then "Too many violations! " +:+ substring0 MAX_SAFE_HEADER_LENGTH value
  else value.

(** the reply headers after [addViolationHeader] *)
Definition reply_headers (replyHeaders : gmap string string)
  (validationErrors : list ValidationError) : gmap string string :=
  match validationErrors with
  | [] => replyHeaders
  | _ :: _ =>
      <["sl-violations" := normalize_value (violations_value validationErrors)]>
        replyHeaders
  end.

(** the violations of an engine result, those of the request first *)
Definition violations_of (response : IPrismOutput) : list ValidationError :=
  (map (createErrorObjectWithPrefix "request") (validations_input response)
   ++ map (createErrorObjectWithPrefix "response") (validations_output response))%list.

(** no character below the space (the codes 0 to 31, among them NUL, the
    line feed and the carriage return); the character DEL and the codes
    above it pass *)
Definition above_controls (s : string) : bool :=
  all_chars (fun c => (32 <=? nat_of_ascii c)%nat) s.

(** the members a merge gives to the key [k], from the member of the
    baseline and the member of the preferences *)
Definition merged_member (baseline preference : option prim) : option prim :=
  match preference with
  | None => baseline
  | Some PUndefined =>
      match baseline with
      | Some x => Some x
      | None => Some PUndefined
      end
  | Some v => Some v
  end.



(** ** Measures for the recognizer *)

(** the states that pass over white space *)
Definition skips_ws (state : Lexer) : Prop :=
  forall stack c, is_ws c = true -> step state stack c = Some (state, stack).

(** the states from which a numeral without sign may start *)
Definition starts_digits (state : Lexer) : Prop :=
  forall stack c, is_digit c = true ->
    step state stack c =
      Some (if Ascii.eqb c "0" then NumZero else NumInt, stack).


(** ** Sample inputs *)

(** the host of the samples: a browser *)
#[global] Instance browser : Host := {| forbids_response_headers := true |}.

(** an engine output without headers and without violations *)
Definition plain_output (body : value) : IPrismOutput :=
  {| output := {| statusCode := 200; out_headers := None; out_body := body |};
     validations_input := []; validations_output := [] |}.

(** the configuration of main.ts, whose [mock] object is at location 2 *)
Definition lenient : IHttpConfig :=
  {| checkSecurity := true; validateRequest := true; validateResponse := true;
     mock := 2%positive; errors := false; upstreamProxy := None;
     isProxy := false |}.


(** a GET request without headers and without body *)
Definition bare_request : Request :=
  {| req_pathname := "/pets"; req_searchParams := []; req_method := "GET";
     req_headers := ∅; req_text := "" |}.




(** a [parse-prefer-header] that finds no token *)
Definition no_tokens (header : string) : gmap string value := ∅.

(** the query [__code=200&__dynamic=maybe] *)
Definition query_code_200_dynamic_maybe : option (gmap string NameValue) :=
  Some {[ "__code" := One "200"; "__dynamic" := One "maybe" ]}.

(** the queries [__code=200] and [__code=20] *)
Definition query_code_200 : option (gmap string NameValue) :=
  Some {[ "__code" := One "200" ]}.

Definition query_code_20 : option (gmap string NameValue) :=
  Some {[ "__code" := One "20" ]}.

(** the store of main.ts: the configuration at location 1 and its [mock]
    object [{ dynamic: false }] at location 2 *)
Definition main_store : gmap positive cell :=
  {[ 1%positive := ConfigObject lenient;
     2%positive := Dictionary {[ "dynamic" := PBool false ]} ]}.

Definition prefer_code_200 : RequestPreferences :=
  {| pref_code := Some 200; pref_exampleKey := None; pref_dynamic := None |}.





(** a request that announces an empty body *)
Definition empty_post : Request :=
  {| req_pathname := "/pets"; req_searchParams := []; req_method := "POST";
     req_headers := {[ "content-length" := "0";
                       "content-type" := "application/json" ]};
     req_text := "" |}.

(** an engine output whose body is an object under [text/plain] *)
Definition text_output : IPrismOutput :=
  {| output := {| statusCode := 200;
                  out_headers := Some [("content-type", "text/plain")];
                  out_body := VObj [("a", VNum 1)] |};
     validations_input := []; validations_output := [] |}.

(** the request [GET /pets?__code=20] *)
Definition request_code_20 : Request :=
  {| req_pathname := "/pets"; req_searchParams := [("__code", "20")];
     req_method := "GET"; req_headers := ∅; req_text := "" |}.

(** an engine that fails with the status 404 and leaves the store alone *)
Definition engine_not_found (input : IHttpRequest) (requestConfig : positive)
  : Store (Result (Either JsError IPrismOutput)) :=
  ret (Return (Left (fromTemplate {| tpl_type := "NO_PATH_MATCHED_ERROR";
                                     tpl_title := "Route not resolved";
                                     tpl_status := 404 |}
                                  (DetailText "") None))).

(** the headers [Prefer: code=404] of a request, and a parser that reads
    them *)
Definition prefer_headers : gmap string string := {[ "prefer" := "code=404" ]}.

Definition parse_code_404 (header : string) : gmap string value :=
  if String.eqb header "code=404" then {[ "code" := VStr "404" ]} else ∅.

(** the query [__dynamic=true&__example=cat] *)
Definition query_dynamic_example : option (gmap string NameValue) :=
  Some {[ "__dynamic" := One "true"; "__example" := One "cat" ]}.

(** the query [__dynamic=true] *)
Definition query_dynamic_true : option (gmap string NameValue) :=
  Some {[ "__dynamic" := One "true" ]}.

(** the query [__dynamic=yes] *)
Definition query_dynamic_yes : option (gmap string NameValue) :=
  Some {[ "__dynamic" := One "yes" ]}.

(** a request violation whose message has a line break *)
Definition multiline_violations : list ValidationError :=
  [ {| location := ["request"; "body"]; severity := "Warning"; code := None;
       message := Some (String (ascii_of_nat 13) (String (ascii_of_nat 10)
                          "Set-Cookie: a=b")) |} ].


(** a POST whose body is not JSON although its content type says so *)
Definition malformed_json_post : Request :=
  {| req_pathname := "/pets"; req_searchParams := []; req_method := "POST";
     req_headers := {[ "content-type" := "application/json";
                       "content-length" := "1" ]};
     req_text := "{" |}.

(** a POST of the JSON text of [{ a: 1 }] *)
Definition json_post : Request :=
  {| req_pathname := "/pets"; req_searchParams := []; req_method := "POST";
     req_headers := {[ "content-type" := "application/json";
                       "content-length" := "7" ]};
     req_text := "{" +:+ quote "a" +:+ ":1}" |}.

(** the request [GET /pets?__server=http://x&__server=y&tag=a] *)
Definition request_with_server : Request :=
  {| req_pathname := "/pets";
     req_searchParams := [("__server", "http://x"); ("tag", "a"); ("__server", "y")];
     req_method := ""; req_headers := ∅; req_text := "" |}.






(** * Properties *)

(** ** Media types *)

Example typeIs_json : typeIs (Some "application/json; charset=utf-8")
                        ["application/json"; "application/*+json"] = true.
Proof. reflexivity. Qed.
Example typeIs_problem_json : typeIs (Some "Application/Problem+JSON")
                        ["application/json"; "application/*+json"] = true.
Proof. reflexivity. Qed.
Example typeIs_text : typeIs (Some "text/plain") ["text/*"] = true.
Proof. reflexivity. Qed.
Example typeIs_text_not_json : typeIs (Some "text/json")
                        ["application/json"; "application/*+json"] = false.
Proof. reflexivity. Qed.
Example typeIs_absent : typeIs None ["text/*"] = false.
Proof. reflexivity. Qed.

Lemma normalizeType_truthy (ct : string) (m : string * string) :
  normalizeType (Some ct) = Some m -> truthy_str (Some ct) = true.
Proof.
  destruct ct as [|c r]; [discriminate | reflexivity].
Qed.

Lemma typeIs_truthy (ct : string) (types : list string) :
  typeIs (Some ct) types = true -> truthy_str (Some ct) = true.
Proof.
  unfold typeIs. destruct (normalizeType (Some ct)) eqn:E; [|discriminate].
  intros _. eapply normalizeType_truthy, E.
Qed.

(** [mimeMatch] on the patterns the adapter uses. *)
Lemma mimeMatch_text (t st : string) :
  mimeMatch "text/*" (t, st) = String.eqb "text" t.
Proof.
  unfold mimeMatch. set (x := split_on "/" "text/*"). vm_compute in x. subst x.
  cbv beta iota. cbn [fst snd].
  change (String.eqb "text" "*") with false.
  change (String.eqb "*" "*") with true.
  cbn [orb]. apply andb_true_r.
Qed.

Lemma mimeMatch_exact (sub t st : string) :
  split_on "/" ("application/" +:+ sub) = ["application"; sub] ->
  mimeMatch ("application/" +:+ sub) (t, st) = true ->
  t = "application".
Proof.
  intros Hs. unfold mimeMatch. rewrite Hs. cbn [fst snd].
  change (String.eqb "application" "*") with false. cbn [orb].
  intros H. apply andb_true_iff in H as [H _].
  apply String.eqb_eq in H. now subst.
Qed.

(** A content type of the text family has the type [text]. *)
Lemma typeIs_text_inv (ct : string) :
  typeIs (Some ct) ["text/*"] = true ->
  exists st, normalizeType (Some ct) = Some ("text", st).
Proof.
  unfold typeIs. destruct (normalizeType (Some ct)) as [[t st]|]; [|discriminate].
  cbn [existsb]. rewrite mimeMatch_text, orb_false_r. intros H.
  apply String.eqb_eq in H. subst t. now exists st.
Qed.

(** A content type of the JSON family has the type [application]. *)
Lemma typeIs_json_inv (ct : string) :
  typeIs (Some ct) ["application/json"; "application/*+json"] = true ->
  exists st, normalizeType (Some ct) = Some ("application", st).
Proof.
  unfold typeIs. destruct (normalizeType (Some ct)) as [[t st]|]; [|discriminate].
  cbn [existsb]. rewrite orb_false_r. intros H.
  apply orb_true_iff in H as [H|H];
    [apply (mimeMatch_exact "json" t st eq_refl) in H
    |apply (mimeMatch_exact "*+json" t st eq_refl) in H]; subst t; now exists st.
Qed.

Lemma typeIs_application_text (sub1 sub2 st : string) :
  split_on "/" ("application/" +:+ sub1) = ["application"; sub1] ->
  split_on "/" ("application/" +:+ sub2) = ["application"; sub2] ->
  existsb (fun t => mimeMatch t ("text", st))
          ["application/" +:+ sub1; "application/" +:+ sub2] = false.
Proof.
  intros H1 H2. cbn [existsb]. rewrite orb_false_r.
  destruct (mimeMatch ("application/" +:+ sub1) ("text", st)) eqn:E1.
  { apply (mimeMatch_exact _ _ _ H1) in E1. discriminate. }
  destruct (mimeMatch ("application/" +:+ sub2) ("text", st)) eqn:E2.
  { apply (mimeMatch_exact _ _ _ H2) in E2. discriminate. }
  reflexivity.
Qed.

Lemma text_is_not_json (st : string) :
  existsb (fun t => mimeMatch t ("text", st))
          ["application/json"; "application/*+json"] = false.
Proof. exact (typeIs_application_text "json" "*+json" st eq_refl eq_refl). Qed.

Lemma text_is_not_xml (st : string) :
  existsb (fun t => mimeMatch t ("text", st))
          ["application/xml"; "application/*+xml"] = false.
Proof. exact (typeIs_application_text "xml" "*+xml" st eq_refl eq_refl). Qed.

(** The text family is disjoint from the JSON and XML families, so the
    search through [serializers] reaches the third entry. *)
Lemma find_text_serializer (ct : string) :
  typeIs (Some ct) ["text/*"] = true ->
  exists s, List.find (fun s => test s ct) serializers = Some s /\
            forall data, serializer s data =
              if existsb (String.eqb (typeof data)) ["string"; "undefined"]
              then Return (SValue data) else Throw NO_COMPLEX_OBJECT_TEXT.
Proof.
  intros H. destruct (typeIs_text_inv ct H) as [st Hn].
  assert (typeIs (Some ct) ["application/json"; "application/*+json"] = false) as Hj.
  { unfold typeIs. rewrite Hn. apply text_is_not_json. }
  assert (typeIs (Some ct) ["application/xml"; "application/*+xml"] = false) as Hx.
  { unfold typeIs. rewrite Hn. apply text_is_not_xml. }
  unfold serializers. cbn [List.find test].
  rewrite Hj, Hx, H. eexists. split; [reflexivity|]. reflexivity.
Qed.

Lemma find_json_serializer (ct : string) :
  typeIs (Some ct) ["application/json"; "application/*+json"] = true ->
  exists s, List.find (fun s => test s ct) serializers = Some s /\
            forall data, serializer s data =
              Return (SValue (match JSON_stringify data with
                              | Some s => VStr s
                              | None => VUndefined
                              end)).
Proof.
  intros H. unfold serializers. cbn [List.find test]. rewrite H.
  eexists. split; reflexivity.
Qed.

(** ** Serialization under a text content type *)

(** C7. Under a content type of the text family, a body that is a string or
    absent ([undefined]) is returned unchanged; any other body makes
    [serialize] throw the error tagged NO_COMPLEX_OBJECT_TEXT, whose status
    is 500. *)
Theorem serialize_text (data : value) (ct : string) :
  typeIs (Some ct) ["text/*"] = true ->
  match data with
  | VStr _ | VUndefined => serialize data (Some ct) = Return (SValue data)
  | _ =>
      serialize data (Some ct) = Throw NO_COMPLEX_OBJECT_TEXT /\
      err_status NO_COMPLEX_OBJECT_TEXT = Some 500 /\
      err_name NO_COMPLEX_OBJECT_TEXT =
        "https://stoplight.io/prism/errors#NO_COMPLEX_OBJECT_TEXT"
  end.
Proof.
  intros H.
  assert (serialize data (Some ct) =
            if existsb (String.eqb (typeof data)) ["string"; "undefined"]
            then Return (SValue data) else Throw NO_COMPLEX_OBJECT_TEXT) as E.
  { unfold serialize. rewrite (typeIs_truthy _ _ H). cbn [negb andb].
    destruct (find_text_serializer ct H) as (s & -> & Hs). apply Hs. }
  rewrite E. destruct data; cbn; auto.
Qed.

Lemma serialize_text_witness :
  typeIs (Some "text/plain") ["text/*"] = true /\
  serialize (VStr "hello") (Some "text/plain") = Return (SValue (VStr "hello")) /\
  serialize (VObj [("a", VNum 1)]) (Some "text/plain") = Throw NO_COMPLEX_OBJECT_TEXT.
Proof.
  split; [reflexivity|]. split.
  - exact (serialize_text (VStr "hello") "text/plain" eq_refl).
  - exact (proj1 (serialize_text (VObj [("a", VNum 1)]) "text/plain" eq_refl)).
Defined.

(** ** Serialization without a content type *)

(** Without a content type an empty string is not passed through, and an
    exception of [serialize] is not turned into a problem response. *)
Lemma serialize_empty_string_dropped :
  serialize (VStr "") None = Return (SValue VUndefined) /\
  serialize (VStr "") None <> Return (SValue (VStr "")) /\
  respond lenient (Return (Right (plain_output (VObj [("a", VNum 1)])))) =
    Throw (new_Error "Cannot find serializer for undefined").
Proof.
  split; [reflexivity|]. split; [discriminate|]. reflexivity.
Qed.

(** C10 (amended). Without a content type, a truthy body that is not a
    string makes [serialize] throw the plain error "Cannot find serializer
    for undefined", which has no status; a non-empty string is returned
    unchanged; an empty string, like every other falsy body, gives
    [undefined] (no body). *)
Theorem serialize_without_content_type (payload : value) :
  match payload with
  | VStr s =>
      serialize payload None =
        Return (SValue (if String.eqb s "" then VUndefined else VStr s))
  | _ =>
      if truthy payload
      then serialize payload None =
             Throw (new_Error "Cannot find serializer for undefined") /\
           err_status (new_Error "Cannot find serializer for undefined") = None
      else serialize payload None = Return (SValue VUndefined)
  end.
Proof.
  destruct payload as [| |b|n|s|xs|ps]; unfold serialize; cbn [truthy_str truthy negb andb].
  - reflexivity.
  - reflexivity.
  - destruct b; cbn; auto.
  - destruct (n =? 0); cbn; auto.
  - destruct (String.eqb s ""); reflexivity.
  - cbn; auto.
  - cbn; auto.
Qed.

(** An exception of [serialize] leaves the pipeline as it is: the promise
    of [fetch] rejects and no problem response is made of it. *)
Lemma respond_serialize_throw {host : Host} (config : IHttpConfig) (response : IPrismOutput)
  (e : JsError) :
  synthesize config response = Throw e ->
  respond config (Return (Right response)) = Throw e.
Proof. intros H. unfold respond. cbn [bindR]. rewrite H. reflexivity. Qed.

(** ** Serialization: the other content types *)

Lemma drop_string_last (n : nat) (s : string) :
  (n < String.length s)%nat -> last_char (drop_string n s) = last_char s.
Proof.
  revert s. induction n as [|n IH]; intros s Hn; [reflexivity|].
  destruct s as [|c r]; [cbn in Hn; lia|].
  cbn [drop_string]. cbn [String.length] in Hn. rewrite IH by lia.
  destruct r as [|c' r']; [cbn in Hn; lia | reflexivity].
Qed.

Lemma ends_with_last (suffix actual : string) :
  suffix <> EmptyString ->
  ends_with suffix actual = true -> last_char actual = last_char suffix.
Proof.
  intros Hne H. unfold ends_with in H. apply andb_true_iff in H as [Hl He].
  apply Nat.leb_le in Hl. apply String.eqb_eq in He.
  rewrite <- He. symmetry. apply drop_string_last.
  destruct suffix; [contradiction|]. cbn [String.length] in *. lia.
Qed.

(** A content type of the XML family is not of the JSON family. *)
Lemma xml_is_not_json (ct : string) :
  typeIs (Some ct) ["application/xml"; "application/*+xml"] = true ->
  typeIs (Some ct) ["application/json"; "application/*+json"] = false.
Proof.
  unfold typeIs. destruct (normalizeType (Some ct)) as [[t st]|]; [|discriminate].
  cbn [existsb]. rewrite !orb_false_r. unfold mimeMatch.
  set (x := split_on "/" "application/xml"). vm_compute in x. subst x.
  set (x := split_on "/" "application/*+xml"). vm_compute in x. subst x.
  set (x := split_on "/" "application/json"). vm_compute in x. subst x.
  set (x := split_on "/" "application/*+json"). vm_compute in x. subst x.
  cbv beta iota. cbn [fst snd].
  change (String.eqb "application" "*") with false.
  change (String.eqb "xml" "*") with false.
  change (String.eqb "json" "*") with false. cbn [orb].
  destruct (String.eqb "application" t); [|discriminate]. cbn [andb].
  intros H.
  assert (last_char st = Some "l"%char) as Hlast.
  { apply orb_true_iff in H as [H|H].
    - apply String.eqb_eq in H. now subst st.
    - now apply ends_with_last in H. }
  apply orb_false_iff. split.
  - destruct (String.eqb "json" st) eqn:E; [|reflexivity].
    apply String.eqb_eq in E. subst st. discriminate.
  - destruct (ends_with "+json" st) eqn:E; [|reflexivity].
    apply ends_with_last in E; [|discriminate]. rewrite Hlast in E. discriminate.
Qed.

(** X5. Under a content type of the XML family a body that is a string is
    returned unchanged, and any other body (absent or null included) is
    handed to the XML builder under the root element [xml]; nothing is
    thrown. *)
Theorem serialize_xml (payload : value) (ct : string) :
  typeIs (Some ct) ["application/xml"; "application/*+xml"] = true ->
  serialize payload (Some ct) =
    match payload with
    | VStr _ => Return (SValue payload)
    | _ => Return (SXml payload)
    end.
Proof.
  intros H. unfold serialize. rewrite (typeIs_truthy _ _ H). cbn [negb andb].
  unfold serializers. cbn [List.find test].
  rewrite (xml_is_not_json ct H), H. cbn [serializer]. reflexivity.
Qed.

Lemma serialize_xml_witness :
  serialize (VStr "<a/>") (Some "application/xml") = Return (SValue (VStr "<a/>")) /\
  serialize VUndefined (Some "application/atom+xml; charset=utf-8")
    = Return (SXml VUndefined).
Proof.
  split.
  - exact (serialize_xml (VStr "<a/>") "application/xml" eq_refl).
  - exact (serialize_xml VUndefined "application/atom+xml; charset=utf-8" eq_refl).
Defined.

(** X6. Under a content type that is given and that no serializer accepts,
    a string body is returned unchanged and every other body, an absent
    one included, makes [serialize] throw the plain error that names the
    content type and has no status. *)
Theorem serialize_unknown_content_type (payload : value) (ct : string) :
  ct <> EmptyString ->
  typeIs (Some ct) ["application/json"; "application/*+json"] = false ->
  typeIs (Some ct) ["application/xml"; "application/*+xml"] = false ->
  typeIs (Some ct) ["text/*"] = false ->
  match payload with
  | VStr _ => serialize payload (Some ct) = Return (SValue payload)
  | _ =>
      serialize payload (Some ct)
        = Throw (new_Error ("Cannot find serializer for " +:+ ct)) /\
      err_status (new_Error ("Cannot find serializer for " +:+ ct)) = None
  end.
Proof.
  intros Hne Hj Hx Ht.
  assert (truthy_str (Some ct) = true) as Htr.
  { destruct ct; [contradiction | reflexivity]. }
  assert (serialize payload (Some ct) =
            match payload with
            | VStr _ => Return (SValue payload)
            | _ => Throw (new_Error ("Cannot find serializer for " +:+ ct))
            end) as E.
  { unfold serialize. rewrite Htr. cbn [negb andb].
    unfold serializers. cbn [List.find test]. rewrite Hj, Hx, Ht. reflexivity. }
  rewrite E. destruct payload; auto.
Qed.

Lemma serialize_unknown_content_type_witness :
  serialize (VStr "GIF89a") (Some "image/gif") = Return (SValue (VStr "GIF89a")) /\
  serialize VUndefined (Some "image/gif")
    = Throw (new_Error "Cannot find serializer for image/gif").
Proof.
  assert ("image/gif" <> EmptyString) as Hne by discriminate.
  split.
  - exact (serialize_unknown_content_type (VStr "GIF89a") "image/gif" Hne
             eq_refl eq_refl eq_refl).
  - exact (proj1 (serialize_unknown_content_type VUndefined "image/gif" Hne
                    eq_refl eq_refl eq_refl)).
Defined.

(** ** JSON: the parser reads back what [JSON.stringify] writes *)

Lemma append_cons (c : ascii) (a b : string) :
  String c a +:+ b = String c (a +:+ b).
Proof. reflexivity. Qed.

Lemma append_nil_l' (b : string) : "" +:+ b = b.
Proof. reflexivity. Qed.

Lemma append_assoc' (a b c : string) : (a +:+ b) +:+ c = a +:+ (b +:+ c).
Proof.
  induction a as [|x a IH]; [reflexivity|].
  rewrite !append_cons. now f_equal.
Qed.

Lemma append_nil_r' (a : string) : a +:+ "" = a.
Proof.
  induction a as [|x a IH]; [reflexivity|]. rewrite append_cons. now f_equal.
Qed.

Lemma length_append (a b : string) :
  String.length (a +:+ b) = (String.length a + String.length b)%nat.
Proof.
  induction a as [|x a IH]; [reflexivity|].
  rewrite append_cons. cbn [String.length]. now rewrite IH.
Qed.

Lemma strip_prefix_append (p r : string) : strip_prefix p (p +:+ r) = Some r.
Proof.
  induction p as [|c p IH]; [reflexivity|].
  rewrite append_cons. cbn [strip_prefix]. now rewrite Ascii.eqb_refl.
Qed.

(** *** Strings *)

Lemma parse_chars_quote_char (c : ascii) (rest : string) :
  parse_chars (quote_char c +:+ rest) = cons_char c (parse_chars rest).
Proof.
  destruct c as [[] [] [] [] [] [] [] []]; reflexivity.
Qed.

Lemma parse_chars_quote_chars (s rest : string) :
  parse_chars (quote_chars s +:+ String dquote rest) = Some (s, rest).
Proof.
  induction s as [|c s IH]; [reflexivity|].
  cbn [quote_chars]. rewrite append_assoc', parse_chars_quote_char, IH.
  reflexivity.
Qed.

Lemma quote_char_length (c : ascii) : (1 <= String.length (quote_char c))%nat.
Proof.
  destruct c as [[] [] [] [] [] [] [] []]; apply Nat.leb_le; reflexivity.
Qed.

(** *** Numbers *)

Lemma span_digits_uint (d : Decimal.uint) (rest : string) :
  number_end rest = true ->
  span_digits (NilEmpty.string_of_uint d +:+ rest)
  = (NilEmpty.string_of_uint d, rest).
Proof.
  intros Hr. induction d; cbn [NilEmpty.string_of_uint];
    rewrite ?append_cons, ?append_nil_l'; cbn [span_digits];
    try (change (is_digit _) with true; cbv iota; rewrite IHd; reflexivity).
  destruct rest as [|c r]; [reflexivity|].
  cbn [span_digits]. cbn in Hr. apply andb_true_iff in Hr as [Hd _].
  apply negb_true_iff in Hd. now rewrite Hd.
Qed.

Lemma to_uint_head (p : positive) :
  Pos.to_uint p <> Decimal.Nil /\ forall d, Pos.to_uint p <> Decimal.D0 d.
Proof.
  split; [apply Unsigned.to_uint_nonnil|]. intros d Hd.
  pose proof (Unsigned.to_of (Pos.to_uint p)) as H.
  rewrite Unsigned.of_to in H. cbn [N.to_uint] in H.
  assert (Decimal.nzhead (Pos.to_uint p) <> Decimal.Nil) as Hnz.
  { intros Hn. apply unorm_0 in Hn. rewrite <- H in Hn.
    now apply Unsigned.to_uint_nonzero in Hn. }
  rewrite (unorm_nzhead _ Hnz) in H. rewrite H in Hd.
  now apply nzhead_nonzero in Hd.
Qed.

Lemma of_uint_to_uint (p : positive) : Z.of_uint (Pos.to_uint p) = Z.pos p.
Proof.
  unfold Z.of_uint. now rewrite Unsigned.of_to.
Qed.

Lemma parse_digits_uint (d : Decimal.uint) (rest : string) :
  d <> Decimal.Nil ->
  (forall d', d = Decimal.D0 d' -> d' = Decimal.Nil) ->
  number_end rest = true ->
  parse_digits (NilEmpty.string_of_uint d +:+ rest) = Some (Z.of_uint d, rest).
Proof.
  intros Hn H0 Hr. unfold parse_digits. rewrite span_digits_uint by assumption.
  assert (negb match rest with
               | String c _ => negb (existsb (Ascii.eqb c) ["."; "e"; "E"]%char)
               | EmptyString => true
               end = false) as Hi.
  { destruct rest as [|c r]; [reflexivity|]. unfold number_end in Hr.
    apply andb_true_iff in Hr as [_ Hr]. now rewrite Hr. }
  rewrite Hi. pose proof (NilEmpty.usu d) as Hu.
  destruct d; [contradiction|..].
  1: { rewrite (H0 d eq_refl). reflexivity. }
  all: cbn [NilEmpty.string_of_uint] in *;
       destruct (NilEmpty.string_of_uint d) eqn:E;
       cbv iota beta; rewrite Hu; reflexivity.
Qed.

Lemma string_of_uint_head (d : Decimal.uint) :
  d <> Decimal.Nil ->
  exists c r, NilEmpty.string_of_uint d = String c r /\ is_digit c = true.
Proof.
  intros Hd. destruct d; [contradiction|..];
    cbn [NilEmpty.string_of_uint]; eauto.
Qed.

Lemma is_digit_not_minus (c : ascii) :
  is_digit c = true -> Ascii.eqb c "-" = false.
Proof.
  destruct (Ascii.eqb c "-") eqn:E; [|reflexivity].
  apply Ascii.eqb_eq in E. subst. discriminate.
Qed.

Lemma parse_number_uint (d : Decimal.uint) (rest : string) :
  d <> Decimal.Nil ->
  (forall d', d = Decimal.D0 d' -> d' = Decimal.Nil) ->
  number_end rest = true ->
  Z.of_uint d <= MAX_SAFE_INTEGER ->
  parse_number (NilEmpty.string_of_uint d +:+ rest) = Some (Z.of_uint d, rest) /\
  (Z.of_uint d <> 0 ->
   parse_number ("-" +:+ NilEmpty.string_of_uint d +:+ rest)
     = Some (- Z.of_uint d, rest)).
Proof.
  intros Hn H0 Hr Hmax.
  pose proof (parse_digits_uint d rest Hn H0 Hr) as Hp.
  destruct (string_of_uint_head d Hn) as (c & r & E & Hc).
  assert ((MAX_SAFE_INTEGER <? Z.of_uint d) = false) as Hb by (apply Z.ltb_ge; lia).
  split.
  - rewrite E, append_cons in *. cbn [parse_number].
    rewrite (is_digit_not_minus c Hc), Hp, Hb. reflexivity.
  - intros Hnz.
    change ("-" +:+ NilEmpty.string_of_uint d +:+ rest)
      with (String "-" (NilEmpty.string_of_uint d +:+ rest)).
    cbn [parse_number]. change (Ascii.eqb "-" "-") with true. cbv iota.
    rewrite Hp, Hb. apply Z.eqb_neq in Hnz. now rewrite Hnz.
Qed.

Lemma string_of_uint_nonnil (d : Decimal.uint) :
  d <> Decimal.Nil -> NilZero.string_of_uint d = NilEmpty.string_of_uint d.
Proof. destruct d; [contradiction|..]; reflexivity. Qed.

Lemma parse_number_to_string (n : Z) (rest : string) :
  json_safe (VNum n) = true ->
  number_end rest = true ->
  parse_number (number_to_string n +:+ rest) = Some (n, rest).
Proof.
  intros Hsafe Hr. unfold number_to_string.
  cbn [json_safe] in Hsafe. apply andb_true_iff in Hsafe as [Hlo Hhi].
  apply Z.leb_le in Hlo, Hhi.
  destruct n as [|p|p]; cbn [Z.to_int NilZero.string_of_int].
  - refine (proj1 (parse_number_uint (Decimal.D0 Decimal.Nil) rest _ _ Hr _)).
    + discriminate.
    + now intros d' [= <-].
    + vm_compute. discriminate.
  - destruct (to_uint_head p) as [Hn H0].
    rewrite string_of_uint_nonnil by assumption.
    rewrite <- (of_uint_to_uint p).
    refine (proj1 (parse_number_uint (Pos.to_uint p) rest Hn _ Hr _)).
    + intros d' Hd. now apply H0 in Hd.
    + now rewrite of_uint_to_uint.
  - destruct (to_uint_head p) as [Hn H0].
    rewrite string_of_uint_nonnil by assumption.
    change (Z.neg p) with (- Z.pos p). rewrite <- (of_uint_to_uint p).
    rewrite append_cons.
    refine (proj2 (parse_number_uint (Pos.to_uint p) rest Hn _ Hr _) _).
    + intros d' Hd. now apply H0 in Hd.
    + rewrite of_uint_to_uint. lia.
    + rewrite of_uint_to_uint. discriminate.
Qed.

(** *** Values *)

Lemma JSON_stringify_array (xs : list value) :
  JSON_stringify (VArr xs) = Some ("[" +:+ join "," (stringify_elems xs) +:+ "]").
Proof. reflexivity. Qed.

Lemma JSON_stringify_object (ps : list (string * value)) :
  JSON_stringify (VObj ps) = Some ("{" +:+ join "," (stringify_members ps) +:+ "}").
Proof. reflexivity. Qed.

Lemma fuel_needed_array (xs : list value) :
  fuel_needed (VArr xs) = S (fuel_elems xs).
Proof. reflexivity. Qed.

Lemma fuel_needed_object (ps : list (string * value)) :
  fuel_needed (VObj ps) = S (fuel_members ps).
Proof. reflexivity. Qed.

Lemma json_safe_object (ps : list (string * value)) :
  json_safe (VObj ps) = NoDupb (map fst ps) && json_safe_members ps.
Proof. reflexivity. Qed.

(** Induction on values, with the elements of arrays and objects. *)
Lemma value_induction (P : value -> Prop) :
  P VUndefined -> P VNull -> (forall b, P (VBool b)) -> (forall n, P (VNum n)) ->
  (forall s, P (VStr s)) ->
  (forall xs, Forall P xs -> P (VArr xs)) ->
  (forall ps, Forall (fun p => P (snd p)) ps -> P (VObj ps)) ->
  forall v, P v.
Proof.
  intros Hu Hn Hb Hz Hs Ha Ho.
  fix IH 1. intros [| |b|n|s|xs|ps].
  - exact Hu.
  - exact Hn.
  - apply Hb.
  - apply Hz.
  - apply Hs.
  - apply Ha. revert xs. fix IHxs 1. intros [|x xs].
    + constructor.
    + constructor; [apply IH | apply IHxs].
  - apply Ho. revert ps. fix IHps 1. intros [|[k x] ps].
    + constructor.
    + constructor; [apply IH | apply IHps].
Qed.

Lemma parse_value_unfold_string (fuel : nat) (text : string) :
  parse_value (S fuel) (String dquote text) =
    match parse_chars text with
    | Some (str, rest) => Some (VStr str, rest)
    | None => None
    end.
Proof. reflexivity. Qed.

Lemma parse_value_unfold_array (fuel : nat) (text : string) :
  parse_value (S fuel) (String "[" text) =
    match strip_prefix "]" (skip_ws text) with
    | Some rest => Some (VArr [], rest)
    | None =>
        match parse_elements fuel text with
        | Some (xs, rest) => Some (VArr xs, rest)
        | None => None
        end
    end.
Proof. reflexivity. Qed.

Lemma parse_value_unfold_object (fuel : nat) (text : string) :
  parse_value (S fuel) (String "{" text) =
    match strip_prefix "}" (skip_ws text) with
    | Some rest => Some (VObj [], rest)
    | None =>
        match parse_members fuel text with
        | Some (ms, rest) =>
            Some (VObj (fold_left (fun o m => assoc_set (fst m) (snd m) o) ms []),
                  rest)
        | None => None
        end
    end.
Proof. reflexivity. Qed.

Lemma parse_value_unfold_number (fuel : nat) (c : ascii) (text : string) :
  is_digit c = true \/ c = "-"%char ->
  parse_value (S fuel) (String c text) =
    match parse_number (String c text) with
    | Some (n, rest) => Some (VNum n, rest)
    | None => None
    end.
Proof.
  destruct c as [[] [] [] [] [] [] [] []]; intros [H|H];
    try discriminate H; reflexivity.
Qed.

Lemma parse_elements_unfold (fuel : nat) (text : string) :
  parse_elements (S fuel) text =
    match parse_value fuel text with
    | None => None
    | Some (v, r) =>
        match strip_prefix "," (skip_ws r), strip_prefix "]" (skip_ws r) with
        | Some r', _ =>
            match parse_elements fuel r' with
            | Some (vs, rest) => Some (v :: vs, rest)
            | None => None
            end
        | None, Some rest => Some ([v], rest)
        | None, None => None
        end
    end.
Proof. reflexivity. Qed.

Lemma parse_members_unfold (fuel : nat) (text : string) :
  parse_members (S fuel) (String dquote text) =
    match parse_chars text with
    | None => None
    | Some (k, r1) =>
        match strip_prefix ":" (skip_ws r1) with
        | None => None
        | Some r2 =>
            match parse_value fuel r2 with
            | None => None
            | Some (v, r3) =>
                match strip_prefix "," (skip_ws r3),
                      strip_prefix "}" (skip_ws r3) with
                | Some r4, _ =>
                    match parse_members fuel r4 with
                    | Some (ms, rest) => Some ((k, v) :: ms, rest)
                    | None => None
                    end
                | None, Some rest => Some ([(k, v)], rest)
                | None, None => None
                end
            end
        end
    end.
Proof. reflexivity. Qed.

Lemma starts_value_append (s rest : string) :
  starts_value s = true ->
  skip_ws (s +:+ rest) = s +:+ rest /\
  strip_prefix "]" (s +:+ rest) = None /\
  strip_prefix "}" (s +:+ rest) = None /\
  starts_value (s +:+ rest) = true.
Proof.
  destruct s as [|c r]; [discriminate|]. rewrite append_cons.
  cbn [starts_value skip_ws strip_prefix]. intros H.
  apply andb_true_iff in H as [H H3]. apply andb_true_iff in H as [H1 H2].
  apply negb_true_iff in H1, H2, H3.
  rewrite H1, (Ascii.eqb_sym "]" c), H2, (Ascii.eqb_sym "}" c), H3. auto.
Qed.

Lemma digit_starts_value (c : ascii) (r : string) :
  is_digit c = true \/ c = "-"%char -> starts_value (String c r) = true.
Proof.
  destruct c as [[] [] [] [] [] [] [] []]; intros [H|H];
    try discriminate H; reflexivity.
Qed.

Lemma number_to_string_head (n : Z) :
  exists c r, number_to_string n = String c r /\
              (is_digit c = true \/ c = "-"%char).
Proof.
  unfold number_to_string. destruct n as [|p|p]; cbn [Z.to_int NilZero.string_of_int].
  - exists "0"%char, EmptyString. auto.
  - destruct (to_uint_head p) as [Hn _].
    rewrite string_of_uint_nonnil by assumption.
    destruct (string_of_uint_head _ Hn) as (c & r & E & Hc). eauto.
  - eauto.
Qed.

Lemma fuel_at_least (v : value) (fuel : nat) :
  (fuel_needed v <= fuel)%nat -> exists f, fuel = S f.
Proof.
  intros H. destruct fuel as [|f]; [|eauto].
  destruct v; cbn in H; lia.
Qed.

Lemma reads_back_null : reads_back VNull.
Proof.
  intros _. exists "null". repeat split; [cbn; lia|].
  intros fuel rest Hf _. destruct (fuel_at_least _ _ Hf) as [f ->]. reflexivity.
Qed.

Lemma reads_back_bool (b : bool) : reads_back (VBool b).
Proof.
  intros _. destruct b; [exists "true" | exists "false"];
    (repeat split; [cbn; lia|]);
    intros fuel rest Hf _; destruct (fuel_at_least _ _ Hf) as [f ->]; reflexivity.
Qed.

Lemma reads_back_number (n : Z) : reads_back (VNum n).
Proof.
  intros Hsafe. exists (number_to_string n).
  destruct (number_to_string_head n) as (c & r & E & Hc).
  split; [reflexivity|]. split; [rewrite E; cbn; lia|].
  split; [rewrite E; now apply digit_starts_value|].
  intros fuel rest Hf Hr. destruct (fuel_at_least _ _ Hf) as [f ->].
  pose proof (parse_number_to_string n rest Hsafe Hr) as Hp.
  rewrite E, append_cons in *.
  rewrite parse_value_unfold_number by assumption. now rewrite Hp.
Qed.

Lemma reads_back_string (s : string) : reads_back (VStr s).
Proof.
  intros _. exists (quote s). split; [reflexivity|].
  split; [cbn; lia|]. split; [reflexivity|].
  intros fuel rest Hf _. destruct (fuel_at_least _ _ Hf) as [f ->].
  unfold quote. rewrite append_cons, append_assoc', append_cons, append_nil_l'.
  rewrite parse_value_unfold_string, parse_chars_quote_chars. reflexivity.
Qed.

(** *** Arrays *)

Lemma join_elems_one (x : value) :
  join "," (stringify_elems [x]) = default "null" (JSON_stringify x).
Proof. reflexivity. Qed.

Lemma join_elems_more (x y : value) (r : list value) :
  join "," (stringify_elems (x :: y :: r))
  = default "null" (JSON_stringify x) +:+ "," +:+ join "," (stringify_elems (y :: r)).
Proof. reflexivity. Qed.

Lemma reads_back_elements (xs : list value) :
  Forall reads_back xs -> forallb json_safe xs = true -> xs <> [] ->
  (fuel_elems xs <= String.length (join "," (stringify_elems xs)) + 1)%nat /\
  starts_value (join "," (stringify_elems xs)) = true /\
  forall fuel rest,
    (fuel_elems xs <= fuel)%nat ->
    parse_elements fuel (join "," (stringify_elems xs) +:+ "]" +:+ rest)
    = Some (xs, rest).
Proof.
  intros Hall. induction Hall as [|x r Hx Hr IH]; [congruence|].
  intros Hsafe _. cbn [forallb] in Hsafe.
  apply andb_true_iff in Hsafe as [Hsx Hsr].
  destruct (Hx Hsx) as (sx & Ex & Hlen & Hstart & Hparse).
  cbn [fuel_elems].
  destruct r as [|y r'].
  - rewrite join_elems_one, Ex. cbn [from_option id fuel_elems].
    split; [lia|]. split; [assumption|].
    intros fuel rest Hf. destruct fuel as [|f]; [lia|].
    rewrite parse_elements_unfold.
    rewrite (Hparse f ("]" +:+ rest)) by (lia || reflexivity).
    reflexivity.
  - destruct (IH Hsr ltac:(discriminate)) as (Hlen' & Hstart' & Hparse').
    rewrite join_elems_more, Ex. cbn [from_option id].
    set (J := join "," (stringify_elems (y :: r'))) in *.
    split.
    { rewrite !length_append. cbn [String.length]. lia. }
    split.
    { now apply starts_value_append. }
    intros fuel rest Hf. destruct fuel as [|f]; [lia|].
    rewrite parse_elements_unfold.
    rewrite !append_assoc'.
    rewrite (Hparse f ("," +:+ J +:+ "]" +:+ rest)) by (lia || reflexivity).
    change (skip_ws ("," +:+ J +:+ "]" +:+ rest)) with ("," +:+ J +:+ "]" +:+ rest).
    rewrite strip_prefix_append.
    rewrite Hparse' by lia. reflexivity.
Qed.

Lemma reads_back_array (xs : list value) :
  Forall reads_back xs -> reads_back (VArr xs).
Proof.
  intros Hall Hsafe. cbn [json_safe] in Hsafe.
  exists ("[" +:+ join "," (stringify_elems xs) +:+ "]").
  split; [apply JSON_stringify_array|].
  rewrite fuel_needed_array.
  destruct xs as [|x r].
  - split; [apply Nat.leb_le; reflexivity|]. split; [reflexivity|].
    intros fuel rest Hf _. destruct fuel as [|f]; [cbn in Hf; lia|]. reflexivity.
  - destruct (reads_back_elements (x :: r) Hall Hsafe ltac:(discriminate))
      as (Hlen & Hstart & Hparse).
    set (J := join "," (stringify_elems (x :: r))) in *.
    split.
    { rewrite append_cons, append_nil_l'. cbn [String.length].
      rewrite length_append. cbn [String.length]. lia. }
    split; [reflexivity|].
    intros fuel rest Hf _. destruct fuel as [|f]; [lia|].
    rewrite !append_assoc', append_cons, append_nil_l'.
    rewrite parse_value_unfold_array.
    destruct (starts_value_append J ("]" +:+ rest) Hstart) as (-> & -> & _).
    rewrite Hparse by lia. reflexivity.
Qed.

(** *** Objects *)

Lemma NoDupb_NoDup (l : list string) : NoDupb l = true -> NoDup l.
Proof.
  induction l as [|x l IH]; cbn [NoDupb]; intros H; constructor.
  - apply andb_true_iff in H as [H _]. apply negb_true_iff in H.
    intros Hin. apply list_elem_of_In in Hin.
    assert (existsb (String.eqb x) l = true) as E.
    { apply existsb_exists. exists x. split; [assumption | apply String.eqb_refl]. }
    congruence.
  - apply andb_true_iff in H as [_ H]. now apply IH.
Qed.

Lemma assoc_set_fresh {A} (k : string) (v : A) (ps : list (string * A)) :
  k ∉ map fst ps -> assoc_set k v ps = (ps ++ [(k, v)])%list.
Proof.
  induction ps as [|[k' v'] ps IH]; cbn [assoc_set map fst]; intros Hk.
  - reflexivity.
  - destruct (String.eqb k k') eqn:E.
    + apply String.eqb_eq in E. subst. exfalso. apply Hk. now left.
    + cbn [app]. f_equal. apply IH. intros Hin. apply Hk. now right.
Qed.

Lemma fold_assoc_set {A} (ms acc : list (string * A)) :
  NoDup (map fst acc ++ map fst ms) ->
  fold_left (fun o m => assoc_set (fst m) (snd m) o) ms acc = (acc ++ ms)%list.
Proof.
  revert acc. induction ms as [|[k v] ms IH]; intros acc Hnd; cbn [fold_left fst snd].
  - now rewrite app_nil_r.
  - cbn [map fst] in Hnd.
    rewrite assoc_set_fresh.
    + rewrite IH.
      * now rewrite <- app_assoc.
      * rewrite map_app. cbn [map fst]. now rewrite <- app_assoc.
    + apply NoDup_app in Hnd as (_ & Hdis & _). intros Hin.
      apply (Hdis k Hin). now left.
Qed.

Lemma member_text (k sx R : string) :
  (quote k +:+ ":" +:+ sx) +:+ R
  = String dquote (quote_chars k +:+ String dquote (String ":" (sx +:+ R))).
Proof.
  unfold quote.
  repeat (rewrite append_assoc' || rewrite append_cons || rewrite append_nil_l').
  reflexivity.
Qed.

Lemma join_members_one (k : string) (x : value) (sx : string) :
  JSON_stringify x = Some sx ->
  join "," (stringify_members [(k, x)]) = quote k +:+ ":" +:+ sx.
Proof. intros E. cbn [stringify_members]. rewrite E. reflexivity. Qed.

Lemma json_safe_stringify (v : value) :
  json_safe v = true -> exists s, JSON_stringify v = Some s.
Proof.
  destruct v as [| |[]|n|s|xs|ps]; try discriminate; intros _; cbn; eauto.
Qed.

Lemma join_members_more (k : string) (x : value) (sx : string)
  (q : string * value) (r : list (string * value)) :
  JSON_stringify x = Some sx ->
  json_safe_members (q :: r) = true ->
  join "," (stringify_members ((k, x) :: q :: r))
  = (quote k +:+ ":" +:+ sx) +:+ "," +:+ join "," (stringify_members (q :: r)).
Proof.
  intros E Hs. destruct q as [k' y]. cbn [json_safe_members] in Hs.
  apply andb_true_iff in Hs as [Hy _].
  destruct (json_safe_stringify y Hy) as [sy Ey].
  cbn [stringify_members]. rewrite E, Ey. reflexivity.
Qed.

Lemma reads_back_members (ps : list (string * value)) :
  Forall (fun p => reads_back (snd p)) ps ->
  json_safe_members ps = true -> ps <> [] ->
  (fuel_members ps <= String.length (join "," (stringify_members ps)) + 1)%nat /\
  (exists text, join "," (stringify_members ps) = String dquote text) /\
  forall fuel rest,
    (fuel_members ps <= fuel)%nat ->
    parse_members fuel (join "," (stringify_members ps) +:+ "}" +:+ rest)
    = Some (ps, rest).
Proof.
  intros Hall. induction Hall as [|[k x] r Hx Hr IH]; [congruence|].
  intros Hsafe _. cbn [json_safe_members] in Hsafe.
  apply andb_true_iff in Hsafe as [Hsx Hsr]. cbn [snd] in Hx.
  destruct (Hx Hsx) as (sx & Ex & Hlen & Hstart & Hparse).
  cbn [fuel_members].
  destruct r as [|q r'].
  - rewrite (join_members_one k x sx Ex). cbn [fuel_members].
    split.
    { rewrite !length_append. lia. }
    split.
    { unfold quote. rewrite append_cons. eauto. }
    intros fuel rest Hf. destruct fuel as [|f]; [lia|].
    rewrite member_text, parse_members_unfold, parse_chars_quote_chars.
    change (skip_ws (String ":" (sx +:+ "}" +:+ rest)))
      with (":" +:+ (sx +:+ "}" +:+ rest)).
    rewrite strip_prefix_append.
    rewrite (Hparse f ("}" +:+ rest)) by (lia || reflexivity).
    reflexivity.
  - destruct (IH Hsr ltac:(discriminate)) as (Hlen' & Hstart' & Hparse').
    rewrite (join_members_more k x sx q r' Ex Hsr).
    set (J := join "," (stringify_members (q :: r'))) in *.
    split.
    { rewrite !length_append. cbn [String.length]. lia. }
    split.
    { unfold quote. rewrite !append_cons. eauto. }
    intros fuel rest Hf. destruct fuel as [|f]; [lia|].
    rewrite append_assoc'.
    rewrite member_text, parse_members_unfold, parse_chars_quote_chars.
    change (skip_ws (String ":" (sx +:+ ("," +:+ J) +:+ "}" +:+ rest)))
      with (":" +:+ (sx +:+ ("," +:+ J) +:+ "}" +:+ rest)).
    rewrite strip_prefix_append, append_assoc'.
    rewrite (Hparse f ("," +:+ J +:+ "}" +:+ rest)) by (lia || reflexivity).
    change (skip_ws ("," +:+ J +:+ "}" +:+ rest)) with ("," +:+ J +:+ "}" +:+ rest).
    rewrite strip_prefix_append.
    rewrite Hparse' by lia. reflexivity.
Qed.

Lemma reads_back_object (ps : list (string * value)) :
  Forall (fun p => reads_back (snd p)) ps -> reads_back (VObj ps).
Proof.
  intros Hall Hsafe. rewrite json_safe_object in Hsafe.
  apply andb_true_iff in Hsafe as [Hnd Hsafe].
  exists ("{" +:+ join "," (stringify_members ps) +:+ "}").
  split; [apply JSON_stringify_object|].
  rewrite fuel_needed_object.
  destruct ps as [|p r].
  - split; [apply Nat.leb_le; reflexivity|]. split; [reflexivity|].
    intros fuel rest Hf _. destruct fuel as [|f]; [cbn in Hf; lia|]. reflexivity.
  - destruct (reads_back_members (p :: r) Hall Hsafe ltac:(discriminate))
      as (Hlen & [text Htext] & Hparse).
    set (J := join "," (stringify_members (p :: r))) in *.
    split.
    { rewrite append_cons, append_nil_l'. cbn [String.length].
      rewrite length_append. cbn [String.length]. lia. }
    split; [reflexivity|].
    intros fuel rest Hf _. destruct fuel as [|f]; [lia|].
    rewrite !append_assoc', append_cons, append_nil_l'.
    rewrite parse_value_unfold_object.
    assert (strip_prefix "}" (skip_ws (J +:+ "}" +:+ rest)) = None) as ->.
    { rewrite Htext. reflexivity. }
    rewrite Hparse by lia.
    rewrite fold_assoc_set by (apply NoDupb_NoDup in Hnd; exact Hnd).
    reflexivity.
Qed.

(** Every JSON-safe value is read back from its encoding. *)
Lemma reads_back_all (v : value) : reads_back v.
Proof.
  induction v using value_induction.
  - intros H. discriminate.
  - apply reads_back_null.
  - apply reads_back_bool.
  - apply reads_back_number.
  - apply reads_back_string.
  - now apply reads_back_array.
  - now apply reads_back_object.
Qed.

Lemma JSON_parse_stringify (v : value) :
  json_safe v = true ->
  exists s, JSON_stringify v = Some s /\ JSON_parse s = Some v.
Proof.
  intros Hsafe.
  destruct (reads_back_all v Hsafe) as (s & Es & Hlen & _ & Hparse).
  exists s. split; [assumption|]. unfold JSON_parse.
  rewrite <- (append_nil_r' s) at 2.
  rewrite Hparse by (lia || reflexivity). reflexivity.
Qed.

(** ** Serialization under a JSON content type *)

(** C8. Under a content type of the JSON family, [serialize] returns the
    JSON encoding of a JSON-safe value, and [JSON.parse] of that string is
    the value. *)
Theorem serialize_json_roundtrip (payload : value) (ct : string) :
  json_safe payload = true ->
  typeIs (Some ct) ["application/json"; "application/*+json"] = true ->
  exists s,
    JSON_stringify payload = Some s /\
    serialize payload (Some ct) = Return (SValue (VStr s)) /\
    JSON_parse s = Some payload.
Proof.
  intros Hsafe Hct.
  destruct (JSON_parse_stringify payload Hsafe) as (s & Es & Hp).
  exists s. split; [assumption|]. split; [|assumption].
  unfold serialize. rewrite (typeIs_truthy _ _ Hct). cbn [negb andb].
  destruct (find_json_serializer ct Hct) as (sr & -> & Hs).
  rewrite Hs, Es. reflexivity.
Qed.

Lemma serialize_json_roundtrip_witness :
  json_safe (VObj [("a", VNum 1)]) = true /\
  typeIs (Some "application/json") ["application/json"; "application/*+json"]
    = true /\
  serialize (VObj [("a", VNum 1)]) (Some "application/json")
    = Return (SValue (VStr ("{" +:+ quote "a" +:+ ":1}"))) /\
  JSON_parse ("{" +:+ quote "a" +:+ ":1}") = Some (VObj [("a", VNum 1)]).
Proof.
  split; [reflexivity|]. split; [reflexivity|].
  destruct (serialize_json_roundtrip (VObj [("a", VNum 1)]) "application/json"
              eq_refl eq_refl) as (s & Es & Hser & Hparse).
  assert (s = "{" +:+ quote "a" +:+ ":1}") as ->.
  { assert (JSON_stringify (VObj [("a", VNum 1)])
            = Some ("{" +:+ quote "a" +:+ ":1}")) as E by reflexivity.
    congruence. }
  split; assumption.
Defined.

(** ** JSON: what the parser reads is a JSON text

    The recognizer of the grammar accepts every text the parser of the
    model reads: a text it refuses has no value. *)

Lemma run_skip_ws (state : Lexer) (stack : list Context) (s : string) :
  skips_ws state -> run state stack (skip_ws s) = run state stack s.
Proof.
  intros H. induction s as [|c r IH]; [reflexivity|].
  cbn [skip_ws]. destruct (is_ws c) eqn:E; [|reflexivity].
  rewrite IH. cbn [run]. now rewrite (H stack c E).
Qed.

Lemma skips_ws_ExpectValue : skips_ws ExpectValue.
Proof. intros stack c H. cbn [step]. now rewrite H. Qed.

Lemma skips_ws_ExpectValueOrClose : skips_ws ExpectValueOrClose.
Proof. intros stack c H. cbn [step]. now rewrite H. Qed.

Lemma skips_ws_ExpectKeyOrClose : skips_ws ExpectKeyOrClose.
Proof. intros stack c H. cbn [step]. now rewrite H. Qed.

Lemma skips_ws_ExpectKey : skips_ws ExpectKey.
Proof. intros stack c H. cbn [step]. now rewrite H. Qed.

Lemma skips_ws_ExpectColon : skips_ws ExpectColon.
Proof. intros stack c H. cbn [step]. now rewrite H. Qed.

Lemma skips_ws_AfterValue : skips_ws AfterValue.
Proof. intros stack c H. cbn [step]. unfold after_value. now rewrite H. Qed.

Lemma skip_ws_head (s : string) (c : ascii) (r : string) :
  skip_ws s = String c r -> is_ws c = false.
Proof.
  induction s as [|x s IH]; [discriminate|]. cbn [skip_ws].
  destruct (is_ws x) eqn:E; [exact IH|]. now intros [= <- _].
Qed.

Lemma strip_prefix_eq (p s r : string) :
  strip_prefix p s = Some r -> s = p +:+ r.
Proof.
  revert s. induction p as [|a p IH]; intros s H.
  - now injection H as ->.
  - destruct s as [|b s]; [discriminate|]. cbn [strip_prefix] in H.
    destruct (Ascii.eqb a b) eqn:E; [|discriminate].
    apply Ascii.eqb_eq in E. subst b. rewrite append_cons. f_equal. now apply IH.
Qed.

Lemma strip_prefix_char_None (a c : ascii) (r : string) :
  strip_prefix (String a "") (String c r) = None -> Ascii.eqb c a = false.
Proof.
  cbn [strip_prefix]. rewrite (Ascii.eqb_sym a c).
  destruct (Ascii.eqb c a); [discriminate | reflexivity].
Qed.

(** *** Strings *)

Lemma hex_value_is_hex (c : ascii) (n : nat) : hex_value c = Some n -> is_hex c = true.
Proof. unfold is_hex. now intros ->. Qed.

Lemma cons_char_Some (c : ascii) (r : option (string * string))
  (str rest : string) :
  cons_char c r = Some (str, rest) -> exists str', r = Some (str', rest).
Proof.
  destruct r as [[s' r']|]; [|discriminate]. cbn. intros [= _ <-]. eauto.
Qed.

Lemma run_string (n : nat) :
  forall (s : string), (String.length s <= n)%nat ->
  forall (key : bool) (stack : list Context) (str rest : string),
    parse_chars s = Some (str, rest) ->
    run (InString key) stack s =
      run (if key then ExpectColon else AfterValue) stack rest.
Proof.
  induction n as [|n IH]; intros s Hlen key stack str rest Hp.
  { destruct s; [discriminate | cbn in Hlen; lia]. }
  destruct s as [|c r]; [discriminate|].
  cbn [String.length] in Hlen. cbn [parse_chars] in Hp. cbn [run step].
  destruct (Ascii.eqb c dquote) eqn:Eq.
  { injection Hp as _ <-. reflexivity. }
  destruct (Ascii.eqb c "\") eqn:Eb.
  - destruct r as [|e r1]; [discriminate|]. cbn [run step].
    destruct (Ascii.eqb e "u") eqn:Eu.
    + destruct r1 as [|h1 [|h2 [|h3 [|h4 r2]]]]; try discriminate.
      destruct (hex_value h1) as [[|?]|] eqn:E1; try discriminate.
      destruct (hex_value h2) as [[|?]|] eqn:E2; try discriminate.
      destruct (hex_value h3) as [a|] eqn:E3; try discriminate.
      destruct (hex_value h4) as [b|] eqn:E4; try discriminate.
      apply cons_char_Some in Hp as [str' Hp].
      cbn [run step]. rewrite (hex_value_is_hex _ _ E1).
      cbn [run step]. rewrite (hex_value_is_hex _ _ E2).
      cbn [run step]. rewrite (hex_value_is_hex _ _ E3).
      cbn [run step]. rewrite (hex_value_is_hex _ _ E4).
      apply (IH r2) with (str := str'); [cbn [String.length] in Hlen; lia | exact Hp].
    + destruct (unescape e) as [c'|] eqn:Ee; [|discriminate].
      apply cons_char_Some in Hp as [str' Hp].
      apply (IH r1) with (str := str'); [cbn [String.length] in Hlen; lia | exact Hp].
  - destruct (nat_of_ascii c <? 32)%nat; [discriminate|].
    apply cons_char_Some in Hp as [str' Hp].
    apply (IH r) with (str := str'); [lia | exact Hp].
Qed.

(** *** Numbers *)

Lemma span_digits_spec (s ds rest : string) :
  span_digits s = (ds, rest) ->
  s = ds +:+ rest /\ all_chars is_digit ds = true /\
  match rest with
  | String c _ => is_digit c = false
  | EmptyString => True
  end.
Proof.
  revert ds rest. induction s as [|c r IH]; intros ds rest H.
  - injection H as <- <-. auto.
  - cbn [span_digits] in H. destruct (is_digit c) eqn:E.
    + destruct (span_digits r) as [d rest'] eqn:Er. injection H as <- <-.
      destruct (IH d rest' eq_refl) as (-> & Hd & Hr).
      rewrite append_cons. cbn [all_chars]. rewrite E, Hd. auto.
    + injection H as <- <-. cbn. auto.
Qed.

Lemma run_digits (stack : list Context) (ds rest : string) :
  all_chars is_digit ds = true ->
  run NumInt stack (ds +:+ rest) = run NumInt stack rest.
Proof.
  induction ds as [|c ds IH]; intros H; [reflexivity|].
  cbn [all_chars] in H. apply andb_true_iff in H as [Hc Hd].
  rewrite append_cons. cbn [run step]. rewrite Hc. now apply IH.
Qed.

Lemma number_end_spec (c : ascii) (r : string) :
  number_end (String c r) = true ->
  is_digit c = false /\ Ascii.eqb c "." = false /\ is_e c = false.
Proof.
  cbn [number_end existsb]. intros H.
  apply andb_true_iff in H as [Hd He]. apply negb_true_iff in Hd, He.
  apply orb_false_iff in He as [H1 He]. apply orb_false_iff in He as [H2 He].
  apply orb_false_iff in He as [H3 _].
  unfold is_e. now rewrite H1, H2, H3.
Qed.

Lemma run_number_end (stack : list Context) (rest : string) :
  number_end rest = true ->
  run NumInt stack rest = run AfterValue stack rest /\
  run NumZero stack rest = run AfterValue stack rest.
Proof.
  intros H. destruct rest as [|c r].
  - destruct stack; auto.
  - destruct (number_end_spec c r H) as (Hd & Hp & He).
    cbn [run step]. now rewrite Hd, Hp, He.
Qed.

Lemma starts_digits_NumMinus : starts_digits NumMinus.
Proof.
  intros stack c H. cbn [step]. rewrite H. now destruct (Ascii.eqb c "0").
Qed.

Lemma starts_digits_ExpectValue : starts_digits ExpectValue.
Proof.
  intros stack c H.
  destruct c as [[] [] [] [] [] [] [] []]; try discriminate H; reflexivity.
Qed.

Lemma parse_digits_spec (s : string) (n : Z) (rest : string) :
  parse_digits s = Some (n, rest) ->
  exists c ds,
    s = String c ds +:+ rest /\ is_digit c = true /\
    all_chars is_digit ds = true /\
    (Ascii.eqb c "0" = true -> ds = EmptyString) /\
    number_end rest = true.
Proof.
  unfold parse_digits. destruct (span_digits s) as [ds rest'] eqn:E.
  destruct (span_digits_spec _ _ _ E) as (-> & Hd & Hr).
  set (integral := match rest' with
                   | String c _ => negb (existsb (Ascii.eqb c) ["."; "e"; "E"]%char)
                   | EmptyString => true
                   end).
  assert (integral = true -> number_end rest' = true) as Hend.
  { subst integral. destruct rest' as [|x r]; [reflexivity|].
    intros Hi. cbn [number_end]. now rewrite Hr, Hi. }
  destruct ds as [|c [|c' more]]; [discriminate| |].
  - intros H. destruct integral; [|discriminate].
    destruct (NilEmpty.uint_of_string _); [|discriminate]. injection H as _ <-.
    exists c, EmptyString. cbn [all_chars] in Hd. apply andb_true_iff in Hd as [Hc _].
    repeat split; auto.
  - intros H. destruct (Ascii.eqb c "0") eqn:E0; [discriminate|].
    destruct integral; [|discriminate]. cbn [orb negb] in H.
    destruct (NilEmpty.uint_of_string _); [|discriminate]. injection H as _ <-.
    exists c, (String c' more). cbn [all_chars] in Hd.
    apply andb_true_iff in Hd as [Hc Hd].
    repeat split; auto. intros ?. congruence.
Qed.

Lemma run_numeral (state : Lexer) (stack : list Context) (s : string) (n : Z)
  (rest : string) :
  starts_digits state ->
  parse_digits s = Some (n, rest) ->
  run state stack s = run AfterValue stack rest.
Proof.
  intros Hst Hp.
  destruct (parse_digits_spec s n rest Hp) as (c & ds & -> & Hc & Hd & H0 & Hend).
  rewrite append_cons. cbn [run]. rewrite (Hst stack c Hc).
  destruct (run_number_end stack rest Hend) as [Hi Hz].
  destruct (Ascii.eqb c "0") eqn:E0.
  - rewrite (H0 eq_refl), append_nil_l'. exact Hz.
  - rewrite run_digits by exact Hd. exact Hi.
Qed.

Lemma run_number (stack : list Context) (s : string) (n : Z) (rest : string) :
  parse_number s = Some (n, rest) ->
  run ExpectValue stack s = run AfterValue stack rest.
Proof.
  destruct s as [|c r]; [discriminate|]. cbn [parse_number].
  destruct (Ascii.eqb c "-") eqn:Em.
  - apply Ascii.eqb_eq in Em. subst c.
    destruct (parse_digits r) as [[n' rest']|] eqn:Ep; [|discriminate].
    destruct (_ || _); [discriminate|]. intros [= _ <-].
    change (run ExpectValue stack (String "-" r)) with (run NumMinus stack r).
    exact (run_numeral NumMinus stack r n' rest' starts_digits_NumMinus Ep).
  - destruct (parse_digits (String c r)) as [[n' rest']|] eqn:Ep; [|discriminate].
    destruct (_ <? _); [discriminate|]. intros [= _ <-].
    exact (run_numeral ExpectValue stack _ n' rest' starts_digits_ExpectValue Ep).
Qed.

(** *** Values *)

Lemma parse_value_unfold (fuel : nat) (text : string) :
  parse_value (S fuel) text =
    let s := skip_ws text in
    match strip_prefix "null" s, strip_prefix "true" s, strip_prefix "false" s with
    | Some r, _, _ => Some (VNull, r)
    | _, Some r, _ => Some (VBool true, r)
    | _, _, Some r => Some (VBool false, r)
    | None, None, None =>
        match s with
        | EmptyString => None
        | String c r =>
            if Ascii.eqb c dquote then
              match parse_chars r with
              | Some (str, rest) => Some (VStr str, rest)
              | None => None
              end
            else if Ascii.eqb c "[" then
              match strip_prefix "]" (skip_ws r) with
              | Some rest => Some (VArr [], rest)
              | None =>
                  match parse_elements fuel r with
                  | Some (xs, rest) => Some (VArr xs, rest)
                  | None => None
                  end
              end
            else if Ascii.eqb c "{" then
              match strip_prefix "}" (skip_ws r) with
              | Some rest => Some (VObj [], rest)
              | None =>
                  match parse_members fuel r with
                  | Some (ms, rest) =>
                      Some (VObj (fold_left (fun o m => assoc_set (fst m) (snd m) o)
                                            ms []), rest)
                  | None => None
                  end
              end
            else
              match parse_number s with
              | Some (n, rest) => Some (VNum n, rest)
              | None => None
              end
        end
    end.
Proof. reflexivity. Qed.

Lemma parse_members_unfold_ws (fuel : nat) (text : string) :
  parse_members (S fuel) text =
    match skip_ws text with
    | EmptyString => None
    | String c r =>
        if Ascii.eqb c dquote then
          match parse_chars r with
          | None => None
          | Some (k, r1) =>
              match strip_prefix ":" (skip_ws r1) with
              | None => None
              | Some r2 =>
                  match parse_value fuel r2 with
                  | None => None
                  | Some (v, r3) =>
                      match strip_prefix "," (skip_ws r3),
                            strip_prefix "}" (skip_ws r3) with
                      | Some r4, _ =>
                          match parse_members fuel r4 with
                          | Some (ms, rest) => Some ((k, v) :: ms, rest)
                          | None => None
                          end
                      | None, Some rest => Some ([(k, v)], rest)
                      | None, None => None
                      end
                  end
              end
          end
        else None
    end.
Proof. reflexivity. Qed.

Lemma run_value_or_close (stack : list Context) (s : string) :
  strip_prefix "]" (skip_ws s) = None ->
  run ExpectValueOrClose stack s = run ExpectValue stack s.
Proof.
  intros H.
  rewrite <- (run_skip_ws ExpectValueOrClose) by exact skips_ws_ExpectValueOrClose.
  rewrite <- (run_skip_ws ExpectValue stack s) by exact skips_ws_ExpectValue.
  destruct (skip_ws s) as [|c r] eqn:E; [reflexivity|].
  pose proof (skip_ws_head _ _ _ E) as Hws.
  apply strip_prefix_char_None in H.
  cbn [run step]. now rewrite Hws, H.
Qed.

Lemma run_key_or_close (stack : list Context) (s : string) :
  strip_prefix "}" (skip_ws s) = None ->
  run ExpectKeyOrClose stack s = run ExpectKey stack s.
Proof.
  intros H.
  rewrite <- (run_skip_ws ExpectKeyOrClose) by exact skips_ws_ExpectKeyOrClose.
  rewrite <- (run_skip_ws ExpectKey stack s) by exact skips_ws_ExpectKey.
  destruct (skip_ws s) as [|c r] eqn:E; [reflexivity|].
  pose proof (skip_ws_head _ _ _ E) as Hws.
  apply strip_prefix_char_None in H.
  cbn [run step]. now rewrite Hws, H.
Qed.

(** after a value, a separator and what follows it *)
Lemma run_after (stack : list Context) (sep : ascii) (r r' : string) :
  strip_prefix (String sep "") (skip_ws r) = Some r' ->
  run AfterValue stack r = run AfterValue stack (String sep r').
Proof.
  intros H. apply strip_prefix_eq in H.
  rewrite <- (run_skip_ws AfterValue stack r) by exact skips_ws_AfterValue.
  now rewrite H.
Qed.

Lemma parse_run (fuel : nat) :
  (forall s v rest stack,
     parse_value fuel s = Some (v, rest) ->
     run ExpectValue stack s = run AfterValue stack rest) /\
  (forall s xs rest stack,
     parse_elements fuel s = Some (xs, rest) ->
     run ExpectValue (InArray :: stack) s = run AfterValue stack rest) /\
  (forall s ms rest stack,
     parse_members fuel s = Some (ms, rest) ->
     run ExpectKey (InObject :: stack) s = run AfterValue stack rest).
Proof.
  induction fuel as [|fuel (IHv & IHe & IHm)].
  { repeat split; intros; discriminate. }
  split; [|split].
  - intros s v rest stack. rewrite parse_value_unfold. cbv zeta.
    rewrite <- (run_skip_ws ExpectValue stack s) by exact skips_ws_ExpectValue.
    destruct (strip_prefix "null" (skip_ws s)) as [r|] eqn:En.
    { intros [= _ <-]. apply strip_prefix_eq in En. rewrite En. reflexivity. }
    destruct (strip_prefix "true" (skip_ws s)) as [r|] eqn:Et.
    { intros [= _ <-]. apply strip_prefix_eq in Et. rewrite Et. reflexivity. }
    destruct (strip_prefix "false" (skip_ws s)) as [r|] eqn:Ef.
    { intros [= _ <-]. apply strip_prefix_eq in Ef. rewrite Ef. reflexivity. }
    destruct (skip_ws s) as [|c r] eqn:Es; [discriminate|].
    pose proof (skip_ws_head _ _ _ Es) as Hws.
    destruct (Ascii.eqb c dquote) eqn:Eq.
    { destruct (parse_chars r) as [[str rest']|] eqn:Ep; [|discriminate].
      intros [= _ <-]. cbn [run step]. unfold start_value. rewrite Hws, Eq.
      exact (run_string _ r (le_n _) false stack str rest' Ep). }
    destruct (Ascii.eqb c "[") eqn:Ea.
    { cbn [run step]. unfold start_value. rewrite Hws, Eq, Ea.
      destruct (strip_prefix "]" (skip_ws r)) as [rest'|] eqn:Ec.
      - intros [= _ <-]. apply strip_prefix_eq in Ec.
        rewrite <- (run_skip_ws ExpectValueOrClose)
          by exact skips_ws_ExpectValueOrClose.
        rewrite Ec. reflexivity.
      - destruct (parse_elements fuel r) as [[xs rest']|] eqn:Ee; [|discriminate].
        intros [= _ <-]. rewrite run_value_or_close by exact Ec.
        exact (IHe r xs rest' stack Ee). }
    destruct (Ascii.eqb c "{") eqn:Eo.
    { cbn [run step]. unfold start_value. rewrite Hws, Eq, Ea, Eo.
      destruct (strip_prefix "}" (skip_ws r)) as [rest'|] eqn:Ec.
      - intros [= _ <-]. apply strip_prefix_eq in Ec.
        rewrite <- (run_skip_ws ExpectKeyOrClose)
          by exact skips_ws_ExpectKeyOrClose.
        rewrite Ec. reflexivity.
      - destruct (parse_members fuel r) as [[ms rest']|] eqn:Em; [|discriminate].
        intros [= _ <-]. rewrite run_key_or_close by exact Ec.
        exact (IHm r ms rest' stack Em). }
    destruct (parse_number (String c r)) as [[n rest']|] eqn:Ep; [|discriminate].
    intros [= _ <-]. exact (run_number stack _ n rest' Ep).
  - intros s xs rest stack. rewrite parse_elements_unfold.
    destruct (parse_value fuel s) as [[v r]|] eqn:Ev; [|discriminate].
    rewrite (IHv s v r (InArray :: stack) Ev).
    destruct (strip_prefix "," (skip_ws r)) as [r'|] eqn:Ec.
    + destruct (parse_elements fuel r') as [[vs rest']|] eqn:Ee; [|discriminate].
      intros [= _ <-]. rewrite (run_after _ _ _ _ Ec).
      exact (IHe r' vs rest' stack Ee).
    + destruct (strip_prefix "]" (skip_ws r)) as [rest'|] eqn:Eb; [|discriminate].
      intros [= _ <-]. rewrite (run_after _ _ _ _ Eb). reflexivity.
  - intros s ms rest stack. rewrite parse_members_unfold_ws.
    rewrite <- (run_skip_ws ExpectKey (InObject :: stack) s)
      by exact skips_ws_ExpectKey.
    destruct (skip_ws s) as [|c r] eqn:Es; [discriminate|].
    pose proof (skip_ws_head _ _ _ Es) as Hws.
    destruct (Ascii.eqb c dquote) eqn:Eq; [|discriminate].
    destruct (parse_chars r) as [[k r1]|] eqn:Ek; [|discriminate].
    destruct (strip_prefix ":" (skip_ws r1)) as [r2|] eqn:Ec; [|discriminate].
    destruct (parse_value fuel r2) as [[v r3]|] eqn:Ev; [|discriminate].
    cbn [run step]. rewrite Hws, Eq.
    rewrite (run_string _ r (le_n _) true (InObject :: stack) k r1 Ek).
    apply strip_prefix_eq in Ec.
    rewrite <- (run_skip_ws ExpectColon) by exact skips_ws_ExpectColon.
    rewrite Ec.
    change (run ExpectColon (InObject :: stack) (":" +:+ r2))
      with (run ExpectValue (InObject :: stack) r2).
    rewrite (IHv r2 v r3 (InObject :: stack) Ev).
    destruct (strip_prefix "," (skip_ws r3)) as [r4|] eqn:E4.
    + destruct (parse_members fuel r4) as [[ms' rest']|] eqn:Em; [|discriminate].
      intros [= _ <-]. rewrite (run_after _ _ _ _ E4).
      exact (IHm r4 ms' rest' stack Em).
    + destruct (strip_prefix "}" (skip_ws r3)) as [rest'|] eqn:Eb; [|discriminate].
      intros [= _ <-]. rewrite (run_after _ _ _ _ Eb). reflexivity.
Qed.

(** Every text the parser of the model reads is a JSON text. *)
Lemma JSON_parse_text (s : string) (v : value) :
  JSON_parse s = Some v -> JSON_text s = true.
Proof.
  unfold JSON_parse, JSON_text.
  destruct (parse_value (S (String.length s)) s) as [[v' rest]|] eqn:Ep;
    [|discriminate].
  destruct (skip_ws rest) eqn:Er; [|discriminate]. intros _.
  rewrite (proj1 (parse_run _) s v' rest [] Ep).
  rewrite <- (run_skip_ws AfterValue [] rest) by exact skips_ws_AfterValue.
  now rewrite Er.
Qed.
(** ** The request body *)

(** C2 (what the code does). When neither content-length nor
    transfer-encoding is present, [headers.get] answers [null], which is
    not [undefined]: the body is not null, it is parsed as JSON or read as
    text according to the content type. *)
Theorem parseRequestBody_without_length_headers (request : Request) :
  req_headers request !! "content-length" = None ->
  req_headers request !! "transfer-encoding" = None ->
  parseRequestBody request =
    if typeIs (string_or_undefined
                 (Headers_get (req_headers request) "content-type"))
              ["application/json"; "application/*+json"]
    then Request_json request
    else Request_text request.
Proof.
  intros Hl Ht. unfold parseRequestBody, Headers_get.
  change (toLowerCase "content-length") with "content-length".
  change (toLowerCase "transfer-encoding") with "transfer-encoding".
  rewrite Hl, Ht. reflexivity.
Qed.

Lemma parseRequestBody_bare_request :
  req_headers bare_request !! "content-length" = None /\
  req_headers bare_request !! "transfer-encoding" = None /\
  parseRequestBody bare_request = Some (Return (VStr "")).
Proof.
  split; [reflexivity|]. split; [reflexivity|].
  rewrite (parseRequestBody_without_length_headers bare_request eq_refl eq_refl).
  reflexivity.
Defined.

(** ** A request that announces an empty body *)

(** X2. When the content-length header is "0" the normalized body is null,
    whatever the content type and the text of the request. *)
Theorem parseRequestBody_content_length_zero (request : Request) :
  req_headers request !! "content-length" = Some "0" ->
  parseRequestBody request = Some (Return VNull).
Proof.
  intros H. unfold parseRequestBody, Headers_get.
  change (toLowerCase "content-length") with "content-length".
  rewrite H. reflexivity.
Qed.

Lemma parseRequestBody_content_length_zero_witness :
  req_headers empty_post !! "content-length" = Some "0" /\
  parseRequestBody empty_post = Some (Return VNull).
Proof.
  split; [reflexivity|].
  exact (parseRequestBody_content_length_zero empty_post eq_refl).
Defined.

(** ** The request body, once more *)

Lemma parseRequestBody_reads (request : Request) :
  req_headers request !! "content-length" <> Some "0" ->
  parseRequestBody request =
    if typeIs (string_or_undefined
                 (Headers_get (req_headers request) "content-type"))
              ["application/json"; "application/*+json"]
    then Request_json request
    else Request_text request.
Proof.
  intros H. unfold parseRequestBody.
  assert (strict_eq (Headers_get (req_headers request) "content-length") (VStr "0")
          = false) as ->.
  { unfold Headers_get. change (toLowerCase "content-length") with "content-length".
    destruct (req_headers request !! "content-length") as [v|] eqn:E; [|reflexivity].
    cbn [strict_eq]. apply String.eqb_neq. congruence. }
  assert (strict_eq (Headers_get (req_headers request) "transfer-encoding") VUndefined
          = false) as ->.
  { unfold Headers_get.
    change (toLowerCase "transfer-encoding") with "transfer-encoding".
    destruct (req_headers request !! "transfer-encoding"); reflexivity. }
  reflexivity.
Qed.

Lemma Request_json_parsed (request : Request) (v : value) :
  JSON_parse (req_text request) = Some v ->
  Request_json request = Some (Return v).
Proof.
  intros H. unfold Request_json.
  now rewrite (JSON_parse_text _ _ H), H.
Qed.

(** X15. Unless the content-length header is "0", the body is never
    dropped.  Under a content type of the JSON family the promise rejects
    with the syntax error exactly when the text of the request is not a
    JSON text (an empty text is none), and it resolves to the value
    [JSON.parse] reads from the text when that is a value of the model;
    under any other content type, or none, it resolves to the text itself
    as a string. *)
Theorem parseRequestBody_branches (request : Request) :
  req_headers request !! "content-length" <> Some "0" ->
  (typeIs (string_or_undefined
             (Headers_get (req_headers request) "content-type"))
          ["application/json"; "application/*+json"] = true ->
   (parseRequestBody request = Some (Throw SyntaxError) <->
    JSON_text (req_text request) = false) /\
   (forall v, JSON_parse (req_text request) = Some v ->
              parseRequestBody request = Some (Return v))) /\
  (typeIs (string_or_undefined
             (Headers_get (req_headers request) "content-type"))
          ["application/json"; "application/*+json"] = false ->
   parseRequestBody request = Some (Return (VStr (req_text request)))) /\
  JSON_text "" = false.
Proof.
  intros H. rewrite parseRequestBody_reads by exact H.
  split; [|split; [|reflexivity]].
  - intros ->. split.
    + unfold Request_json. destruct (JSON_text (req_text request)).
      * split; [|discriminate].
        destruct (JSON_parse (req_text request)); discriminate.
      * split; reflexivity.
    + apply Request_json_parsed.
  - intros ->. reflexivity.
Qed.

Lemma parseRequestBody_branches_witness :
  parseRequestBody json_post = Some (Return (VObj [("a", VNum 1)])) /\
  parseRequestBody malformed_json_post = Some (Throw SyntaxError) /\
  parseRequestBody request_code_20 = Some (Return (VStr "")).
Proof.
  assert (req_headers json_post !! "content-length" <> Some "0") as H1
    by (vm_compute; discriminate).
  assert (req_headers malformed_json_post !! "content-length" <> Some "0") as H2
    by (vm_compute; discriminate).
  assert (req_headers request_code_20 !! "content-length" <> Some "0") as H3
    by (vm_compute; discriminate).
  split; [|split].
  - apply (proj2 (proj1 (parseRequestBody_branches json_post H1) eq_refl)).
    reflexivity.
  - apply (proj1 (proj1 (parseRequestBody_branches malformed_json_post H2) eq_refl)).
    reflexivity.
  - apply (proj1 (proj2 (parseRequestBody_branches request_code_20 H3))).
    reflexivity.
Defined.

(** X16. What [serialize] writes under a JSON content type is read back by
    [parseRequestBody]: a request that carries the serialized text of a
    JSON-safe value under the same content type has that value as its
    normalized body. *)
Theorem serialize_parseRequestBody_roundtrip (payload : value) (ct : string)
  (request : Request) :
  json_safe payload = true ->
  typeIs (Some ct) ["application/json"; "application/*+json"] = true ->
  req_headers request !! "content-type" = Some ct ->
  req_headers request !! "content-length" <> Some "0" ->
  serialize payload (Some ct) = Return (SValue (VStr (req_text request))) ->
  parseRequestBody request = Some (Return payload).
Proof.
  intros Hsafe Hct Hh Hl Hser.
  rewrite parseRequestBody_reads by exact Hl.
  unfold Headers_get. change (toLowerCase "content-type") with "content-type".
  rewrite Hh. cbn [string_or_undefined]. rewrite Hct.
  destruct (JSON_parse_stringify payload Hsafe) as (s & Es & Hp).
  assert (req_text request = s) as Ht.
  { unfold serialize in Hser. rewrite (typeIs_truthy _ _ Hct) in Hser.
    cbn [negb andb] in Hser.
    destruct (find_json_serializer ct Hct) as (sr & Hf & Hs).
    rewrite Hf, Hs, Es in Hser. congruence. }
  apply Request_json_parsed. now rewrite Ht.
Qed.

Lemma serialize_parseRequestBody_roundtrip_witness :
  serialize (VObj [("a", VNum 1)]) (Some "application/json")
    = Return (SValue (VStr (req_text json_post))) /\
  parseRequestBody json_post = Some (Return (VObj [("a", VNum 1)])).
Proof.
  assert (serialize (VObj [("a", VNum 1)]) (Some "application/json")
          = Return (SValue (VStr (req_text json_post)))) as Hs by reflexivity.
  split; [exact Hs|].
  apply (serialize_parseRequestBody_roundtrip (VObj [("a", VNum 1)])
           "application/json" json_post); try reflexivity.
  vm_compute. discriminate.
Defined.

(** ** The query *)

Lemma fold_assign_lookup (f : string -> NameValue) (ks : list string)
  (params : gmap string NameValue) (key : string) :
  key <> "__proto__" ->
  fold_left (fun p k => assign_param p k (f k)) ks params !! key =
    if decide (key ∈ ks) then Some (f key) else params !! key.
Proof.
  intros Hkey. revert params.
  induction ks as [|k ks IH]; intros params; cbn [fold_left].
  - case_decide as H; [|reflexivity]. inversion H.
  - rewrite IH. destruct (decide (key ∈ ks)) as [Hin|Hin].
    + rewrite decide_True by (now right). reflexivity.
    + destruct (decide (key = k)) as [->|Hne].
      * rewrite decide_True by (now left). unfold assign_param.
        apply String.eqb_neq in Hkey. rewrite Hkey. apply lookup_insert_eq.
      * rewrite decide_False.
        -- unfold assign_param. destruct (String.eqb k "__proto__");
             [reflexivity | now apply lookup_insert_ne].
        -- intros H. inversion H; subst; contradiction.
Qed.



Lemma getAll_nil (sp : list (string * string)) (key : string) :
  URLSearchParams_getAll sp key = [] <-> key ∉ URLSearchParams_keys sp.
Proof.
  unfold URLSearchParams_getAll, URLSearchParams_keys.
  induction sp as [|[k v] sp IH]; cbn.
  - split; [intros _ H; inversion H | reflexivity].
  - destruct (String.eqb k key) eqn:E.
    + apply String.eqb_eq in E. subst. split; [discriminate|].
      intros H. exfalso. apply H. now left.
    + apply String.eqb_neq in E. rewrite IH. split.
      * intros H H'. inversion H'; subst; [congruence | contradiction].
      * intros H H'. apply H. now right.
Qed.

Lemma searchParams_lookup (searchParams : list (string * string)) (key : string) :
  key <> "__proto__" ->
  searchParamsToNameValues searchParams !! key =
    match URLSearchParams_getAll searchParams key with
    | [] => None
    | [v] => Some (One v)
    | values => Some (Many values)
    end.
Proof.
  intros Hkey. unfold searchParamsToNameValues.
  rewrite (fold_assign_lookup
             (fun k => scalar_or_list (URLSearchParams_getAll searchParams k)))
    by exact Hkey.
  destruct (decide (key ∈ URLSearchParams_keys searchParams)) as [Hin|Hin].
  - destruct (URLSearchParams_getAll searchParams key) as [|v [|w r]] eqn:E;
      try reflexivity.
    apply getAll_nil in E. contradiction.
  - apply getAll_nil in Hin. rewrite Hin. apply lookup_empty.
Qed.



Example query_one : searchParamsToNameValues [("a", "1")] !! "a" = Some (One "1").
Proof. vm_compute. reflexivity. Qed.

Example query_many :
  searchParamsToNameValues [("a", "1"); ("b", "x"); ("a", "2")] !! "a"
  = Some (Many ["1"; "2"]).
Proof. vm_compute. reflexivity. Qed.

(** ** Preferences *)

Lemma parseInt10_three_digits (a b c : ascii) :
  is_digit a && is_digit b && is_digit c = true ->
  parseInt10 (String a (String b (String c EmptyString)))
  = 100 * digit_value a + 10 * digit_value b + digit_value c.
Proof.
  intros H. apply andb_true_iff in H as [H Hc]. apply andb_true_iff in H as [Ha Hb].
  unfold parseInt10. cbn [parseInt_from]. rewrite Ha, Hb, Hc. lia.
Qed.

Lemma partial_property_undefined {A} (decode : value -> Either DecodeFailure A)
  (key : string) (i : gmap string value) :
  prop i key = VUndefined -> partial_property decode key i = Right None.
Proof. unfold partial_property. now intros ->. Qed.

Lemma partial_property_code_ok (i : gmap string value) (s : string) :
  prop i "code" = VStr s -> three_digits s = true ->
  partial_property (string_then IntegerFromString) "code" i
  = Right (Some (parseInt10 s)).
Proof.
  intros Hp Hd. unfold partial_property. rewrite Hp. cbn [string_then].
  unfold IntegerFromString. rewrite Hd. reflexivity.
Qed.

Lemma partial_property_code_bad (i : gmap string value) :
  prop i "code" <> VUndefined ->
  (forall s, prop i "code" = VStr s -> three_digits s = false) ->
  exists e, partial_property (string_then IntegerFromString) "code" i
            = Left [("code", e)].
Proof.
  intros Hp Hd. unfold partial_property.
  destruct (prop i "code") as [| |b|n|s|xs|ps] eqn:E; try congruence;
    cbn [string_then]; eauto.
  unfold IntegerFromString. rewrite (Hd s eq_refl). eauto.
Qed.

Lemma partial_property_right_absent {A} (decode : value -> Either DecodeFailure A)
  (key : string) (i : gmap string value) (r : option A) :
  partial_property decode key i = Right r ->
  prop i key = VUndefined -> r = None.
Proof.
  intros H Hu. rewrite partial_property_undefined in H by assumption.
  congruence.
Qed.

(** The decoder succeeds exactly when its three properties decode. *)
Lemma PreferencesDecoder_right (i : gmap string value) (p : Parsed) :
  PreferencesDecoder i = Right p <->
  partial_property (string_then IntegerFromString) "code" i
    = Right (parsed_code p) /\
  partial_property (string_then BooleanFromString) "dynamic" i
    = Right (parsed_dynamic p) /\
  partial_property (string_then (fun s => Right s)) "example" i
    = Right (parsed_example p).
Proof.
  unfold PreferencesDecoder.
  destruct (partial_property (string_then IntegerFromString) "code" i) as [ec|c];
  destruct (partial_property (string_then BooleanFromString) "dynamic" i) as [ed|d];
  destruct (partial_property (string_then (fun s => Right s)) "example" i) as [ee|e];
  split; try discriminate; try (intros (H1 & H2 & H3); discriminate).
  - intros H. injection H as <-. auto.
  - intros (H1 & H2 & H3). destruct p. cbn in *. congruence.
Qed.

Lemma PreferencesDecoder_left (i : gmap string value) (e : DecodeFailure) :
  partial_property (string_then IntegerFromString) "code" i = Left [("code", e)] ->
  exists errs, PreferencesDecoder i = Left (("code", e) :: errs).
Proof.
  intros H. unfold PreferencesDecoder. rewrite H.
  destruct (partial_property (string_then BooleanFromString) "dynamic" i);
  destruct (partial_property (string_then (fun s => Right s)) "example" i);
  cbn; eauto.
Qed.

(** The preferences of a request without a Prefer header come from the
    query. *)
Lemma preferences_of_query (parsePreferHeader : string -> gmap string value)
  (query : option (gmap string NameValue)) :
  prop (preferences_of parsePreferHeader (Some ∅) query) "code"
    = query_param query "__code" /\
  prop (preferences_of parsePreferHeader (Some ∅) query) "dynamic"
    = query_param query "__dynamic" /\
  prop (preferences_of parsePreferHeader (Some ∅) query) "example"
    = query_param query "__example".
Proof.
  unfold preferences_of. rewrite lookup_empty. cbn [truthy_str].
  unfold prop. repeat split; now simplify_map_eq.
Qed.

(** A code of three digits does not resolve when another preference is
    malformed: the request is rejected with 422. *)
Lemma three_digit_code_rejected :
  prop (preferences_of no_tokens (Some ∅) query_code_200_dynamic_maybe) "code"
    = VStr "200" /\
  three_digits "200" = true /\
  getHttpConfigFromRequest no_tokens (Some ∅) query_code_200_dynamic_maybe
    = Left (fromTemplate UNPROCESSABLE_ENTITY
              (DetailDraw [("dynamic", NotABoolean "maybe")]) None).
Proof. vm_compute. repeat split. Qed.

(** C5 (amended). Whatever the source of the preferences (the Prefer
    header or the query): a code of exactly three digits resolves to the
    number they write, provided the dynamic and example preferences decode
    too; a code that is present and is not a string of exactly three digits
    makes the resolution fail with the 422 problem UNPROCESSABLE_ENTITY; a
    preference that is absent stays absent in the result. *)
Theorem preferences_code_decoding
  (parsePreferHeader : string -> gmap string value)
  (headers : option (gmap string string))
  (query : option (gmap string NameValue)) :
  let preferences := preferences_of parsePreferHeader headers query in
  let result := getHttpConfigFromRequest parsePreferHeader headers query in
  (forall a b c dyn ex,
     prop preferences "code" = VStr (String a (String b (String c EmptyString))) ->
     is_digit a && is_digit b && is_digit c = true ->
     partial_property (string_then BooleanFromString) "dynamic" preferences
       = Right dyn ->
     partial_property (string_then (fun s => Right s)) "example" preferences
       = Right ex ->
     result = Right {| pref_code := Some (100 * digit_value a + 10 * digit_value b
                                          + digit_value c);
                       pref_exampleKey := ex;
                       pref_dynamic := dyn |}) /\
  (prop preferences "code" <> VUndefined ->
   (forall s, prop preferences "code" = VStr s -> three_digits s = false) ->
   exists detail,
     result = Left (fromTemplate UNPROCESSABLE_ENTITY detail None) /\
     err_status (fromTemplate UNPROCESSABLE_ENTITY detail None) = Some 422) /\
  (forall p, result = Right p ->
     (prop preferences "code" = VUndefined -> pref_code p = None) /\
     (prop preferences "dynamic" = VUndefined -> pref_dynamic p = None) /\
     (prop preferences "example" = VUndefined -> pref_exampleKey p = None)).
Proof.
  intros preferences result. subst result. unfold getHttpConfigFromRequest.
  fold preferences. split; [|split].
  - intros a b c dyn ex Hc Hd Hdyn Hex.
    assert (PreferencesDecoder preferences =
              Right {| parsed_code := Some (parseInt10 (String a (String b (String c EmptyString))));
                       parsed_dynamic := dyn; parsed_example := ex |}) as ->.
    { apply PreferencesDecoder_right. cbn [parsed_code parsed_dynamic parsed_example].
      split; [|split]; try assumption.
      apply partial_property_code_ok; [assumption|exact Hd]. }
    cbn [parsed_code parsed_dynamic parsed_example].
    now rewrite parseInt10_three_digits.
  - intros Hp Hd.
    destruct (partial_property_code_bad preferences Hp Hd) as [e He].
    destruct (PreferencesDecoder_left preferences e He) as [errs ->].
    eexists. split; reflexivity.
  - intros p Hr.
    destruct (PreferencesDecoder preferences) as [err|parsed] eqn:E; [discriminate|].
    injection Hr as <-. cbn [pref_code pref_dynamic pref_exampleKey].
    apply PreferencesDecoder_right in E as (Hc & Hd & He).
    repeat split; intros Hu;
      eapply partial_property_right_absent; eassumption.
Qed.

Lemma preferences_code_decoding_witness :
  getHttpConfigFromRequest no_tokens (Some ∅) query_code_200
    = Right {| pref_code := Some 200; pref_exampleKey := None;
               pref_dynamic := None |} /\
  exists detail,
    getHttpConfigFromRequest no_tokens (Some ∅) query_code_20
      = Left (fromTemplate UNPROCESSABLE_ENTITY detail None) /\
    err_status (fromTemplate UNPROCESSABLE_ENTITY detail None) = Some 422.
Proof.
  split.
  - exact (proj1 (preferences_code_decoding no_tokens (Some ∅) query_code_200)
             "2"%char "0"%char "0"%char None None eq_refl eq_refl eq_refl eq_refl).
  - apply (proj1 (proj2 (preferences_code_decoding no_tokens (Some ∅) query_code_20))).
    + vm_compute. discriminate.
    + intros s Hs. vm_compute in Hs. injection Hs as <-. reflexivity.
Defined.

(** ** Preferences: the other fields and the two sources *)

Lemma PreferencesDecoder_some_left (i : gmap string value) :
  (exists e, partial_property (string_then IntegerFromString) "code" i = Left e) \/
  (exists e, partial_property (string_then BooleanFromString) "dynamic" i = Left e) \/
  (exists e, partial_property (string_then (fun s => Right s)) "example" i = Left e) ->
  exists errs, PreferencesDecoder i = Left errs.
Proof.
  intros H. unfold PreferencesDecoder.
  destruct (partial_property (string_then IntegerFromString) "code" i) as [ec|c];
  destruct (partial_property (string_then BooleanFromString) "dynamic" i) as [ed|d];
  destruct (partial_property (string_then (fun s => Right s)) "example" i) as [ee|e];
  eauto.
  destruct H as [[x H]|[[x H]|[x H]]]; discriminate.
Qed.

Lemma getHttpConfig_left (parsePreferHeader : string -> gmap string value)
  (headers : option (gmap string string))
  (query : option (gmap string NameValue)) (errs : list (string * DecodeFailure)) :
  PreferencesDecoder (preferences_of parsePreferHeader headers query) = Left errs ->
  getHttpConfigFromRequest parsePreferHeader headers query
    = Left (fromTemplate UNPROCESSABLE_ENTITY (DetailDraw errs) None).
Proof. intros H. unfold getHttpConfigFromRequest. now rewrite H. Qed.

Lemma getHttpConfig_right (parsePreferHeader : string -> gmap string value)
  (headers : option (gmap string string))
  (query : option (gmap string NameValue)) (c : option Z) (d : option bool)
  (e : option string) :
  partial_property (string_then IntegerFromString) "code"
    (preferences_of parsePreferHeader headers query) = Right c ->
  partial_property (string_then BooleanFromString) "dynamic"
    (preferences_of parsePreferHeader headers query) = Right d ->
  partial_property (string_then (fun s => Right s)) "example"
    (preferences_of parsePreferHeader headers query) = Right e ->
  getHttpConfigFromRequest parsePreferHeader headers query
    = Right {| pref_code := c; pref_exampleKey := e; pref_dynamic := d |}.
Proof.
  intros Hc Hd He. unfold getHttpConfigFromRequest.
  assert (PreferencesDecoder (preferences_of parsePreferHeader headers query)
          = Right {| parsed_code := c; parsed_dynamic := d; parsed_example := e |})
    as ->.
  { apply PreferencesDecoder_right. auto. }
  reflexivity.
Qed.

Lemma partial_property_absent {A} (decode : value -> Either DecodeFailure A)
  (key : string) (i : gmap string value) :
  prop i key = VUndefined -> partial_property decode key i = Right None.
Proof. intros H. unfold partial_property. now rewrite H. Qed.

(** X7. Whatever the source of the preferences: a dynamic preference that
    is literally "true" or "false" resolves to that boolean, and an example
    preference that is a string resolves to the example key, each provided
    the other two preferences decode (in particular when they are absent);
    a dynamic preference that is present and is anything else, or an
    example preference that is present and is not a string, makes the
    resolution fail with the 422 problem. *)
Theorem preferences_dynamic_example_decoding
  (parsePreferHeader : string -> gmap string value)
  (headers : option (gmap string string))
  (query : option (gmap string NameValue)) :
  let preferences := preferences_of parsePreferHeader headers query in
  let result := getHttpConfigFromRequest parsePreferHeader headers query in
  (forall (b : bool) c e,
     prop preferences "dynamic" = VStr (if b then "true" else "false") ->
     partial_property (string_then IntegerFromString) "code" preferences = Right c ->
     partial_property (string_then (fun s => Right s)) "example" preferences
       = Right e ->
     result = Right {| pref_code := c; pref_exampleKey := e;
                       pref_dynamic := Some b |}) /\
  (forall (b : bool),
     prop preferences "dynamic" = VStr (if b then "true" else "false") ->
     prop preferences "code" = VUndefined ->
     prop preferences "example" = VUndefined ->
     result = Right {| pref_code := None; pref_exampleKey := None;
                       pref_dynamic := Some b |}) /\
  (forall s c d,
     prop preferences "example" = VStr s ->
     partial_property (string_then IntegerFromString) "code" preferences = Right c ->
     partial_property (string_then BooleanFromString) "dynamic" preferences
       = Right d ->
     result = Right {| pref_code := c; pref_exampleKey := Some s;
                       pref_dynamic := d |}) /\
  (forall s,
     prop preferences "example" = VStr s ->
     prop preferences "code" = VUndefined ->
     prop preferences "dynamic" = VUndefined ->
     result = Right {| pref_code := None; pref_exampleKey := Some s;
                       pref_dynamic := None |}) /\
  (prop preferences "dynamic" <> VUndefined ->
   prop preferences "dynamic" <> VStr "true" ->
   prop preferences "dynamic" <> VStr "false" ->
   exists detail,
     result = Left (fromTemplate UNPROCESSABLE_ENTITY detail None) /\
     err_status (fromTemplate UNPROCESSABLE_ENTITY detail None) = Some 422) /\
  (prop preferences "example" <> VUndefined ->
   (forall s, prop preferences "example" <> VStr s) ->
   exists detail,
     result = Left (fromTemplate UNPROCESSABLE_ENTITY detail None) /\
     err_status (fromTemplate UNPROCESSABLE_ENTITY detail None) = Some 422).
Proof.
  intros preferences result. subst result. fold preferences.
  assert (forall (b : bool),
            prop preferences "dynamic" = VStr (if b then "true" else "false") ->
            partial_property (string_then BooleanFromString) "dynamic" preferences
            = Right (Some b)) as Hdyn.
  { intros b Hd. unfold partial_property. rewrite Hd. destruct b; reflexivity. }
  assert (forall s,
            prop preferences "example" = VStr s ->
            partial_property (string_then (fun s => Right s)) "example" preferences
            = Right (Some s)) as Hex.
  { intros s He. unfold partial_property. rewrite He. reflexivity. }
  split; [|split; [|split; [|split; [|split]]]].
  - intros b c e Hd Hc He. apply getHttpConfig_right; fold preferences; auto.
  - intros b Hd Hc He. apply getHttpConfig_right; fold preferences; auto.
    + now apply partial_property_absent.
    + now apply partial_property_absent.
  - intros s c d He Hc Hd. apply getHttpConfig_right; fold preferences; auto.
  - intros s He Hc Hd. apply getHttpConfig_right; fold preferences; auto.
    + now apply partial_property_absent.
    + now apply partial_property_absent.
  - intros H1 H2 H3.
    destruct (PreferencesDecoder_some_left preferences) as [errs Herr].
    { right. left. unfold partial_property.
      destruct (prop preferences "dynamic") as [| |b|n|s|xs|ps] eqn:E;
        try congruence; cbn [string_then]; eauto.
      unfold BooleanFromString.
      destruct (String.eqb s "true") eqn:E1.
      { apply String.eqb_eq in E1. congruence. }
      destruct (String.eqb s "false") eqn:E2.
      { apply String.eqb_eq in E2. congruence. }
      eauto. }
    eexists. split; [apply getHttpConfig_left; exact Herr | reflexivity].
  - intros H1 H2.
    destruct (PreferencesDecoder_some_left preferences) as [errs Herr].
    { right. right. unfold partial_property.
      destruct (prop preferences "example") as [| |b|n|s|xs|ps] eqn:E;
        try congruence; try (exfalso; exact (H2 s E));
        cbn [string_then]; eauto. }
    eexists. split; [apply getHttpConfig_left; exact Herr | reflexivity].
Qed.

Lemma preferences_dynamic_example_decoding_witness :
  getHttpConfigFromRequest no_tokens (Some ∅) query_dynamic_true
    = Right {| pref_code := None; pref_exampleKey := None;
               pref_dynamic := Some true |} /\
  getHttpConfigFromRequest no_tokens (Some ∅) query_dynamic_example
    = Right {| pref_code := None; pref_exampleKey := Some "cat";
               pref_dynamic := Some true |} /\
  exists detail,
    getHttpConfigFromRequest no_tokens (Some ∅) query_dynamic_yes
      = Left (fromTemplate UNPROCESSABLE_ENTITY detail None) /\
    err_status (fromTemplate UNPROCESSABLE_ENTITY detail None) = Some 422.
Proof.
  split; [|split].
  - exact (proj1 (proj2 (preferences_dynamic_example_decoding no_tokens (Some ∅)
                           query_dynamic_true)) true eq_refl eq_refl eq_refl).
  - exact (proj1 (preferences_dynamic_example_decoding no_tokens (Some ∅)
                    query_dynamic_example) true None (Some "cat")
             eq_refl eq_refl eq_refl).
  - apply (proj1 (proj2 (proj2 (proj2 (proj2
             (preferences_dynamic_example_decoding no_tokens (Some ∅)
                query_dynamic_yes)))))); vm_compute; discriminate.
Defined.

(** X8. A Prefer header that is present and not empty takes precedence: the
    preferences are what the parser of the header reads and the resolution
    does not depend on the query.  Without such a header the preferences
    are the three query parameters __code, __dynamic and __example, and
    the resolution does not depend on the parser of the header. *)
Theorem prefer_header_precedence
  (parsePreferHeader : string -> gmap string value)
  (h : gmap string string) :
  (forall v query1 query2,
     h !! "prefer" = Some v -> v <> EmptyString ->
     getHttpConfigFromRequest parsePreferHeader (Some h) query1
     = getHttpConfigFromRequest parsePreferHeader (Some h) query2 /\
     preferences_of parsePreferHeader (Some h) query1 = parsePreferHeader v) /\
  (forall other_parser query,
     h !! "prefer" = None \/ h !! "prefer" = Some EmptyString ->
     getHttpConfigFromRequest parsePreferHeader (Some h) query
     = getHttpConfigFromRequest other_parser (Some h) query /\
     preferences_of parsePreferHeader (Some h) query
     = {[ "code" := query_param query "__code";
          "dynamic" := query_param query "__dynamic";
          "example" := query_param query "__example" ]} /\
     prop (preferences_of parsePreferHeader (Some h) query) "code"
     = query_param query "__code" /\
     prop (preferences_of parsePreferHeader (Some h) query) "dynamic"
     = query_param query "__dynamic" /\
     prop (preferences_of parsePreferHeader (Some h) query) "example"
     = query_param query "__example").
Proof.
  split.
  - intros v q1 q2 Hv Hne.
    assert (forall q, preferences_of parsePreferHeader (Some h) q
                      = parsePreferHeader v) as Hp.
    { intros q. unfold preferences_of. rewrite Hv. cbn [truthy_str from_option id].
      destruct v; [contradiction | reflexivity]. }
    split; [|apply Hp].
    unfold getHttpConfigFromRequest. now rewrite !Hp.
  - intros other q Hh.
    assert (forall p, preferences_of p (Some h) q
                      = {[ "code" := query_param q "__code";
                           "dynamic" := query_param q "__dynamic";
                           "example" := query_param q "__example" ]}) as Hp.
    { intros p. unfold preferences_of. destruct Hh as [-> | ->]; reflexivity. }
    split; [unfold getHttpConfigFromRequest; now rewrite !Hp|].
    split; [apply Hp|].
    rewrite Hp. unfold prop. repeat split; now simplify_map_eq.
Qed.

Lemma prefer_header_precedence_witness :
  getHttpConfigFromRequest parse_code_404 (Some prefer_headers) query_code_200
    = Right {| pref_code := Some 404; pref_exampleKey := None;
               pref_dynamic := None |} /\
  getHttpConfigFromRequest parse_code_404 (Some prefer_headers) query_code_200
    = getHttpConfigFromRequest parse_code_404 (Some prefer_headers) query_code_20.
Proof.
  split; [vm_compute; reflexivity|].
  apply (proj1 (prefer_header_precedence parse_code_404 prefer_headers)
           "code=404" query_code_200 query_code_20); [reflexivity | discriminate].
Defined.

Lemma digit_value_range (c : ascii) :
  is_digit c = true -> 0 <= digit_value c <= 9.
Proof.
  unfold is_digit, digit_value. intros H.
  apply andb_true_iff in H as [H1 H2].
  apply Nat.leb_le in H1, H2. lia.
Qed.

(** X9. A code that the resolution returns comes from a preference of
    exactly three decimal digits and lies between 0 and 999: codes below
    100 such as "000" are accepted, and no other length is. *)
Theorem resolved_code_range
  (parsePreferHeader : string -> gmap string value)
  (headers : option (gmap string string))
  (query : option (gmap string NameValue)) (p : RequestPreferences) (n : Z) :
  getHttpConfigFromRequest parsePreferHeader headers query = Right p ->
  pref_code p = Some n ->
  0 <= n <= 999 /\
  exists a b c,
    prop (preferences_of parsePreferHeader headers query) "code"
      = VStr (String a (String b (String c EmptyString))) /\
    is_digit a && is_digit b && is_digit c = true /\
    n = 100 * digit_value a + 10 * digit_value b + digit_value c.
Proof.
  unfold getHttpConfigFromRequest.
  set (preferences := preferences_of parsePreferHeader headers query).
  destruct (PreferencesDecoder preferences) as [err|parsed] eqn:E; [discriminate|].
  intros [= <-]. cbn [pref_code]. intros Hn.
  apply PreferencesDecoder_right in E as (Hc & _ & _). rewrite Hn in Hc.
  unfold partial_property in Hc.
  destruct (prop preferences "code") as [| |b|z|s|xs|ps] eqn:Ep;
    cbn [string_then] in Hc; try discriminate.
  unfold IntegerFromString in Hc.
  destruct (three_digits s) eqn:Hd; [|discriminate].
  injection Hc as Hc.
  destruct s as [|a [|b [|c [|x r]]]]; try discriminate.
  cbn [three_digits] in Hd. rewrite parseInt10_three_digits in Hc by exact Hd.
  pose proof Hd as Hd'.
  apply andb_true_iff in Hd' as [Hab Hc3]. apply andb_true_iff in Hab as [Ha Hb].
  pose proof (digit_value_range a Ha). pose proof (digit_value_range b Hb).
  pose proof (digit_value_range c Hc3).
  split; [lia|]. exists a, b, c. auto.
Qed.

Lemma resolved_code_range_witness :
  getHttpConfigFromRequest no_tokens (Some ∅) query_code_200
    = Right prefer_code_200 /\
  0 <= 200 <= 999.
Proof.
  assert (getHttpConfigFromRequest no_tokens (Some ∅) query_code_200
          = Right prefer_code_200) as H by (vm_compute; reflexivity).
  split; [exact H|].
  exact (proj1 (resolved_code_range no_tokens (Some ∅) query_code_200
                  prefer_code_200 200 H eq_refl)).
Defined.

(** ** The merge of the configuration in the store *)

Lemma fresh_lookup_None (σ : gmap positive cell) : σ !! fresh (dom σ) = None.
Proof. apply not_elem_of_dom, is_fresh. Qed.

Lemma fresh_ne (σ : gmap positive cell) (l : positive) :
  is_Some (σ !! l) -> l <> fresh (dom σ).
Proof.
  intros Hl ->. rewrite fresh_lookup_None in Hl. now destruct Hl.
Qed.

Lemma lodash_merge_run (σ : gmap positive cell) (object source : positive)
  (d s : gmap string prim) :
  σ !! object = Some (Dictionary d) ->
  σ !! source = Some (Dictionary s) ->
  lodash_merge object source σ =
    Some (tt, <[object := Dictionary
                 (map_fold (fun key v acc => assignMergeValue acc key v) d s)]> σ).
Proof.
  intros Ho Hs. unfold lodash_merge, bindS, read_dictionary, write.
  rewrite Ho, Hs. reflexivity.
Qed.

(** lodash/fp [merge] writes to its clone only. *)
Lemma merge_run (σ : gmap positive cell) (a b : positive)
  (da db : gmap string prim) :
  σ !! a = Some (Dictionary da) ->
  σ !! b = Some (Dictionary db) ->
  merge a b σ =
    Some (fresh (dom σ), <[fresh (dom σ) := Dictionary (merged da db)]> σ).
Proof.
  intros Ha Hb. unfold merge, bindS, alloc, ret.
  set (l := fresh (dom σ)).
  assert (a <> l) as Hal by (apply fresh_ne; rewrite Ha; eauto).
  assert (b <> l) as Hbl by (apply fresh_ne; rewrite Hb; eauto).
  rewrite (lodash_merge_run _ l a ∅ da)
    by (rewrite ?lookup_insert_eq, ?lookup_insert_ne by congruence; auto).
  rewrite (lodash_merge_run _ l b
             (map_fold (fun key v acc => assignMergeValue acc key v) ∅ da) db)
    by (rewrite ?lookup_insert_eq, ?lookup_insert_ne by congruence; auto).
  rewrite !insert_insert_eq. reflexivity.
Qed.

Lemma requestConfig_run (σ : gmap positive cell) (config : positive)
  (c : IHttpConfig) (d : gmap string prim)
  (operationSpecificConfig : RequestPreferences) :
  σ !! config = Some (ConfigObject c) ->
  σ !! mock c = Some (Dictionary d) ->
  let σ1 := <[fresh (dom σ) :=
                Dictionary (preferences_object operationSpecificConfig)]> σ in
  let σ2 := <[fresh (dom σ1) :=
                Dictionary (merged d (preferences_object operationSpecificConfig))]>
              σ1 in
  requestConfig config operationSpecificConfig σ =
    Some (fresh (dom σ2),
          <[fresh (dom σ2) := ConfigObject (with_mock c (fresh (dom σ1)))]> σ2).
Proof.
  intros Hc Hm σ1 σ2. unfold requestConfig, bindS, alloc, read_config.
  fold σ1.
  assert (config <> fresh (dom σ)) as Hcl by (apply fresh_ne; rewrite Hc; eauto).
  assert (mock c <> fresh (dom σ)) as Hml by (apply fresh_ne; rewrite Hm; eauto).
  assert (σ1 !! config = Some (ConfigObject c)) as ->
    by (subst σ1; now rewrite lookup_insert_ne).
  rewrite (merge_run σ1 (mock c) (fresh (dom σ)) d
             (preferences_object operationSpecificConfig)).
  - reflexivity.
  - subst σ1. now rewrite lookup_insert_ne.
  - subst σ1. now rewrite lookup_insert_eq.
Qed.

(** A reader of the baseline sees the same in a store that keeps the
    objects of the first. *)
Lemma observe_frame (σ σ' : gmap positive cell) (config : positive)
  (c : IHttpConfig) (d : gmap string prim) :
  σ !! config = Some (ConfigObject c) ->
  σ !! mock c = Some (Dictionary d) ->
  (forall l, is_Some (σ !! l) -> σ' !! l = σ !! l) ->
  observe config σ' = observe config σ.
Proof.
  intros Hc Hm Hframe. unfold observe.
  rewrite (Hframe config) by (rewrite Hc; eauto). rewrite Hc.
  rewrite (Hframe (mock c)) by (rewrite Hm; eauto). reflexivity.
Qed.

(** The run of [requestConfig]: two new objects, and the objects of the
    store kept as they were. *)
Lemma requestConfig_frame (σ : gmap positive cell)
  (config : positive) (c : IHttpConfig) (d : gmap string prim)
  (operationSpecificConfig : RequestPreferences) :
  σ !! config = Some (ConfigObject c) ->
  σ !! mock c = Some (Dictionary d) ->
  exists config' m' σ',
    requestConfig config operationSpecificConfig σ = Some (config', σ') /\
    (forall l, is_Some (σ !! l) -> σ' !! l = σ !! l) /\
    σ !! config' = None /\ σ !! m' = None /\
    σ' !! config' = Some (ConfigObject (with_mock c m')) /\
    σ' !! m' =
      Some (Dictionary (merged d (preferences_object operationSpecificConfig))).
Proof.
  intros Hc Hm.
  pose proof (requestConfig_run σ config c d operationSpecificConfig Hc Hm) as Hrun.
  cbv zeta in Hrun.
  set (l1 := fresh (dom σ)) in *.
  set (σ1 := <[l1 := Dictionary (preferences_object operationSpecificConfig)]> σ) in *.
  set (l2 := fresh (dom σ1)) in *.
  set (σ2 := <[l2 := Dictionary (merged d (preferences_object operationSpecificConfig))]> σ1) in *.
  set (l3 := fresh (dom σ2)) in *.
  assert (σ !! l1 = None) as H1 by apply fresh_lookup_None.
  assert (σ1 !! l2 = None) as H2 by apply fresh_lookup_None.
  assert (σ2 !! l3 = None) as H3 by apply fresh_lookup_None.
  assert (l2 <> l1) as H21.
  { intros E. rewrite E in H2. subst σ1. now rewrite lookup_insert_eq in H2. }
  assert (σ !! l2 = None) as H2'.
  { subst σ1. now rewrite lookup_insert_ne in H2. }
  assert (l3 <> l2) as H32.
  { intros E. rewrite E in H3. subst σ2. now rewrite lookup_insert_eq in H3. }
  assert (σ1 !! l3 = None) as H3'.
  { subst σ2. now rewrite lookup_insert_ne in H3. }
  assert (l3 <> l1) as H31.
  { intros E. rewrite E in H3'. subst σ1. now rewrite lookup_insert_eq in H3'. }
  assert (σ !! l3 = None) as H3''.
  { subst σ1. now rewrite lookup_insert_ne in H3'. }
  exists l3, l2, (<[l3 := ConfigObject (with_mock c l2)]> σ2).
  split; [exact Hrun|]. split.
  { intros l [x Hl]. subst σ2 σ1. rewrite !lookup_insert_ne; congruence. }
  split; [exact H3''|]. split; [exact H2'|]. split.
  - apply lookup_insert_eq.
  - subst σ2. rewrite lookup_insert_ne by congruence. apply lookup_insert_eq.
Qed.

(** C9. Building the configuration of a request from the baseline and the
    preferences leaves every object of the store as it was, in particular
    the baseline configuration object and its [mock] object: a reader of
    the baseline sees the same before and after.  The merged configuration
    and its [mock] object are new objects. *)
Theorem requestConfig_preserves_baseline (σ : gmap positive cell)
  (config : positive) (c : IHttpConfig) (d : gmap string prim)
  (operationSpecificConfig : RequestPreferences) :
  σ !! config = Some (ConfigObject c) ->
  σ !! mock c = Some (Dictionary d) ->
  exists config' m' σ',
    requestConfig config operationSpecificConfig σ = Some (config', σ') /\
    (forall l, is_Some (σ !! l) -> σ' !! l = σ !! l) /\
    observe config σ' = observe config σ /\
    σ' !! config = Some (ConfigObject c) /\
    σ' !! mock c = Some (Dictionary d) /\
    σ !! config' = None /\ σ !! m' = None /\
    σ' !! config' = Some (ConfigObject (with_mock c m')) /\
    σ' !! m' =
      Some (Dictionary (merged d (preferences_object operationSpecificConfig))).
Proof.
  intros Hc Hm.
  destruct (requestConfig_frame σ config c d operationSpecificConfig Hc Hm)
    as (config' & m' & σ' & Hrun & Hframe & Hfc & Hfm & Hc' & Hm').
  exists config', m', σ'.
  split; [exact Hrun|]. split; [exact Hframe|]. split.
  { exact (observe_frame σ σ' config c d Hc Hm Hframe). }
  split.
  { rewrite (Hframe config) by (rewrite Hc; eauto). exact Hc. }
  split.
  { rewrite (Hframe (mock c)) by (rewrite Hm; eauto). exact Hm. }
  auto.
Qed.

Lemma requestConfig_preserves_baseline_witness :
  main_store !! 1%positive = Some (ConfigObject lenient) /\
  main_store !! mock lenient = Some (Dictionary {[ "dynamic" := PBool false ]}) /\
  exists config' m' σ',
    requestConfig 1 prefer_code_200 main_store = Some (config', σ') /\
    observe 1 σ' = observe 1 main_store /\
    σ' !! m' = Some (Dictionary (merged {[ "dynamic" := PBool false ]}
                                        (preferences_object prefer_code_200))).
Proof.
  split; [reflexivity|]. split; [reflexivity|].
  destruct (requestConfig_preserves_baseline main_store 1 lenient
              {[ "dynamic" := PBool false ]} prefer_code_200 eq_refl eq_refl)
    as (config' & m' & σ' & Hrun & _ & Hobs & _ & _ & _ & _ & _ & Hm').
  exists config', m', σ'. auto.
Defined.

(** The members of the merged [mock] object of the sample request. *)
Example merged_sample :
  merged {[ "dynamic" := PBool false ]} (preferences_object prefer_code_200)
  = {[ "dynamic" := PBool false; "code" := PNum 200;
       "exampleKey" := PUndefined ]}.
Proof. vm_compute. reflexivity. Qed.

(** ** The merged configuration *)

Lemma prim_eq_eq (a b : prim) : prim_eq a b = true -> a = b.
Proof.
  destruct a, b; cbn; try discriminate; intros H; try reflexivity.
  - apply Bool.eqb_prop in H. now subst.
  - apply Z.eqb_eq in H. now subst.
  - apply String.eqb_eq in H. now subst.
Qed.

Lemma assignMergeValue_lookup (object : gmap string prim) (key : string)
  (v : prim) (j : string) :
  assignMergeValue object key v !! j =
    if decide (j = key) then merged_member (object !! key) (Some v)
    else object !! j.
Proof.
  unfold assignMergeValue.
  destruct (decide (j = key)) as [->|Hne].
  - destruct v; cbn [merged_member].
    + destruct (object !! key) eqn:E; [exact E | apply lookup_insert_eq].
    + destruct (prim_eq _ _) eqn:E; [|apply lookup_insert_eq].
      apply prim_eq_eq in E. destruct (object !! key); cbn in E; congruence.
    + destruct (prim_eq _ _) eqn:E; [|apply lookup_insert_eq].
      apply prim_eq_eq in E. destruct (object !! key); cbn in E; congruence.
    + destruct (prim_eq _ _) eqn:E; [|apply lookup_insert_eq].
      apply prim_eq_eq in E. destruct (object !! key); cbn in E; congruence.
  - destruct v.
    + destruct (object !! key); [reflexivity | now apply lookup_insert_ne].
    + destruct (prim_eq _ _); [reflexivity | now apply lookup_insert_ne].
    + destruct (prim_eq _ _); [reflexivity | now apply lookup_insert_ne].
    + destruct (prim_eq _ _); [reflexivity | now apply lookup_insert_ne].
Qed.

Lemma merged_member_absent (baseline : option prim) :
  merged_member baseline None = baseline.
Proof. reflexivity. Qed.

(** [_.merge(object, source)], key by key *)
Lemma lodash_merge_lookup (object source : gmap string prim) (j : string) :
  map_fold (fun key v acc => assignMergeValue acc key v) object source !! j
  = merged_member (object !! j) (source !! j).
Proof.
  revert j.
  apply (map_fold_weak_ind
           (fun r m => forall j, r !! j = merged_member (object !! j) (m !! j))).
  - intros j. now rewrite lookup_empty.
  - intros i x m r Hi IH j. rewrite assignMergeValue_lookup.
    destruct (decide (j = i)) as [->|Hne].
    + rewrite IH, Hi, merged_member_absent. now rewrite lookup_insert_eq.
    + rewrite IH. now rewrite lookup_insert_ne.
Qed.

Lemma merged_lookup (d p : gmap string prim) (j : string) :
  merged d p !! j = merged_member (d !! j) (p !! j).
Proof.
  unfold merged. rewrite !lodash_merge_lookup, lookup_empty.
  destruct (d !! j) as [[]|]; reflexivity.
Qed.

(** X10. The configuration of a request has the flags of the baseline, and
    its [mock] object is the [mock] object of the baseline in which every
    preference that is defined replaces the member of the same name; a
    preference that is absent leaves the member of the baseline (or gives
    the key the value [undefined] when the baseline has none), and the
    members the preferences do not name are those of the baseline. *)
Theorem requestConfig_mock_members (σ : gmap positive cell)
  (config : positive) (c : IHttpConfig) (d : gmap string prim)
  (operationSpecificConfig : RequestPreferences) :
  σ !! config = Some (ConfigObject c) ->
  σ !! mock c = Some (Dictionary d) ->
  exists config' m' σ' members,
    requestConfig config operationSpecificConfig σ = Some (config', σ') /\
    σ' !! config' = Some (ConfigObject (with_mock c m')) /\
    errors (with_mock c m') = errors c /\
    σ' !! m' = Some (Dictionary members) /\
    (forall n, pref_code operationSpecificConfig = Some n ->
               members !! "code" = Some (PNum n)) /\
    (forall s, pref_exampleKey operationSpecificConfig = Some s ->
               members !! "exampleKey" = Some (PStr s)) /\
    (forall b, pref_dynamic operationSpecificConfig = Some b ->
               members !! "dynamic" = Some (PBool b)) /\
    (pref_code operationSpecificConfig = None ->
     members !! "code" = Some (default PUndefined (d !! "code"))) /\
    (pref_exampleKey operationSpecificConfig = None ->
     members !! "exampleKey" = Some (default PUndefined (d !! "exampleKey"))) /\
    (pref_dynamic operationSpecificConfig = None ->
     members !! "dynamic" = Some (default PUndefined (d !! "dynamic"))) /\
    (forall k, k <> "code" -> k <> "exampleKey" -> k <> "dynamic" ->
               members !! k = d !! k).
Proof.
  intros Hc Hm.
  destruct (requestConfig_frame σ config c d operationSpecificConfig Hc Hm)
    as (config' & m' & σ' & Hrun & _ & _ & _ & Hc' & Hm').
  exists config', m', σ',
    (merged d (preferences_object operationSpecificConfig)).
  split; [exact Hrun|]. split; [exact Hc'|]. split; [reflexivity|].
  split; [exact Hm'|].
  destruct operationSpecificConfig as [pc pe pd].
  cbn [pref_code pref_exampleKey pref_dynamic].
  repeat split.
  - intros n ->. rewrite merged_lookup. unfold preferences_object.
    cbn [pref_code]. now simplify_map_eq.
  - intros s ->. rewrite merged_lookup. unfold preferences_object.
    cbn [pref_exampleKey]. now simplify_map_eq.
  - intros b ->. rewrite merged_lookup. unfold preferences_object.
    cbn [pref_dynamic]. now simplify_map_eq.
  - intros ->. rewrite merged_lookup. unfold preferences_object.
    cbn [pref_code]. simplify_map_eq. cbn [merged_member].
    destruct (d !! "code"); reflexivity.
  - intros ->. rewrite merged_lookup. unfold preferences_object.
    cbn [pref_exampleKey]. simplify_map_eq. cbn [merged_member].
    destruct (d !! "exampleKey"); reflexivity.
  - intros ->. rewrite merged_lookup. unfold preferences_object.
    cbn [pref_dynamic]. simplify_map_eq. cbn [merged_member].
    destruct (d !! "dynamic"); reflexivity.
  - intros k H1 H2 H3. rewrite merged_lookup. unfold preferences_object.
    now simplify_map_eq.
Qed.

Lemma requestConfig_mock_members_witness :
  exists config' m' σ' members,
    requestConfig 1 prefer_code_200 main_store = Some (config', σ') /\
    σ' !! m' = Some (Dictionary members) /\
    members !! "code" = Some (PNum 200) /\
    members !! "dynamic" = Some (PBool false).
Proof.
  destruct (requestConfig_mock_members main_store 1 lenient
              {[ "dynamic" := PBool false ]} prefer_code_200 eq_refl eq_refl)
    as (config' & m' & σ' & members & Hrun & _ & _ & Hm & Hcode & _ & _ & _ & _
        & Hdyn & _).
  exists config', m', σ', members.
  split; [exact Hrun|]. split; [exact Hm|]. split.
  - exact (Hcode 200 eq_refl).
  - exact (Hdyn eq_refl).
Defined.

(** ** Headers: what [set] stores *)


Lemma header_entry_valid (name v : string) :
  is_header_name name = true -> is_header_value (normalize_value v) = true ->
  header_entry name v = Return (toLowerCase name, normalize_value v).
Proof. intros Hn Hv. unfold header_entry. now rewrite Hn, Hv. Qed.


Lemma Headers_set_valid (h : gmap string string) (name v : string) :
  is_header_name name = true -> is_header_value (normalize_value v) = true ->
  Headers_set h name v = Return (<[toLowerCase name := normalize_value v]> h).
Proof.
  intros Hn Hv. unfold Headers_set. now rewrite header_entry_valid.
Qed.



Lemma Headers_get_insert (h : gmap string string) (name v : string) :
  Headers_get (<[toLowerCase name := v]> h) name = VStr v.
Proof. unfold Headers_get. now rewrite lookup_insert_eq. Qed.

Lemma Headers_get_insert_ne (h : gmap string string) (key name v : string) :
  toLowerCase name <> key ->
  Headers_get (<[key := v]> h) name = Headers_get h name.
Proof. intros H. unfold Headers_get. now rewrite lookup_insert_ne by congruence. Qed.

(** *** The white space around a value *)




Lemma all_chars_drop_while (q p : ascii -> bool) (s : string) :
  all_chars q s = true -> all_chars q (drop_while p s) = true.
Proof.
  induction s as [|c r IH]; [reflexivity|]. cbn [drop_while all_chars].
  intros H. apply andb_true_iff in H as [Hc Hr].
  destruct (p c); [now apply IH|]. cbn [all_chars]. now rewrite Hc, Hr.
Qed.

Lemma all_chars_drop_end (q p : ascii -> bool) (s : string) :
  all_chars q s = true -> all_chars q (drop_end p s) = true.
Proof.
  induction s as [|c r IH]; [reflexivity|]. cbn [drop_end all_chars].
  intros H. apply andb_true_iff in H as [Hc Hr]. specialize (IH Hr).
  destruct (drop_end p r) as [|c' r'].
  - destruct (p c); [reflexivity|]. cbn [all_chars]. now rewrite Hc.
  - cbn [all_chars] in *. now rewrite Hc, IH.
Qed.

Lemma all_chars_normalize_value (q : ascii -> bool) (v : string) :
  all_chars q v = true -> all_chars q (normalize_value v) = true.
Proof.
  intros H. unfold normalize_value.
  now apply all_chars_drop_end, all_chars_drop_while.
Qed.

Lemma all_chars_weaken (p q : ascii -> bool) (s : string) :
  (forall c, p c = true -> q c = true) ->
  all_chars p s = true -> all_chars q s = true.
Proof.
  intros Hpq. induction s as [|c r IH]; [reflexivity|]. cbn [all_chars].
  intros H. apply andb_true_iff in H as [Hc Hr]. now rewrite (Hpq c Hc), IH.
Qed.

(** a text without a character below the space is a header value *)
Lemma above_controls_header_value (v : string) :
  above_controls v = true -> is_header_value (normalize_value v) = true.
Proof.
  intros H. unfold is_header_value. apply all_chars_normalize_value.
  revert H. apply all_chars_weaken. intros c Hc.
  destruct c as [[] [] [] [] [] [] [] []]; try discriminate Hc; reflexivity.
Qed.




(** *** The text of [JSON.stringify] has no character below the space *)


Lemma above_controls_append (a b : string) :
  above_controls (a +:+ b) = above_controls a && above_controls b.
Proof.
  unfold above_controls. induction a as [|c a IH]; [reflexivity|].
  rewrite append_cons. cbn [all_chars]. now rewrite IH, andb_assoc.
Qed.

Lemma above_controls_substring0 (n : nat) (s : string) :
  above_controls s = true -> above_controls (substring 0 n s) = true.
Proof.
  unfold above_controls. revert s. induction n as [|n IH]; intros s H.
  - destruct s; reflexivity.
  - destruct s as [|c r]; [reflexivity|]. cbn [substring all_chars] in *.
    apply andb_true_iff in H as [Hc Hr]. now rewrite Hc, IH.
Qed.

Lemma above_controls_quote_char (c : ascii) : above_controls (quote_char c) = true.
Proof. destruct c as [[] [] [] [] [] [] [] []]; reflexivity. Qed.

Lemma above_controls_quote (s : string) : above_controls (quote s) = true.
Proof.
  unfold quote. change (String dquote ?x) with (String dquote "" +:+ x).
  rewrite !above_controls_append.
  assert (above_controls (quote_chars s) = true) as ->.
  { induction s as [|c s IH]; [reflexivity|]. cbn [quote_chars].
    now rewrite above_controls_append, above_controls_quote_char, IH. }
  reflexivity.
Qed.

Lemma above_controls_uint (d : Decimal.uint) :
  above_controls (NilEmpty.string_of_uint d) = true.
Proof.
  unfold above_controls.
  induction d; cbn [NilEmpty.string_of_uint all_chars]; try reflexivity;
    rewrite IHd; reflexivity.
Qed.

Lemma above_controls_number (n : Z) : above_controls (number_to_string n) = true.
Proof.
  unfold number_to_string.
  destruct n as [|p|p]; cbn [Z.to_int NilZero.string_of_int]; [reflexivity| |].
  - destruct (to_uint_head p) as [Hn _].
    rewrite string_of_uint_nonnil by assumption. apply above_controls_uint.
  - destruct (to_uint_head p) as [Hn _].
    rewrite string_of_uint_nonnil by assumption.
    change (String "-" ?x) with ("-" +:+ x).
    now rewrite above_controls_append, above_controls_uint.
Qed.

Lemma above_controls_join (l : list string) :
  Forall (fun s => above_controls s = true) l -> above_controls (join "," l) = true.
Proof.
  induction 1 as [|x l Hx Hl IH]; [reflexivity|].
  destruct l as [|y l']; [exact Hx|].
  change (join "," (x :: y :: l')) with (x +:+ "," +:+ join "," (y :: l')).
  now rewrite !above_controls_append, Hx, IH.
Qed.

Lemma above_controls_stringify (v : value) :
  forall s, JSON_stringify v = Some s -> above_controls s = true.
Proof.
  induction v as [| |b|n|str|xs IH|ps IH] using value_induction; intros s Hs.
  - discriminate.
  - injection Hs as <-. reflexivity.
  - destruct b; injection Hs as <-; reflexivity.
  - injection Hs as <-. apply above_controls_number.
  - injection Hs as <-. apply above_controls_quote.
  - rewrite JSON_stringify_array in Hs. injection Hs as <-.
    rewrite !above_controls_append, above_controls_join; [reflexivity|].
    induction IH as [|x r Hx Hr IHr]; cbn [stringify_elems]; constructor;
      [|exact IHr].
    destruct (JSON_stringify x) as [sx|]; [now apply Hx | reflexivity].
  - rewrite JSON_stringify_object in Hs. injection Hs as <-.
    rewrite !above_controls_append, above_controls_join; [reflexivity|].
    induction IH as [|[k x] r Hx Hr IHr]; cbn [stringify_members];
      [constructor|].
    cbn [snd] in Hx. destruct (JSON_stringify x) as [sx|]; [|exact IHr].
    constructor; [|exact IHr].
    now rewrite !above_controls_append, above_controls_quote, (Hx sx eq_refl).
Qed.

(** *** [addViolationHeader] *)


Lemma violations_encoding (validationErrors : list ValidationError) :
  JSON_stringify (VArr (map ValidationError_value validationErrors))
  = Some ("[" +:+ join "," (stringify_elems
                              (map ValidationError_value validationErrors)) +:+ "]").
Proof. apply JSON_stringify_array. Qed.

Lemma above_controls_violations_value (validationErrors : list ValidationError) :
  above_controls (violations_value validationErrors) = true.
Proof.
  unfold violations_value.
  destruct (JSON_stringify (VArr (map ValidationError_value validationErrors)))
    as [encoding|] eqn:E; [|rewrite violations_encoding in E; discriminate].
  cbn [from_option id]. apply above_controls_stringify in E.
  destruct (MAX_SAFE_HEADER_LENGTH <? String.length encoding)%nat; [|exact E].
  rewrite above_controls_append. unfold substring0.
  now rewrite above_controls_substring0.
Qed.

(** [addViolationHeader] never throws: the value it sets is a header
    value. *)
Lemma addViolationHeader_returns (replyHeaders : gmap string string)
  (validationErrors : list ValidationError) :
  addViolationHeader replyHeaders validationErrors
  = Return (reply_headers replyHeaders validationErrors).
Proof.
  destruct validationErrors as [|e es]; [reflexivity|].
  unfold addViolationHeader, reply_headers. fold (violations_value (e :: es)).
  apply (Headers_set_valid replyHeaders "sl-violations"); [reflexivity|].
  apply above_controls_header_value, above_controls_violations_value.
Qed.

Lemma reply_headers_other (h : gmap string string)
  (errs : list ValidationError) (name : string) :
  toLowerCase name <> "sl-violations" ->
  Headers_get (reply_headers h errs) name = Headers_get h name.
Proof.
  intros Hne. destruct errs as [|e es]; [reflexivity|].
  unfold reply_headers. now apply Headers_get_insert_ne.
Qed.

Lemma reply_headers_value (h : gmap string string) (errs : list ValidationError) :
  errs <> [] ->
  Headers_get (reply_headers h errs) "sl-violations"
  = VStr (normalize_value (violations_value errs)).
Proof.
  intros Hne. destruct errs as [|e es]; [contradiction|].
  unfold reply_headers. apply (Headers_get_insert h "sl-violations").
Qed.

(** ** The response: what the host makes of a status and a body *)

Lemma unsigned_short_small (status : Z) :
  0 <= status < 65536 -> unsigned_short status = status.
Proof. intros H. unfold unsigned_short. now apply Z.mod_small. Qed.

Lemma response_header_list_lookup {host : Host} (h : gmap string string)
  (k : string) :
  k <> "set-cookie" -> k <> "set-cookie2" ->
  response_header_list h !! k = h !! k.
Proof.
  intros H1 H2. unfold response_header_list.
  destruct forbids_response_headers; [|reflexivity].
  now rewrite !lookup_delete_ne by congruence.
Qed.


Lemma response_header_list_problem {host : Host} (v : string) :
  response_header_list {[ "content-type" := v ]} = {[ "content-type" := v ]}.
Proof.
  unfold response_header_list. destruct forbids_response_headers; [|reflexivity].
  rewrite (delete_id _ "set-cookie") by now rewrite lookup_singleton_ne.
  apply delete_id. now rewrite lookup_singleton_ne.
Qed.


Lemma initialize_response_ok {host : Host} (body : ResponseBody)
  (body_type : option string) (h : gmap string string) (status : Z) :
  200 <= status <= 599 ->
  (body_type <> None -> is_null_body_status status = false) ->
  initialize_response body body_type h status =
    Return {| res_status := status;
              res_headers :=
                match body_type, h !! "content-type" with
                | Some type, None =>
                    <["content-type" := type]> (response_header_list h)
                | _, _ => response_header_list h
                end;
              res_body := body |}.
Proof.
  intros Hr Hn. unfold initialize_response.
  rewrite unsigned_short_small by lia.
  assert ((200 <=? status) && (status <=? 599) = true) as ->.
  { apply andb_true_iff. split; apply Z.leb_le; lia. }
  cbn [negb]. cbv zeta. rewrite response_header_list_lookup by discriminate.
  destruct body_type as [type|]; [|reflexivity].
  rewrite Hn by discriminate. destruct (h !! "content-type"); reflexivity.
Qed.



(** ** The callback of the pipeline, step by step *)


Lemma filter_error_entries (prefix : string) (ds : list IPrismDiagnostic) :
  List.filter (fun v => String.eqb (severity v) (DiagnosticSeverity_name Error))
              (map (createErrorObjectWithPrefix prefix) ds)
  = map (createErrorObjectWithPrefix prefix) (List.filter is_error ds).
Proof.
  induction ds as [|d ds IH]; [reflexivity|].
  cbn [map List.filter]. rewrite IH.
  destruct d as [p sv c m]. destruct sv; reflexivity.
Qed.


Lemma filter_error_none (ds : list IPrismDiagnostic) :
  (forall d, In d ds -> diag_severity d <> Error) ->
  List.filter is_error ds = [].
Proof.
  induction ds as [|d ds IH]; intros H; [reflexivity|].
  cbn [List.filter]. unfold is_error at 1.
  destruct (diag_severity d) eqn:E.
  - exfalso. apply (H d); [now left | exact E].
  - apply IH. intros x Hx. apply H. now right.
  - apply IH. intros x Hx. apply H. now right.
  - apply IH. intros x Hx. apply H. now right.
Qed.

(** whether the strict mode returns its failure *)
Lemma strict_condition (config : IHttpConfig) (response : IPrismOutput) :
  (0 <? length (violations_of response))%nat && errors config
  && (0 <? length (List.filter
                     (fun v => String.eqb (severity v) (DiagnosticSeverity_name Error))
                     (map (createErrorObjectWithPrefix "response")
                          (validations_output response))))%nat
  = errors config
    && (0 <? length (List.filter is_error (validations_output response)))%nat.
Proof.
  rewrite filter_error_entries, length_map. unfold violations_of.
  rewrite length_app, !length_map.
  destruct (errors config); [|now rewrite andb_false_r].
  rewrite andb_true_r. cbn [andb].
  destruct (0 <? length (List.filter is_error (validations_output response)))%nat
    eqn:E; [|apply andb_false_r].
  rewrite andb_true_r. apply Nat.ltb_lt. apply Nat.ltb_lt in E.
  pose proof (filter_length_le is_error (validations_output response)). lia.
Qed.

Lemma synthesize_unfold {host : Host} (config : IHttpConfig) (response : IPrismOutput)
  (h : gmap string string) :
  new_Headers (default [] (out_headers (output response))) = Return h ->
  synthesize config response =
    if errors config
       && (0 <? length (List.filter is_error (validations_output response)))%nat
    then Return (Left (violations_failure (errorViolations_of response)))
    else
      let! body := serialize (out_body (output response))
                     (string_or_undefined (Headers_get h "content-type")) in
      let! res := new_Response body (reply_headers h (violations_of response))
                    (statusCode (output response)) in
      Return (Right res).
Proof.
  intros H. unfold synthesize. rewrite H. cbn [bindR].
  fold (violations_of response).
  assert ((if (0 <? length (violations_of response))%nat
           then addViolationHeader h (violations_of response)
           else Return h)
          = Return (reply_headers h (violations_of response))) as ->.
  { rewrite addViolationHeader_returns.
    destruct (violations_of response); reflexivity. }
  cbn [bindR]. rewrite strict_condition.
  rewrite reply_headers_other by (vm_compute; discriminate).
  rewrite filter_error_entries. reflexivity.
Qed.


Lemma synthesize_lenient {host : Host} (config : IHttpConfig) (response : IPrismOutput)
  (h : gmap string string) :
  errors config = false \/
  (forall d, In d (validations_output response) -> diag_severity d <> Error) ->
  new_Headers (default [] (out_headers (output response))) = Return h ->
  synthesize config response =
    let! body := serialize (out_body (output response))
                   (string_or_undefined (Headers_get h "content-type")) in
    let! res := new_Response body (reply_headers h (violations_of response))
                  (statusCode (output response)) in
    Return (Right res).
Proof.
  intros H Hh. rewrite (synthesize_unfold _ _ h Hh).
  destruct H as [->|H]; [reflexivity|].
  rewrite (filter_error_none _ H). now rewrite andb_false_r.
Qed.





(** ** The error translator, step by step *)







Lemma errorResponse_headers_unfold (e : JsError) :
  errorResponse_headers e =
    Headers_set_all (additional_headers e)
      {[ "content-type" := "application/problem+json" ]}.
Proof. reflexivity. Qed.


(** the problem response of a failure without headers of its own and with
    a status from 200 to 599 that allows a body *)
Lemma errorResponse_plain {host : Host} (e : JsError) (status : Z) :
  additional_headers e = [] ->
  err_status e = Some status -> 200 <= status <= 599 ->
  is_null_body_status status = false ->
  errorResponse e =
    Return {| res_status := status;
              res_headers := {[ "content-type" := "application/problem+json" ]};
              res_body := BodyJson (toProblemJson e) |}.
Proof.
  intros Ha Hs Hr Hn. unfold errorResponse.
  rewrite errorResponse_headers_unfold, Ha. cbn [Headers_set_all bindR].
  unfold Response_json. rewrite Hs. cbn [status_or_500].
  assert ((status =? 0) = false) as -> by (apply Z.eqb_neq; lia).
  rewrite initialize_response_ok by (auto || lia).
  rewrite lookup_singleton_eq. now rewrite response_header_list_problem.
Qed.

Lemma respond_Left {host : Host} (config : IHttpConfig) (e : JsError) :
  respond config (Return (Left e)) = errorResponse e.
Proof. reflexivity. Qed.
(** ** The violations header *)



(** ** The violations header: its size and its characters *)



(** X12. [addViolationHeader] never throws: whatever the locations, codes
    and messages of the violations contain, the value it hands to
    [Headers.set] has no character below the space ([JSON.stringify]
    escapes them), hence no NUL, no line feed and no carriage return, and
    the host accepts it as a header value. *)
Theorem addViolationHeader_never_throws (replyHeaders : gmap string string)
  (validationErrors : list ValidationError) :
  above_controls (violations_value validationErrors) = true /\
  is_header_value (normalize_value (violations_value validationErrors)) = true /\
  exists headers,
    addViolationHeader replyHeaders validationErrors = Return headers /\
    (validationErrors <> [] ->
     Headers_get headers "sl-violations"
       = VStr (normalize_value (violations_value validationErrors))).
Proof.
  split; [apply above_controls_violations_value|].
  split; [apply above_controls_header_value, above_controls_violations_value|].
  exists (reply_headers replyHeaders validationErrors).
  split; [apply addViolationHeader_returns | apply reply_headers_value].
Qed.

Lemma addViolationHeader_never_throws_witness :
  exists headers v,
    addViolationHeader ∅ multiline_violations = Return headers /\
    Headers_get headers "sl-violations" = VStr v /\
    is_header_value v = true.
Proof.
  destruct (addViolationHeader_never_throws ∅ multiline_violations)
    as (_ & Hv & headers & Hr & Hg).
  exists headers. eexists. split; [exact Hr|].
  split; [apply Hg; discriminate | exact Hv].
Defined.
(** ** The strict mode *)




(** ** The error translator *)



(** ** Exceptions of the serializer *)

(** X1. In the lenient mode an exception of [serialize] is the rejection of
    the promise [fetch] returns: the error translator does not see it, and
    no problem response is made of it. *)
Theorem serialize_exception_rejects {host : Host} (config : IHttpConfig)
  (response : IPrismOutput) (h : gmap string string) (e : JsError) :
  errors config = false ->
  new_Headers (default [] (out_headers (output response))) = Return h ->
  serialize (out_body (output response))
    (string_or_undefined (Headers_get h "content-type")) = Throw e ->
  respond config (Return (Right response)) = Throw e.
Proof.
  intros He Hh Hs. unfold respond. cbn [bindR].
  rewrite (synthesize_lenient config response h) by auto.
  rewrite Hs. reflexivity.
Qed.

Lemma serialize_exception_rejects_witness :
  respond lenient (Return (Right (plain_output (VObj [("a", VNum 1)]))))
    = Throw (new_Error "Cannot find serializer for undefined") /\
  respond lenient (Return (Right text_output)) = Throw NO_COMPLEX_OBJECT_TEXT.
Proof.
  split.
  - exact (serialize_exception_rejects lenient (plain_output (VObj [("a", VNum 1)]))
             ∅ _ eq_refl eq_refl eq_refl).
  - exact (serialize_exception_rejects lenient text_output
             {[ "content-type" := "text/plain" ]} _ eq_refl eq_refl eq_refl).
Defined.
(** ** The strict mode looks at the response violations only *)


(** ** What the pipeline writes to the logger *)





(** ** The response to a JSON output *)


(** ** Every response of the pipeline is well-formed *)




(** ** The request handler *)

Lemma errorResponse_unprocessable {host : Host} (detail : Detail) :
  errorResponse (fromTemplate UNPROCESSABLE_ENTITY detail None) =
    Return {| res_status := 422;
              res_headers := {[ "content-type" := "application/problem+json" ]};
              res_body :=
                BodyJson (toProblemJson
                            (fromTemplate UNPROCESSABLE_ENTITY detail None)) |}.
Proof.
  rewrite (errorResponse_plain _ 422); try reflexivity. lia.
Qed.

(** X4. A request whose preferences do not decode is answered with the 422
    problem response; the engine is not called and the store is not
    touched. *)
Theorem fetch_rejects_preferences {host : Host}
  (parsePreferHeader : string -> gmap string value)
  (prism_request : IHttpRequest -> positive ->
                   Store (Result (Either JsError IPrismOutput)))
  (σ : gmap positive cell) (config : positive)
  (request : Request) (body : value) (e : JsError) :
  parseRequestBody request = Some (Return body) ->
  getHttpConfigFromRequest parsePreferHeader (Some (req_headers request))
    (Some (searchParamsToNameValues (req_searchParams request))) = Left e ->
  fetch parsePreferHeader prism_request config request σ
    = Some (errorResponse e, σ) /\
  errorResponse e =
    Return {| res_status := 422;
              res_headers := {[ "content-type" := "application/problem+json" ]};
              res_body := BodyJson (toProblemJson e) |}.
Proof.
  intros Hb He. unfold fetch. rewrite Hb.
  cbn [normalize in_headers in_url url_query]. rewrite He.
  split; [reflexivity|].
  unfold getHttpConfigFromRequest in He.
  destruct (PreferencesDecoder _); [|discriminate].
  injection He as <-. apply errorResponse_unprocessable.
Qed.

Lemma fetch_rejects_preferences_witness :
  exists res,
    fetch no_tokens engine_not_found 1 request_code_20 main_store
      = Some (Return res, main_store) /\
    res_status res = 422.
Proof.
  destruct (fetch_rejects_preferences no_tokens engine_not_found main_store 1
              request_code_20 (VStr "") _ eq_refl eq_refl) as [Hf Hr].
  eexists. split; [rewrite Hf; exact (f_equal (fun r => Some (r, main_store)) Hr)|].
  reflexivity.
Defined.
(** ** The request handler, once more *)

(** X17. A request whose body does not parse is not answered: under a JSON
    content type and a text that is not a JSON text, the promise of
    [fetch] rejects with the syntax error, before the preferences are read
    and without calling the engine; the store is not touched and no
    problem response is made. *)
Theorem fetch_rejects_malformed_body {host : Host}
  (parsePreferHeader : string -> gmap string value)
  (prism_request : IHttpRequest -> positive ->
                   Store (Result (Either JsError IPrismOutput)))
  (σ : gmap positive cell) (config : positive) (request : Request) :
  req_headers request !! "content-length" <> Some "0" ->
  typeIs (string_or_undefined (Headers_get (req_headers request) "content-type"))
         ["application/json"; "application/*+json"] = true ->
  JSON_text (req_text request) = false ->
  fetch parsePreferHeader prism_request config request σ
    = Some (Throw SyntaxError, σ).
Proof.
  intros Hl Hct Hp. unfold fetch.
  rewrite parseRequestBody_reads by exact Hl. rewrite Hct.
  unfold Request_json. rewrite Hp. reflexivity.
Qed.

Lemma fetch_rejects_malformed_body_witness :
  JSON_text (req_text malformed_json_post) = false /\
  fetch no_tokens engine_not_found 1 malformed_json_post main_store
    = Some (Throw SyntaxError, main_store).
Proof.
  split; [reflexivity|].
  apply (fetch_rejects_malformed_body no_tokens engine_not_found main_store 1
           malformed_json_post).
  - vm_compute. discriminate.
  - reflexivity.
  - reflexivity.
Defined.

(** X18. When the body parses and the preferences decode, [fetch] calls the
    engine once, with the normalized request and a new configuration
    object that has the flags of the baseline and a new, merged [mock]
    object, in a store where every object that existed before the request
    is as it was; it writes nothing afterwards, reads the strict-errors
    flag of the baseline as the engine left it, and answers what the
    pipeline makes of the engine's result: in particular a failure of the
    engine is answered by the error translator. *)
Theorem fetch_calls_engine {host : Host}
  (parsePreferHeader : string -> gmap string value)
  (prism_request : IHttpRequest -> positive ->
                   Store (Result (Either JsError IPrismOutput)))
  (σ : gmap positive cell) (config : positive) (c : IHttpConfig)
  (d : gmap string prim) (request : Request) (body : value)
  (preferences : RequestPreferences) :
  σ !! config = Some (ConfigObject c) ->
  σ !! mock c = Some (Dictionary d) ->
  parseRequestBody request = Some (Return body) ->
  getHttpConfigFromRequest parsePreferHeader (Some (req_headers request))
    (Some (searchParamsToNameValues (req_searchParams request)))
    = Right preferences ->
  exists requestConfig' m' σ1,
    (forall l, is_Some (σ !! l) -> σ1 !! l = σ !! l) /\
    σ !! requestConfig' = None /\ σ !! m' = None /\
    σ1 !! requestConfig' = Some (ConfigObject (with_mock c m')) /\
    σ1 !! m' = Some (Dictionary (merged d (preferences_object preferences))) /\
    fetch parsePreferHeader prism_request config request σ =
      match prism_request (normalize request body) requestConfig' σ1 with
      | Some (settled, σ2) =>
          match σ2 !! config with
          | Some (ConfigObject baseline) => Some (respond baseline settled, σ2)
          | _ => None
          end
      | None => None
      end /\
    (forall e σ2 baseline,
       prism_request (normalize request body) requestConfig' σ1
         = Some (Return (Left e), σ2) ->
       σ2 !! config = Some (ConfigObject baseline) ->
       fetch parsePreferHeader prism_request config request σ
         = Some (errorResponse e, σ2)).
Proof.
  intros Hc Hm Hb Hp.
  destruct (requestConfig_frame σ config c d preferences Hc Hm)
    as (config' & m' & σ1 & Hrun & Hframe & Hfc & Hfm & Hc' & Hm').
  exists config', m', σ1.
  assert (fetch parsePreferHeader prism_request config request σ =
            match prism_request (normalize request body) config' σ1 with
            | Some (settled, σ2) =>
                match σ2 !! config with
                | Some (ConfigObject baseline) => Some (respond baseline settled, σ2)
                | _ => None
                end
            | None => None
            end) as Hf.
  { unfold fetch. rewrite Hb.
    cbn [normalize in_headers in_url url_query]. rewrite Hp.
    unfold bindS at 1. rewrite Hrun. unfold bindS at 1.
    destruct (prism_request _ config' σ1) as [[settled σ2]|]; [|reflexivity].
    unfold bindS, read_config, ret.
    destruct (σ2 !! config) as [[baseline|]|]; reflexivity. }
  split; [exact Hframe|]. split; [exact Hfc|]. split; [exact Hfm|].
  split; [exact Hc'|]. split; [exact Hm'|]. split; [exact Hf|].
  intros e σ2 baseline He Hb2. rewrite Hf, He, Hb2. reflexivity.
Qed.

Lemma fetch_calls_engine_witness :
  exists σ' res,
    fetch no_tokens engine_not_found 1 bare_request main_store
      = Some (Return res, σ') /\
    res_status res = 404 /\
    σ' !! 1%positive = Some (ConfigObject lenient).
Proof.
  destruct (fetch_calls_engine no_tokens engine_not_found main_store 1 lenient
              {[ "dynamic" := PBool false ]} bare_request (VStr "")
              {| pref_code := None; pref_exampleKey := None; pref_dynamic := None |}
              eq_refl eq_refl eq_refl eq_refl)
    as (config' & m' & σ1 & Hframe & _ & _ & _ & _ & _ & Hfail).
  assert (σ1 !! 1%positive = Some (ConfigObject lenient)) as H1.
  { rewrite Hframe; [reflexivity | eexists; reflexivity]. }
  exists σ1. eexists. split; [|split; [|exact H1]].
  - rewrite (Hfail _ σ1 lenient eq_refl H1).
    rewrite (errorResponse_plain _ 404); try reflexivity. lia.
  - reflexivity.
Defined.

(** X19. The normalized request: the method is lower-cased and is "get"
    when the request has none; the headers and the body are passed as they
    are; the base URL is the first non-empty value of the query parameter
    __server, and that parameter stays in the forwarded query. *)
Theorem normalize_request (request : Request) (body : value) :
  in_method (normalize request body) =
    (if String.eqb (req_method request) "" then "get"
     else toLowerCase (req_method request)) /\
  in_headers (normalize request body) = req_headers request /\
  in_body (normalize request body) = body /\
  url_query (in_url (normalize request body)) !! "__server" =
    match URLSearchParams_getAll (req_searchParams request) "__server" with
    | [] => None
    | [v] => Some (One v)
    | values => Some (Many values)
    end /\
  url_baseUrl (in_url (normalize request body)) =
    match URLSearchParams_getAll (req_searchParams request) "__server" with
    | [] => None
    | v :: _ => if String.eqb v "" then None else Some v
    end /\
  (forall v, url_baseUrl (in_url (normalize request body)) = Some v ->
             is_Some (url_query (in_url (normalize request body)) !! "__server")).
Proof.
  assert (url_query (in_url (normalize request body)) !! "__server" =
            match URLSearchParams_getAll (req_searchParams request) "__server" with
            | [] => None
            | [v] => Some (One v)
            | values => Some (Many values)
            end) as Hq.
  { cbn [normalize in_url url_query]. apply searchParams_lookup. discriminate. }
  assert (url_baseUrl (in_url (normalize request body)) =
            match URLSearchParams_getAll (req_searchParams request) "__server" with
            | [] => None
            | v :: _ => if String.eqb v "" then None else Some v
            end) as Hb.
  { cbn [normalize in_url url_baseUrl]. unfold URLSearchParams_get.
    destruct (URLSearchParams_getAll (req_searchParams request) "__server")
      as [|v r]; [reflexivity|].
    cbn [head truthy_str]. destruct (String.eqb v ""); reflexivity. }
  split.
  { cbn [normalize in_method truthy_str].
    destruct (String.eqb (req_method request) ""); reflexivity. }
  split; [reflexivity|]. split; [reflexivity|]. split; [exact Hq|].
  split; [exact Hb|].
  intros v Hv. rewrite Hq. rewrite Hb in Hv.
  destruct (URLSearchParams_getAll (req_searchParams request) "__server")
    as [|x [|y r]]; [discriminate | eauto | eauto].
Qed.

Lemma normalize_request_witness :
  in_method (normalize request_with_server VNull) = "get" /\
  url_baseUrl (in_url (normalize request_with_server VNull)) = Some "http://x" /\
  url_query (in_url (normalize request_with_server VNull)) !! "__server"
    = Some (Many ["http://x"; "y"]).
Proof.
  pose proof (normalize_request request_with_server VNull)
    as (Hm & _ & _ & Hq & Hb & _).
  split; [exact Hm|]. split; [exact Hb | exact Hq].
Defined.

